(** * solo_convert: the ingestion model and the YOLO conversion pipeline

    A shallow embedding of [src/data/unity_data] (label registry, file
    discovery, capture and metric parsing, the dataset aggregate) and of
    [src/data/yolo_conversion] (output scaffold, manifest, annotation
    emission), with the properties the specification states about them and
    further properties read off the code.

    Conventions of the embedding:
    - a Python [int] is a [Z]; a Python [float] is the rational [Q] it
      stands for.  Where only the structure of the output matters (which
      lines, in which files, in which order, after which failure), the float
      operations are exact; where the numbers matter, the operations round
      as binary64 does ([Binary64]);
    - a Python [str] is a [string] of 8-bit characters;
    - a raised exception is the [Raise] branch of [result];
    - writes to the file system are recorded, in order, as a list of
      [event]s next to the result of the computation; a write that fails
      ends the run at that event ([Environment]). *)

From Stdlib Require Import ZArith QArith Qround Qabs Qpower List String Ascii Bool Lia Lqa FinFun.
From Stdlib Require Import DecimalString DecimalZ DecimalN DecimalPos DecimalFacts.
From Stdlib Require Import Sorted.
Import ListNotations.

Local Open Scope string_scope.
Local Open Scope list_scope.
Local Open Scope Z_scope.

(* ================================================================== *)
(** * Exceptions and the error monad *)

Inductive exn : Type :=
| KeyError
| ValueError
| AttributeError
| IndexError
| ZeroDivisionError
| PathIsNotADirectory.   (* [raise Exception("Path is not a directory")] *)

Inductive result (A : Type) : Type :=
| Ok (a : A)
| Raise (e : exn).
Arguments Ok {A} a.
Arguments Raise {A} e.

Definition bind {A B : Type} (m : result A) (k : A -> result B) : result B :=
  match m with
  | Ok a => k a
  | Raise e => Raise e
  end.

Declare Scope py_scope.
Delimit Scope py_scope with py.
Notation "x <- m ;; k" := (bind m (fun x => k))
  (at level 61, m at next level, right associativity) : py_scope.
Local Open Scope py_scope.

(** [d[key]] on a raw JSON object whose key may be missing. *)
Definition getitem {A : Type} (field : option A) : result A :=
  match field with
  | Some a => Ok a
  | None => Raise KeyError
  end.

(** [l[i]] on a Python list. *)
Definition index {A : Type} (l : list A) (i : nat) : result A :=
  match nth_error l i with
  | Some a => Ok a
  | None => Raise IndexError
  end.

(** [for x in l: body(x)], where the body may raise. *)
Fixpoint for_each {A B : Type} (body : A -> result (list B)) (l : list A)
  : result (list B) :=
  match l with
  | [] => Ok []
  | x :: rest =>
      ys <- body x ;;
      zs <- for_each body rest ;;
      Ok (ys ++ zs)
  end.

(* ================================================================== *)
(** * The Python builtins the sources call *)

Module Py.

(** ** [str.split(sep)] with a one-character separator *)
Fixpoint split (sep : ascii) (s : string) : list string :=
  match s with
  | EmptyString => [EmptyString]
  | String c rest =>
      if Ascii.eqb c sep then EmptyString :: split sep rest
      else match split sep rest with
           | hd :: tl => String c hd :: tl
           | [] => [String c EmptyString]
           end
  end.

(** [s.split('.')[-1]] *)
Definition last_component (s : string) : string :=
  List.last (split "." s) EmptyString.

(** ** [int(s)] for a string, base 10

    The accepted syntax is: optional surrounding white space (the space
    and the characters 9 to 13), an optional sign, then decimal digits in
    which single underscores may separate digits.  Everything else raises
    [ValueError].

    This is [int] on ASCII text of at most 4300 digits.  Python also takes
    the decimal digits and the white space of other scripts, which a string
    of 8-bit characters does not hold, and refuses a numeral of more than
    4300 digits; the properties of [int] below are stated within these
    limits ([NumeralSpec]). *)
Definition is_space (c : ascii) : bool :=
  let n := nat_of_ascii c in
  ((9 <=? n) && (n <=? 13) || (n =? 32))%nat.

Definition is_digit (c : ascii) : bool :=
  let n := nat_of_ascii c in ((48 <=? n) && (n <=? 57))%nat.

Definition digit_value (c : ascii) : Z := Z.of_nat (nat_of_ascii c) - 48.

Fixpoint lstrip (s : string) : string :=
  match s with
  | EmptyString => EmptyString
  | String c rest => if is_space c then lstrip rest else s
  end.

(** [rstrip] drops the white space at the end. *)
Fixpoint rstrip (s : string) : string :=
  match s with
  | EmptyString => EmptyString
  | String c rest =>
      match rstrip rest with
      | EmptyString => if is_space c then EmptyString else String c EmptyString
      | r => String c r
      end
  end.

Definition strip (s : string) : string := rstrip (lstrip s).

(** [after_digit] tells whether the previous character was a digit: an
    underscore is accepted only between two digits. *)
Fixpoint digits (acc : Z) (after_digit : bool) (s : string) : option Z :=
  match s with
  | EmptyString => if after_digit then Some acc else None
  | String c rest =>
      if is_digit c then digits (10 * acc + digit_value c) true rest
      else if Ascii.eqb c "_" then
             if after_digit then digits acc false rest else None
           else None
  end.

Definition signed_digits (t : string) : option Z :=
  match t with
  | EmptyString => None
  | String c rest =>
      if Ascii.eqb c "+" then digits 0 false rest
      else if Ascii.eqb c "-" then option_map Z.opp (digits 0 false rest)
           else digits 0 false t
  end.

Definition int (s : string) : result Z :=
  match signed_digits (strip s) with
  | Some n => Ok n
  | None => Raise ValueError
  end.

(** ** [str(n)] for an integer *)
Definition str (n : Z) : string := NilZero.string_of_int (Z.to_int n).

(** ** [round(x, ndigits)], exactly: the multiple of [10^-ndigits] nearest
    to [x], ties to even.  The float that Python returns is the one nearest
    to this decimal, [Binary64.round]. *)
Definition round_half_even (x : Q) : Z :=
  let f := Qfloor x in
  let r := (x - inject_Z f)%Q in
  match (r ?= 1 # 2)%Q with
  | Lt => f
  | Gt => f + 1
  | Eq => if Z.even f then f else f + 1
  end.

Definition pow10 (ndigits : Z) : Q := ((10 # 1) ^ ndigits)%Q.

Definition round (x : Q) (ndigits : Z) : Q :=
  (inject_Z (round_half_even (x * pow10 ndigits)) / pow10 ndigits)%Q.

(** ** [x / y], true division *)
Definition truediv (x y : Q) : result Q :=
  if Qeq_bool y 0 then Raise ZeroDivisionError else Ok (x / y)%Q.

(** ** [os.path.join] (POSIX flavour) *)
Definition starts_with_slash (s : string) : bool :=
  match s with
  | String "/" _ => true
  | _ => false
  end.

Fixpoint ends_with_slash (s : string) : bool :=
  match s with
  | EmptyString => false
  | String c EmptyString => Ascii.eqb c "/"
  | String _ rest => ends_with_slash rest
  end.

Definition join2 (a b : string) : string :=
  if starts_with_slash b then b
  else if orb (String.eqb a "") (ends_with_slash a) then (a ++ b)%string
       else (a ++ "/" ++ b)%string.

Definition path_join (a : string) (rest : list string) : string :=
  fold_left join2 rest a.

(** ** [os.path.splitext] (POSIX flavour)

    [rfind c s] is the index of the last [c] in [s], if any. *)
Fixpoint rfind (c : ascii) (s : string) : option nat :=
  match s with
  | EmptyString => None
  | String d rest =>
      match rfind c rest with
      | Some i => Some (S i)
      | None => if Ascii.eqb d c then Some 0%nat else None
      end
  end.

(** Is there a character other than ['.'] in [s[from:upto]]? *)
Fixpoint has_non_dot (s : string) (from upto : nat) : bool :=
  match s with
  | EmptyString => false
  | String c rest =>
      match upto with
      | O => false
      | S upto' =>
          match from with
          | O => negb (Ascii.eqb c ".") || has_non_dot rest 0 upto'
          | S from' => has_non_dot rest from' upto'
          end
      end
  end.

Definition splitext (p : string) : string * string :=
  let file_start := match rfind "/" p with Some i => S i | None => 0%nat end in
  match rfind "." p with
  | Some dot =>
      if ((file_start <=? dot)%nat && has_non_dot p file_start dot)%bool
      then (substring 0 dot p, substring dot (String.length p - dot) p)
      else (p, EmptyString)
  | None => (p, EmptyString)
  end.

End Py.

(** An f-string: the pieces, already rendered, put one after the other. *)
Definition fstr (pieces : list string) : string := String.concat "" pieces.

(* ================================================================== *)
(** * Insertion-ordered dictionaries

    [captures_by_sequence] and [metrics_by_sequence] are Python dicts whose
    [values()] are read in insertion order, so they are association lists
    in which a key occurs at most once, at the place of its first
    insertion. *)

Module Dict.
Section WithKey.
Context {K V : Type} (eqb : K -> K -> bool).

Definition t : Type := list (K * V).

Fixpoint get (k : K) (d : t) : option V :=
  match d with
  | [] => None
  | (k', v) :: rest => if eqb k k' then Some v else get k rest
  end.

Definition mem (k : K) (d : t) : bool :=
  match get k d with Some _ => true | None => false end.

(** [d[k] = v] *)
Fixpoint set (k : K) (v : V) (d : t) : t :=
  match d with
  | [] => [(k, v)]
  | (k', v') :: rest =>
      if eqb k k' then (k, v) :: rest else (k', v') :: set k v rest
  end.

(** [d[k]], raising [KeyError] on a missing key *)
Definition lookup (k : K) (d : t) : result V :=
  match get k d with
  | Some v => Ok v
  | None => Raise KeyError
  end.

Definition values (d : t) : list V := map snd d.
End WithKey.
End Dict.

(* ================================================================== *)
(** * The data model ([src/data/unity_data]) *)

Module Label.
Record t : Type := mk {
  id : Z;
  source_label_id : Z;
  name : string
}.
End Label.

(** ** Annotation records

    The classes of the seven annotation kinds are declared in modules of the
    package that hold no logic used here; their fields are the ones the
    conversion reads. *)

Module BoundingBox2D.
Record t : Type := mk {
  instance_id : Z;
  label : Label.t;
  origin : list Q;        (* [x, y], pixels *)
  dimension : list Q      (* [w, h], pixels *)
}.
End BoundingBox2D.

Module BoundingBox2DAnnotation.
Record t : Type := mk { values : list BoundingBox2D.t }.
End BoundingBox2DAnnotation.

Module Keypoint.
Record t : Type := mk {
  location : list Q;      (* [x, y], pixels *)
  state : Z               (* visibility code, 2 = visible *)
}.
End Keypoint.

Module KeypointValue.
Record t : Type := mk {
  instance_id : Z;
  keypoints : list Keypoint.t
}.
End KeypointValue.

Module KeypointAnnotation.
Record t : Type := mk { values : list KeypointValue.t }.
End KeypointAnnotation.

Module Instance.
Record t : Type := mk {
  instance_id : Z;
  label : Label.t;
  color : list Z
}.
End Instance.

Module InstanceSegmentationAnnotation.
Record t : Type := mk {
  file_path : string;
  instances : list Instance.t
}.
End InstanceSegmentationAnnotation.

Module SemanticSegmentationAnnotation.
Record t : Type := mk { file_path : string }.
End SemanticSegmentationAnnotation.

(** The three kinds the conversion never looks into keep their raw block. *)
Module Passthrough.
Record t (Raw : Type) : Type := mk { raw : Raw }.
Arguments mk {Raw} raw.
Arguments raw {Raw} _.
End Passthrough.

(** ** Captures *)

Module Capture.

Record t (Raw : Type) : Type := mk {
  id : string;
  sequence : Z;
  description : string;
  position : list Q;
  rotation : list Q;
  velocity : list Q;
  acceleration : list Q;
  file_path : string;
  image_format : string;
  dimension : list Q;
  projection : string;
  matrix : list Q;
  instance_segmentation : option InstanceSegmentationAnnotation.t;
  semantic_segmentation : option SemanticSegmentationAnnotation.t;
  bounding_boxes_2d : option BoundingBox2DAnnotation.t;
  bounding_boxes_3d : option (Passthrough.t Raw);
  depth : option (Passthrough.t Raw);
  keypoints : option KeypointAnnotation.t;
  transforms : option (Passthrough.t Raw)
}.
Arguments mk {Raw}.
Arguments id {Raw} _.
Arguments sequence {Raw} _.
Arguments description {Raw} _.
Arguments position {Raw} _.
Arguments rotation {Raw} _.
Arguments velocity {Raw} _.
Arguments acceleration {Raw} _.
Arguments file_path {Raw} _.
Arguments image_format {Raw} _.
Arguments dimension {Raw} _.
Arguments projection {Raw} _.
Arguments matrix {Raw} _.
Arguments instance_segmentation {Raw} _.
Arguments semantic_segmentation {Raw} _.
Arguments bounding_boxes_2d {Raw} _.
Arguments bounding_boxes_3d {Raw} _.
Arguments depth {Raw} _.
Arguments keypoints {Raw} _.
Arguments transforms {Raw} _.

(** One entry of the raw [annotations] list: its ["@type"] tag, if it has
    one, and the block itself. *)
Record raw_annotation (Raw : Type) : Type := mk_annotation {
  at_type : option string;
  block : Raw
}.
Arguments mk_annotation {Raw}.
Arguments at_type {Raw} _.
Arguments block {Raw} _.

(** A raw capture object: every key may be missing. *)
Record raw (Raw : Type) : Type := mk_raw {
  raw_path : option string;
  raw_annotations : option (list (raw_annotation Raw));
  raw_id : option string;
  raw_description : option string;
  raw_position : option (list Q);
  raw_rotation : option (list Q);
  raw_velocity : option (list Q);
  raw_acceleration : option (list Q);
  raw_filename : option string;
  raw_imageFormat : option string;
  raw_dimension : option (list Q);
  raw_projection : option string;
  raw_matrix : option (list Q)
}.
Arguments mk_raw {Raw}.
Arguments raw_path {Raw} _.
Arguments raw_annotations {Raw} _.
Arguments raw_id {Raw} _.
Arguments raw_description {Raw} _.
Arguments raw_position {Raw} _.
Arguments raw_rotation {Raw} _.
Arguments raw_velocity {Raw} _.
Arguments raw_acceleration {Raw} _.
Arguments raw_filename {Raw} _.
Arguments raw_imageFormat {Raw} _.
Arguments raw_dimension {Raw} _.
Arguments raw_projection {Raw} _.
Arguments raw_matrix {Raw} _.

(** The [type_name] and [from_dict] of the seven annotation classes. *)
Record parsers (Raw : Type) : Type := mk_parsers {
  instance_segmentation_type : string;
  instance_segmentation_from_dict :
    Raw -> list Label.t -> string -> result InstanceSegmentationAnnotation.t;
  semantic_segmentation_type : string;
  semantic_segmentation_from_dict :
    Raw -> list Label.t -> string -> result SemanticSegmentationAnnotation.t;
  bounding_box_2d_type : string;
  bounding_box_2d_from_dict :
    Raw -> list Label.t -> result BoundingBox2DAnnotation.t;
  bounding_box_3d_type : string;
  bounding_box_3d_from_dict :
    Raw -> list Label.t -> result (Passthrough.t Raw);
  depth_type : string;
  depth_from_dict : Raw -> string -> result (Passthrough.t Raw);
  keypoint_type : string;
  keypoint_from_dict : Raw -> list Label.t -> result KeypointAnnotation.t;
  transform_type : string;
  transform_from_dict : Raw -> result (Passthrough.t Raw)
}.
Arguments mk_parsers {Raw}.
Arguments instance_segmentation_type {Raw} _.
Arguments instance_segmentation_from_dict {Raw} _.
Arguments semantic_segmentation_type {Raw} _.
Arguments semantic_segmentation_from_dict {Raw} _.
Arguments bounding_box_2d_type {Raw} _.
Arguments bounding_box_2d_from_dict {Raw} _.
Arguments bounding_box_3d_type {Raw} _.
Arguments bounding_box_3d_from_dict {Raw} _.
Arguments depth_type {Raw} _.
Arguments depth_from_dict {Raw} _.
Arguments keypoint_type {Raw} _.
Arguments keypoint_from_dict {Raw} _.
Arguments transform_type {Raw} _.
Arguments transform_from_dict {Raw} _.

Section FromDict.
Context {Raw : Type} (P : parsers Raw).

(** [for annotation in _dict['annotations']:
       annotations[annotation['@type']] = annotation] *)
Fixpoint index_annotations (l : list (raw_annotation Raw))
         (annotations : Dict.t (K:=string) (V:=Raw))
  : result (Dict.t (K:=string) (V:=Raw)) :=
  match l with
  | [] => Ok annotations
  | a :: rest =>
      ty <- getitem (at_type a) ;;
      index_annotations rest (Dict.set String.eqb ty (block a) annotations)
  end.

(** [None if T.type_name not in annotations
     else T.from_dict(annotations[T.type_name], ...)] *)
Definition parse_if_present {T : Type}
           (annotations : Dict.t (K:=string) (V:=Raw))
           (type_name : string) (from_dict : Raw -> result T)
  : result (option T) :=
  match Dict.get String.eqb type_name annotations with
  | None => Ok None
  | Some b => r <- from_dict b ;; Ok (Some r)
  end.

Definition from_dict (_dict : raw Raw) (labels : list Label.t)
  : result (t Raw) :=
  path <- getitem (raw_path _dict) ;;
  sequence <- Py.int (Py.last_component path) ;;
  raw_list <- getitem (raw_annotations _dict) ;;
  annotations <- index_annotations raw_list [] ;;
  instance_segmentation <-
    parse_if_present annotations (instance_segmentation_type P)
      (fun b => instance_segmentation_from_dict P b labels path) ;;
  semantic_segmentation <-
    parse_if_present annotations (semantic_segmentation_type P)
      (fun b => semantic_segmentation_from_dict P b labels path) ;;
  bounding_boxes_2d <-
    parse_if_present annotations (bounding_box_2d_type P)
      (fun b => bounding_box_2d_from_dict P b labels) ;;
  bounding_boxes_3d <-
    parse_if_present annotations (bounding_box_3d_type P)
      (fun b => bounding_box_3d_from_dict P b labels) ;;
  depth <-
    parse_if_present annotations (depth_type P)
      (fun b => depth_from_dict P b path) ;;
  keypoints <-
    parse_if_present annotations (keypoint_type P)
      (fun b => keypoint_from_dict P b labels) ;;
  transforms <-
    parse_if_present annotations (transform_type P)
      (fun b => transform_from_dict P b) ;;
  id <- getitem (raw_id _dict) ;;
  description <- getitem (raw_description _dict) ;;
  position <- getitem (raw_position _dict) ;;
  rotation <- getitem (raw_rotation _dict) ;;
  velocity <- getitem (raw_velocity _dict) ;;
  acceleration <- getitem (raw_acceleration _dict) ;;
  filename <- getitem (raw_filename _dict) ;;
  imageFormat <- getitem (raw_imageFormat _dict) ;;
  dimension <- getitem (raw_dimension _dict) ;;
  projection <- getitem (raw_projection _dict) ;;
  matrix <- getitem (raw_matrix _dict) ;;
  Ok (mk id sequence description position rotation velocity acceleration
         (Py.join2 path filename) imageFormat dimension projection matrix
         instance_segmentation semantic_segmentation bounding_boxes_2d
         bounding_boxes_3d depth keypoints transforms).
End FromDict.

End Capture.

(** ** Metrics ([metric.py]) *)

Module ObjectCountValue.
Record t : Type := mk {
  label_id : Z;
  label_name : string;
  count : Z
}.
End ObjectCountValue.

Module OcclusionValue.
Record t : Type := mk {
  instance_id : Z;
  percent_visible : Q;
  percent_in_frame : Q;
  visibility_in_frame : Q
}.
End OcclusionValue.

Module ObjectCountMetric.
Record t : Type := mk {
  id : string;
  sequence : Z;
  sensor_id : string;
  annotation_id : string;
  description : string;
  values : option (list ObjectCountValue.t)
}.
End ObjectCountMetric.

Module OcclusionMetric.
Record t : Type := mk {
  id : string;
  sequence : Z;
  sensor_id : string;
  annotation_id : string;
  description : string;
  values : option (list OcclusionValue.t)
}.
End OcclusionMetric.

Module Metric.

Definition TYPE_GENERIC : string := "type.unity.com/unity.solo.GenericMetric".
Definition TYPE_OBJECT_COUNT : string :=
  "type.unity.com/unity.solo.ObjectCountMetric".
Definition TYPE_OCCLUSION : string :=
  "type.unity.com/unity.solo.OcclusionMetric".

Record t : Type := mk {
  id : string;
  sequence : Z;
  sensor_id : string;
  description : string;
  (* [generic_metrics] is always [None] *)
  object_count_metric : option ObjectCountMetric.t;
  occlusion_metric : option OcclusionMetric.t
}.

(** One entry of a raw [values] list; which keys it carries depends on the
    kind of the metric. *)
Record raw_value : Type := mk_raw_value {
  raw_labelId : option Z;
  raw_labelName : option string;
  raw_count : option Z;
  raw_instanceId : option Z;
  raw_percentVisible : option Q;
  raw_percentInFrame : option Q;
  raw_visibilityInFrame : option Q
}.

Record raw : Type := mk_raw {
  raw_type : option string;            (* "@type" *)
  raw_id : option string;
  raw_path : option string;
  raw_sensorId : option string;
  raw_annotationId : option string;
  raw_description : option string;
  raw_values : option (list raw_value)
}.

Definition object_count_value_from_dict (v : raw_value)
  : result ObjectCountValue.t :=
  label_id <- getitem (raw_labelId v) ;;
  label_name <- getitem (raw_labelName v) ;;
  count <- getitem (raw_count v) ;;
  Ok (ObjectCountValue.mk label_id label_name count).

Definition occlusion_value_from_dict (v : raw_value)
  : result OcclusionValue.t :=
  instance_id <- getitem (raw_instanceId v) ;;
  percent_visible <- getitem (raw_percentVisible v) ;;
  percent_in_frame <- getitem (raw_percentInFrame v) ;;
  visibility_in_frame <- getitem (raw_visibilityInFrame v) ;;
  Ok (OcclusionValue.mk instance_id percent_visible percent_in_frame
                        visibility_in_frame).

(** [None if 'values' not in _dict else [f(v) for v in _dict['values']]] *)
Definition parse_values {T : Type} (f : raw_value -> result T)
           (_dict : raw) : result (option (list T)) :=
  match raw_values _dict with
  | None => Ok None
  | Some vs =>
      l <- for_each (fun v => x <- f v ;; Ok [x]) vs ;;
      Ok (Some l)
  end.

Definition object_count_metric_from_dict (_dict : raw)
  : result ObjectCountMetric.t :=
  id <- getitem (raw_id _dict) ;;
  path <- getitem (raw_path _dict) ;;
  sequence <- Py.int (Py.last_component path) ;;
  sensor_id <- getitem (raw_sensorId _dict) ;;
  annotation_id <- getitem (raw_annotationId _dict) ;;
  description <- getitem (raw_description _dict) ;;
  values <- parse_values object_count_value_from_dict _dict ;;
  Ok (ObjectCountMetric.mk id sequence sensor_id annotation_id description
                           values).

Definition occlusion_metric_from_dict (_dict : raw)
  : result OcclusionMetric.t :=
  id <- getitem (raw_id _dict) ;;
  path <- getitem (raw_path _dict) ;;
  sequence <- Py.int (Py.last_component path) ;;
  sensor_id <- getitem (raw_sensorId _dict) ;;
  annotation_id <- getitem (raw_annotationId _dict) ;;
  description <- getitem (raw_description _dict) ;;
  values <- parse_values occlusion_value_from_dict _dict ;;
  Ok (OcclusionMetric.mk id sequence sensor_id annotation_id description
                         values).

Definition from_dict (_dict : raw) : result t :=
  ty <- getitem (raw_type _dict) ;;
  object_count_metric <-
    (if String.eqb ty TYPE_OBJECT_COUNT
     then m <- object_count_metric_from_dict _dict ;; Ok (Some m)
     else Ok None) ;;
  ty' <- getitem (raw_type _dict) ;;
  occlusion_metric <-
    (if String.eqb ty' TYPE_OCCLUSION
     then m <- occlusion_metric_from_dict _dict ;; Ok (Some m)
     else Ok None) ;;
  id <- getitem (raw_id _dict) ;;
  path <- getitem (raw_path _dict) ;;
  sequence <- Py.int (Py.last_component path) ;;
  sensor_id <- getitem (raw_sensorId _dict) ;;
  description <- getitem (raw_description _dict) ;;
  Ok (mk id sequence sensor_id description object_count_metric
         occlusion_metric).

End Metric.

(** ** The dataset aggregate ([data.py]) *)

Module UnityData.

(** One [{label_id, label_name}] entry of a [spec] list. *)
Record spec_entry : Type := mk_spec {
  label_id : option Z;
  label_name : option string
}.

(** The [spec] key of a definition block: missing, present but not a list,
    or a list. *)
Inductive spec_field : Type :=
| SpecMissing
| SpecNotAList
| SpecList (entries : list spec_entry).

Record annotation_definition : Type := mk_definition {
  spec : spec_field
}.

(** The body of the inner loop of [read_labels]; the state is
    [(labels, counter)]. *)
Definition register (st : list Label.t * Z) (s : spec_entry)
  : list Label.t * Z :=
  let '(labels, counter) := st in
  match label_id s, label_name s with
  | Some lid, Some nm =>
      if existsb (fun l => String.eqb (Label.name l) nm) labels
      then st
      else (labels ++ [Label.mk counter lid nm], counter + 1)
  | _, _ => st
  end.

(** The body of the outer loop. *)
Definition read_block (st : list Label.t * Z) (d : annotation_definition)
  : list Label.t * Z :=
  match spec d with
  | SpecList (e :: es) => fold_left register (e :: es) st
  | _ => st
  end.

Definition read_labels (annotation_definitions : list annotation_definition)
  : list Label.t :=
  fst (fold_left read_block annotation_definitions ([], 0)).

Record t (Raw : Type) : Type := mk {
  labels : list Label.t;
  captures_by_sequence : Dict.t (K:=Z) (V:=list (Capture.t Raw));
  metrics_by_sequence : Dict.t (K:=Z) (V:=list Metric.t)
}.
Arguments mk {Raw}.
Arguments labels {Raw} _.
Arguments captures_by_sequence {Raw} _.
Arguments metrics_by_sequence {Raw} _.

(** A [frame_data.json] file: its directory, and its [captures] and
    [metrics] keys, each missing ([None]), not a list ([Some None]) or a
    list. *)
Record frame_data_file (Raw : Type) : Type := mk_file {
  dirname : string;
  file_captures : option (option (list (Capture.raw Raw)));
  file_metrics : option (option (list Metric.raw))
}.
Arguments mk_file {Raw}.
Arguments dirname {Raw} _.
Arguments file_captures {Raw} _.
Arguments file_metrics {Raw} _.

(** [if k not in d: d[k] = []] then [d[k].append(x)] *)
Definition bucket {V : Type} (k : Z) (x : V) (d : Dict.t (K:=Z) (V:=list V))
  : Dict.t (K:=Z) (V:=list V) :=
  match Dict.get Z.eqb k d with
  | None => Dict.set Z.eqb k [x] d
  | Some l => Dict.set Z.eqb k (l ++ [x]) d
  end.

Section Reading.
Context {Raw : Type} (P : Capture.parsers Raw).

Definition set_capture_path (dir : string) (c : Capture.raw Raw)
  : Capture.raw Raw :=
  Capture.mk_raw (Some dir) (Capture.raw_annotations c) (Capture.raw_id c)
    (Capture.raw_description c) (Capture.raw_position c)
    (Capture.raw_rotation c) (Capture.raw_velocity c)
    (Capture.raw_acceleration c) (Capture.raw_filename c)
    (Capture.raw_imageFormat c) (Capture.raw_dimension c)
    (Capture.raw_projection c) (Capture.raw_matrix c).

Definition raw_captures (files : list (frame_data_file Raw))
  : list (Capture.raw Raw) :=
  flat_map (fun f =>
              match file_captures f with
              | Some (Some (c :: cs)) =>
                  map (set_capture_path (dirname f)) (c :: cs)
              | _ => []
              end) files.

Fixpoint bucket_captures (l : list (Capture.raw Raw))
         (labels : list Label.t)
         (d : Dict.t (K:=Z) (V:=list (Capture.t Raw)))
  : result (Dict.t (K:=Z) (V:=list (Capture.t Raw))) :=
  match l with
  | [] => Ok d
  | r :: rest =>
      c <- Capture.from_dict P r labels ;;
      bucket_captures rest labels (bucket (Capture.sequence c) c d)
  end.

Definition read_captures (labels : list Label.t)
           (files : list (frame_data_file Raw)) :=
  bucket_captures (raw_captures files) labels [].

Definition set_metric_path (dir : string) (m : Metric.raw) : Metric.raw :=
  Metric.mk_raw (Metric.raw_type m) (Metric.raw_id m) (Some dir)
    (Metric.raw_sensorId m) (Metric.raw_annotationId m)
    (Metric.raw_description m) (Metric.raw_values m).

Definition raw_metrics (files : list (frame_data_file Raw))
  : list Metric.raw :=
  flat_map (fun f =>
              match file_metrics f with
              | Some (Some (m :: ms)) =>
                  map (set_metric_path (dirname f)) (m :: ms)
              | _ => []
              end) files.

Fixpoint bucket_metrics (l : list Metric.raw)
         (d : Dict.t (K:=Z) (V:=list Metric.t))
  : result (Dict.t (K:=Z) (V:=list Metric.t)) :=
  match l with
  | [] => Ok d
  | r :: rest =>
      m <- Metric.from_dict r ;;
      bucket_metrics rest (bucket (Metric.sequence m) m d)
  end.

Definition read_metrics (files : list (frame_data_file Raw)) :=
  bucket_metrics (raw_metrics files) [].

(** [UnityData.__init__] but for its call of [get_sorted_data_files]: from
    the parsed definitions and the sorted frame data files.  The whole of
    [__init__], with that call, is [Discovery.load]. *)
Definition init (annotation_definitions : list annotation_definition)
           (files : list (frame_data_file Raw)) : result (t Raw) :=
  let labels := read_labels annotation_definitions in
  captures <- read_captures labels files ;;
  metrics <- read_metrics files ;;
  Ok (mk labels captures metrics).
End Reading.

(** The [captures] property. *)
Definition captures {Raw : Type} (u : t Raw) : list (Capture.t Raw) :=
  List.concat (Dict.values (captures_by_sequence u)).

Definition metrics {Raw : Type} (u : t Raw) : list Metric.t :=
  List.concat (Dict.values (metrics_by_sequence u)).

Definition get_sequence_captures {Raw : Type} (u : t Raw) (sequence : Z) :=
  Dict.lookup Z.eqb sequence (captures_by_sequence u).

Definition get_sequence_metrics {Raw : Type} (u : t Raw) (sequence : Z) :=
  Dict.lookup Z.eqb sequence (metrics_by_sequence u).


Definition sequence_ids {Raw : Type} (u : t Raw) : list Z :=
  map fst (captures_by_sequence u).

End UnityData.

(* ================================================================== *)
(** * Effects of the conversion

    The conversion reads the file system only before its first write (the
    existence tests of [create_yolo_data_dir]); what it writes is recorded
    as a trace, the operations it performs when each of them succeeds.  An
    operation that fails ([mkdir] below a regular file, [copyfile] of a
    missing image or into a missing directory) raises [OSError] and ends
    the conversion there: [Environment.run] is the run in an environment
    where operations may fail. *)

Inductive event : Type :=
| MkdirParents (path : string)                     (* [Path.mkdir(parents=True)] *)
| Mkdir (path : string)                            (* [os.mkdir] *)
| WriteFile (path : string) (chunks : list string) (* [open(path, "w")] and the [f.write]s *)
| CopyFile (src dst : string).                     (* [shutil.copyfile] *)

Definition io (A : Type) : Type := (list event * result A)%type.

Definition io_ret {A : Type} (a : A) : io A := ([], Ok a).

Definition io_bind {A B : Type} (m : io A) (k : A -> io B) : io B :=
  match m with
  | (tr, Ok a) => let '(tr', r) := k a in (tr ++ tr', r)
  | (tr, Raise e) => (tr, Raise e)
  end.

Definition lift {A : Type} (r : result A) : io A := ([], r).
Definition emit (e : event) : io unit := ([e], Ok tt).
Definition when (b : bool) (m : io unit) : io unit :=
  if b then m else io_ret tt.

Declare Scope io_scope.
Delimit Scope io_scope with io.
Notation "x <- m ;; k" := (io_bind m (fun x => k))
  (at level 61, m at next level, right associativity) : io_scope.
Notation "m ;; k" := (io_bind m (fun _ => k))
  (at level 61, right associativity) : io_scope.

(** The paths that exist when the conversion starts. *)
Record filesystem : Type := mk_filesystem {
  files : list string;
  dirs : list string
}.

Definition path_isdir (fs : filesystem) (p : string) : bool :=
  existsb (String.eqb p) (dirs fs).

Definition path_exists (fs : filesystem) (p : string) : bool :=
  existsb (String.eqb p) (files fs) || path_isdir fs p.

(** What the conversion consumes without implementing it: the text of a
    float, two functions of [os.path], the split generator and the polygon
    detector behind [cv2.imread]. *)
Record collaborators : Type := mk_collaborators {
  repr_float : Q -> string;
  normpath : string -> string;
  abspath : string -> string;
  generate_random_split : nat -> Q -> Q -> list string;
  image : Type;
  imread : string -> image;
  (* the boundaries ([coords.xy]) of the normalized polygons *)
  detect_colored_polygons : image -> list Z -> Z -> list (list Q * list Q)
}.

Definition nl : string := String "010" EmptyString.

(** [sep.join(l)] *)
Definition str_join (sep : string) (l : list string) : string :=
  String.concat sep l.

(** [x is None] *)
Definition is_none {A : Type} (x : option A) : bool :=
  match x with
  | Some _ => false
  | None => true
  end.

(** [x.attr] where [x] may be [None] *)
Definition getattr {A : Type} (x : option A) : result A :=
  match x with
  | Some a => Ok a
  | None => Raise AttributeError
  end.

(* ================================================================== *)
(** * The output scaffold ([data_directory.py]) *)

Module DataDirectory.

(** [os.path.basename] *)
Definition basename (p : string) : string :=
  match Py.rfind "/" p with
  | Some i => substring (S i) (String.length p - S i) p
  | None => p
  end.

(** [i = 1; while os.path.exists(f"{path}_{i}"): i += 1], at most
    [fuel] tests. *)
Fixpoint first_free (fs : filesystem) (path : string) (i : Z) (fuel : nat)
  : option Z :=
  match fuel with
  | O => None
  | S fuel' =>
      if path_exists fs (fstr [path; "_"; Py.str i])
      then first_free fs path (i + 1) fuel'
      else Some i
  end.

Definition free_suffix (fs : filesystem) (path : string) : Z :=
  match first_free fs path 1
          (S (List.length (files fs) + List.length (dirs fs))) with
  | Some i => i
  | None => 0
  end.

Section WithCollaborators.
Context (X : collaborators).
Local Open Scope io_scope.

Definition create_yolo_data_dir (fs : filesystem) (path : string)
           (include_test : bool) : io (string * string) :=
  let path := normpath X path in
  let name := basename path in
  if path_exists fs path && negb (path_isdir fs path)
  then lift (Raise PathIsNotADirectory)
  else
    let path :=
      if path_exists fs path
      then fstr [path; "_"; Py.str (free_suffix fs path)]
      else path in
    emit (MkdirParents path) ;;
    emit (Mkdir (Py.join2 path "train")) ;;
    emit (Mkdir (Py.join2 path "val")) ;;
    when include_test (emit (Mkdir (Py.join2 path "test"))) ;;
    let yaml_path := (Py.join2 path name ++ ".yaml")%string in
    io_ret (path, yaml_path).
End WithCollaborators.

End DataDirectory.

(* ================================================================== *)
(** * The conversion pipeline ([convert_modular.py]) *)

Module Convert.

(** The keyword arguments of [unity_to_yolo]. *)
Record config : Type := mk_config {
  include_bboxes : bool;
  include_keypoints : bool;
  include_segmentation : bool;
  include_semantic_mask : bool;
  include_occlusion : bool;
  n_keypoints : option Z;
  flip_idx : option (list Z);
  include_test : bool;
  precision : Z
}.

(** [os.path.dirname] *)
Fixpoint rstrip_slash (s : string) : string :=
  match s with
  | EmptyString => EmptyString
  | String c rest =>
      match rstrip_slash rest with
      | EmptyString => if Ascii.eqb c "/" then EmptyString else String c EmptyString
      | r => String c r
      end
  end.

Definition dirname (p : string) : string :=
  let i := match Py.rfind "/" p with Some i => S i | None => O end in
  let head := substring 0 i p in
  match rstrip_slash head with
  | EmptyString => head          (* empty, or nothing but slashes *)
  | stripped => stripped
  end.

(** [str(l)] for a list of integers *)
Definition str_list (l : list Z) : string :=
  fstr ["["; str_join ", " (map Py.str l); "]"].

Section WithCollaborators.
Context (X : collaborators) {Raw : Type}.

Local Abbreviation Capture := (Capture.t Raw).
Local Abbreviation UnityData := (UnityData.t Raw).

(** The four values of a box line, lines 21-24 and 46-49, in exact
    arithmetic; [Binary64.normalized_box] has the values of the float
    operations. *)
Definition normalized_box (bounding_box : BoundingBox2D.t)
           (img_width img_height : Q) (precision : Z)
  : result (Q * Q * Q * Q) :=
  ox <- index (BoundingBox2D.origin bounding_box) 0 ;;
  dw <- index (BoundingBox2D.dimension bounding_box) 0 ;;
  cx <- Py.truediv (ox + dw / 2)%Q img_width ;;
  let center_x := Py.round cx precision in
  oy <- index (BoundingBox2D.origin bounding_box) 1 ;;
  dh <- index (BoundingBox2D.dimension bounding_box) 1 ;;
  cy <- Py.truediv (oy + dh / 2)%Q img_height ;;
  let center_y := Py.round cy precision in
  dw' <- index (BoundingBox2D.dimension bounding_box) 0 ;;
  w <- Py.truediv dw' img_width ;;
  let width := Py.round w precision in
  dh' <- index (BoundingBox2D.dimension bounding_box) 1 ;;
  h <- Py.truediv dh' img_height ;;
  let height := Py.round h precision in
  Ok (center_x, center_y, width, height).

(** [f"{label.id} {center_x} {center_y} {width} {height}"] *)
Definition box_text (bounding_box : BoundingBox2D.t)
           (box : Q * Q * Q * Q) : string :=
  let '(center_x, center_y, width, height) := box in
  fstr [Py.str (Label.id (BoundingBox2D.label bounding_box)); " ";
        repr_float X center_x; " "; repr_float X center_y; " ";
        repr_float X width; " "; repr_float X height].

Definition get_bbox_annotations (capture : Capture) (precision : Z)
  : result (list string) :=
  img_width <- index (Capture.dimension capture) 0 ;;
  img_height <- index (Capture.dimension capture) 1 ;;
  boxes <- getattr (Capture.bounding_boxes_2d capture) ;;
  for_each
    (fun bounding_box =>
       box <- normalized_box bounding_box img_width img_height precision ;;
       Ok [box_text bounding_box box])
    (BoundingBox2DAnnotation.values boxes).

(** One keypoint, lines 54-57. *)
Definition keypoint_text (keypoint : Keypoint.t)
           (img_width img_height : Q) (precision : Z) : result string :=
  lx <- index (Keypoint.location keypoint) 0 ;;
  kx <- Py.truediv lx img_width ;;
  let keypoint_x := Py.round kx precision in
  ly <- index (Keypoint.location keypoint) 1 ;;
  ky <- Py.truediv ly img_height ;;
  let keypoint_y := Py.round ky precision in
  let keypoint_visible := if Keypoint.state keypoint =? 2 then 1 else 0 in
  Ok (fstr [repr_float X keypoint_x; " "; repr_float X keypoint_y; " ";
            Py.str keypoint_visible]).

Definition get_keypoint_annotations (capture : Capture) (precision : Z)
  : result (list string) :=
  img_width <- index (Capture.dimension capture) 0 ;;
  img_height <- index (Capture.dimension capture) 1 ;;
  boxes <- getattr (Capture.bounding_boxes_2d capture) ;;
  for_each
    (fun bounding_box =>
       kps <- getattr (Capture.keypoints capture) ;;
       match find (fun kp => KeypointValue.instance_id kp
                             =? BoundingBox2D.instance_id bounding_box)
                  (KeypointAnnotation.values kps) with
       | None => Ok []
       | Some keypoint_annotation =>
           box <- normalized_box bounding_box img_width img_height
                                 precision ;;
           keypoints <-
             for_each (fun keypoint =>
                         t <- keypoint_text keypoint img_width img_height
                                            precision ;;
                         Ok [t])
                      (KeypointValue.keypoints keypoint_annotation) ;;
           Ok [fstr [box_text bounding_box box; " ";
                     str_join " " keypoints]]
       end)
    (BoundingBox2DAnnotation.values boxes).

(** [for n, x in enumerate(boundary_x): y = boundary_y[n]; ...] *)
Fixpoint coord_pairs (n : nat) (boundary_x boundary_y : list Q)
  : result (list string) :=
  match boundary_x with
  | [] => Ok []
  | x :: rest =>
      y <- index boundary_y n ;;
      more <- coord_pairs (S n) rest boundary_y ;;
      Ok (fstr [repr_float X x; " "; repr_float X y] :: more)
  end.

(** [for polygon in norm_polygons: annotation += ...] *)
Fixpoint add_polygons (annotation : string)
         (norm_polygons : list (list Q * list Q)) : result string :=
  match norm_polygons with
  | [] => Ok annotation
  | (boundary_x, boundary_y) :: rest =>
      pairs <- coord_pairs 0 boundary_x boundary_y ;;
      add_polygons (annotation ++ fstr [" "; str_join " " pairs])%string
                   rest
  end.

Definition get_segmentation_annotations (capture : Capture)
           (precision : Z) : result (list string) :=
  match Capture.instance_segmentation capture with
  | None => Ok []
  | Some seg =>
      let img := imread X (InstanceSegmentationAnnotation.file_path seg) in
      for_each
        (fun instance =>
           let norm_polygons :=
             detect_colored_polygons X img (Instance.color instance)
                                     precision in
           annotation <-
             add_polygons (Py.str (Label.id (Instance.label instance)))
                          norm_polygons ;;
           Ok [annotation])
        (InstanceSegmentationAnnotation.instances seg)
  end.

Definition yaml_header (yaml_path : string) (unity_data : UnityData)
           (include_keypoints : bool) (n_keypoints : option Z)
           (flip_idx : option (list Z)) (include_test : bool)
  : list string :=
  [fstr ["path: "; abspath X (dirname yaml_path); nl];
   fstr ["train: train"; nl];
   fstr ["val: val"; nl]]
  ++ (if include_test then [fstr ["test: test"; nl]] else [])
  ++ [nl]
  ++ (match include_keypoints, n_keypoints with
      | true, Some n =>
          fstr ["kpt_shape: ["; Py.str n; ",3]"; nl]
          :: match flip_idx with
             | Some l => [fstr ["flip_idx: "; str_list l; nl]]
             | None => []
             end
      | _, _ => []
      end)
  ++ [fstr ["names:"; nl]]
  ++ map (fun label =>
            fstr ["    "; Py.str (Label.id label); ": ";
                  Label.name label; nl])
         (UnityData.labels unity_data).

Definition write_yaml_header (yaml_path : string) (unity_data : UnityData)
           (include_keypoints : bool) (n_keypoints : option Z)
           (flip_idx : option (list Z)) (include_test : bool) : io unit :=
  emit (WriteFile yaml_path
          (yaml_header yaml_path unity_data include_keypoints n_keypoints
                       flip_idx include_test)).

(** The validity test of lines 162-170. *)
Definition is_valid (cfg : config) (capture : Capture) : bool :=
  let is_valid := true in
  let is_valid :=
    if include_bboxes cfg || include_keypoints cfg
    then is_valid && match Capture.bounding_boxes_2d capture with
                     | Some _ => true | None => false end
    else is_valid in
  let is_valid :=
    if include_keypoints cfg
    then is_valid && match Capture.keypoints capture with
                     | Some _ => true | None => false end
    else is_valid in
  let is_valid :=
    if include_segmentation cfg
    then is_valid && match Capture.instance_segmentation capture with
                     | Some _ => true | None => false end
    else is_valid in
  let is_valid :=
    if include_semantic_mask cfg
    then is_valid && match Capture.semantic_segmentation capture with
                     | Some _ => true | None => false end
    else is_valid in
  is_valid.

Definition valid_captures (cfg : config) (unity_data : UnityData)
  : list Capture :=
  filter (is_valid cfg) (UnityData.captures unity_data).

(** [with open(p, "w") as f: for a in annotations: f.write(f"{a}\n")] *)
Definition write_annotations (p : string) (annotations : list string)
  : io unit :=
  emit (WriteFile p (map (fun a => fstr [a; nl]) annotations)).

Definition is_empty {A : Type} (l : list A) : bool :=
  match l with [] => true | _ => false end.

(** Lines 227-228: the metrics of the capture's sequence, and the
    [occlusion_metric] field of the first one whose id is "Occlusion". *)
Definition find_occlusion_metric (unity_data : UnityData)
           (capture : Capture) : result (option OcclusionMetric.t) :=
  metrics <- Dict.lookup Z.eqb (Capture.sequence capture)
                         (UnityData.metrics_by_sequence unity_data) ;;
  found <- getattr (find (fun metric =>
                            String.eqb (Metric.id metric) "Occlusion")
                         metrics) ;;
  Ok (Metric.occlusion_metric found).

(** [f"{occlusion.instance_id} {occlusion.percent_visible}\n"] *)
Definition occlusion_text (occlusion : OcclusionValue.t) : string :=
  fstr [Py.str (OcclusionValue.instance_id occlusion); " ";
        repr_float X (OcclusionValue.percent_visible occlusion); nl].

Local Open Scope io_scope.

(** The body of the loop over [enumerate(split)], lines 191-241. *)
Definition emit_capture (cfg : config) (unity_data : UnityData)
           (path : string) (valid : list Capture) (i : nat) (s : string)
  : io unit :=
  let stem := Py.str (Z.of_nat i) in
  capture <- lift (index valid i) ;;
  let img_ext := Py.last_component (Capture.file_path capture) in
  emit (CopyFile (Capture.file_path capture)
                 (Py.path_join path [s; fstr [stem; "."; img_ext]])) ;;
  annotations_bbox <-
    lift (if include_bboxes cfg && negb (include_keypoints cfg)
          then get_bbox_annotations capture (precision cfg)
          else Ok []) ;;
  annotations_keypoints <-
    lift (if include_keypoints cfg
          then get_keypoint_annotations capture (precision cfg)
          else Ok []) ;;
  annotations_segmentation <-
    lift (if include_segmentation cfg
          then get_segmentation_annotations capture (precision cfg)
          else Ok []) ;;
  when (negb (is_empty annotations_bbox))
       (write_annotations
          (Py.path_join path [s; fstr [stem; "_bbox.txt"]])
          annotations_bbox) ;;
  when (negb (is_empty annotations_keypoints))
       (write_annotations
          (Py.path_join path [s; fstr [stem; "_keypoints.txt"]])
          annotations_keypoints) ;;
  when (negb (is_empty annotations_segmentation))
       (write_annotations
          (Py.path_join path [s; fstr [stem; "_segmentation.txt"]])
          annotations_segmentation) ;;
  occlusion_metric <- lift (find_occlusion_metric unity_data capture) ;;
  match include_occlusion cfg, occlusion_metric with
  | true, Some om =>
      match OcclusionMetric.values om with
      | Some values =>
          emit (WriteFile
                  (Py.path_join path [s; fstr [stem; "_occlusion.txt"]])
                  (map occlusion_text values))
      | None => io_ret tt
      end
  | _, _ => io_ret tt
  end ;;
  match include_semantic_mask cfg, Capture.semantic_segmentation capture with
  | true, Some sem =>
      let mask_ext :=
        snd (Py.splitext (SemanticSegmentationAnnotation.file_path sem)) in
      emit (CopyFile (SemanticSegmentationAnnotation.file_path sem)
              (Py.path_join path [s; fstr [stem; "_mask."; mask_ext]]))
  | _, _ => io_ret tt
  end.

(** [for i, s in enumerate(split)], from index [i] on. *)
Fixpoint emit_all (cfg : config) (unity_data : UnityData) (path : string)
         (valid : list Capture) (i : nat) (split : list string)
  : io unit :=
  match split with
  | [] => io_ret tt
  | s :: rest =>
      emit_capture cfg unity_data path valid i s ;;
      emit_all cfg unity_data path valid (S i) rest
  end.

Definition unity_to_yolo (fs : filesystem) (unity_data : UnityData)
           (output_path : string) (cfg : config) : io string :=
  if include_keypoints cfg && is_none (n_keypoints cfg)
  then lift (Raise ValueError)
  else
    created <- DataDirectory.create_yolo_data_dir X fs output_path
                 (include_test cfg) ;;
    let '(path, yaml_path) := created in
    write_yaml_header yaml_path unity_data (include_keypoints cfg)
                      (n_keypoints cfg) (flip_idx cfg)
                      (include_test cfg) ;;
    let valid := valid_captures cfg unity_data in
    let split :=
      generate_random_split X (List.length valid) (1 # 10)
        (if include_test cfg then 1 # 10 else 0)%Q in
    emit_all cfg unity_data path valid O split ;;
    io_ret yaml_path.
End WithCollaborators.

End Convert.

(* ================================================================== *)
(** * What the specification says, in its own words

    The definitions below follow the wording of the specification; the
    theorems compare them with the functions above. *)

Module LabelSpec.
Import UnityData.

(** The pairs an entry of a [spec] list contributes: the entry itself when
    it carries both keys. *)
Definition entry_pairs (e : spec_entry) : list (Z * string) :=
  match label_id e, label_name e with
  | Some i, Some n => [(i, n)]
  | _, _ => []
  end.

(** The [{label_id, label_name}] pairs of the surviving blocks, in reading
    order. *)
Definition named_entries (defs : list annotation_definition)
  : list (Z * string) :=
  flat_map (fun d =>
              match spec d with
              | SpecList entries => flat_map entry_pairs entries
              | _ => []
              end) defs.

(** Keep the first pair of every name, drop the repeats. *)
Fixpoint first_seen (l : list (Z * string)) : list (Z * string) :=
  match l with
  | [] => []
  | p :: rest =>
      p :: filter (fun q => negb (String.eqb (snd q) (snd p))) (first_seen rest)
  end.

(** Number the pairs from [k] on. *)
Fixpoint number (k : Z) (l : list (Z * string)) : list Label.t :=
  match l with
  | [] => []
  | (i, n) :: rest => Label.mk k i n :: number (k + 1) rest
  end.

Definition registry (defs : list annotation_definition) : list Label.t :=
  number 0 (first_seen (named_entries defs)).

(** The state of [read_labels], labels and counter, once the pairs [ps]
    have been read. *)
Definition state_after (ps : list (Z * string)) : list Label.t * Z :=
  (number 0 (first_seen ps), Z.of_nat (List.length (first_seen ps))).

(** A block that lacks a non-empty [spec] list. *)
Definition no_spec (d : annotation_definition) : Prop :=
  match spec d with
  | SpecList (_ :: _) => False
  | _ => True
  end.

End LabelSpec.

Module PySpec.

(** Every character of [s] satisfies [f]. *)
Fixpoint all_chars (f : ascii -> bool) (s : string) : bool :=
  match s with
  | EmptyString => true
  | String c rest => f c && all_chars f rest
  end.

(** Some character of [s] satisfies [f]. *)
Fixpoint some_char (f : ascii -> bool) (s : string) : bool :=
  match s with
  | EmptyString => false
  | String c rest => f c || some_char f rest
  end.

(** A suffix is numeric when [int] accepts it. *)
Definition numeric (s : string) : Prop := exists n, Py.int s = Ok n.

(** Characters that occur in no integer literal: anything but a digit, a
    sign, an underscore or white space. *)
Definition foreign (c : ascii) : bool :=
  negb (Py.is_digit c || Py.is_space c || Ascii.eqb c "_"
        || Ascii.eqb c "+" || Ascii.eqb c "-").

End PySpec.

Module SequenceSpec.







End SequenceSpec.

(* ================================================================== *)
(** * Sample data

    Concrete collaborators and records on which the statements below are
    evaluated. *)

Module Sample.

(** Annotation classes over raw blocks without content: every block parses
    to an empty annotation. *)
Definition parsers : Capture.parsers unit :=
  Capture.mk_parsers
    "type.unity.com/unity.solo.InstanceSegmentationAnnotation"
    (fun _ _ path => Ok (InstanceSegmentationAnnotation.mk path []))
    "type.unity.com/unity.solo.SemanticSegmentationAnnotation"
    (fun _ _ path => Ok (SemanticSegmentationAnnotation.mk path))
    "type.unity.com/unity.solo.BoundingBox2DAnnotation"
    (fun _ _ => Ok (BoundingBox2DAnnotation.mk []))
    "type.unity.com/unity.solo.BoundingBox3DAnnotation"
    (fun b _ => Ok (Passthrough.mk b))
    "type.unity.com/unity.solo.DepthAnnotation"
    (fun b _ => Ok (Passthrough.mk b))
    "type.unity.com/unity.solo.KeypointAnnotation"
    (fun _ _ => Ok (KeypointAnnotation.mk []))
    "type.unity.com/unity.solo.TransformAnnotation"
    (fun b => Ok (Passthrough.mk b)).

(** A float is printed as the fraction it is; every capture goes to
    [train]; no polygon is ever detected. *)
Definition collaborators : collaborators :=
  mk_collaborators
    (fun q => fstr [Py.str (Qnum q); "/"; Py.str (Zpos (Qden q))])
    (fun p => p)
    (fun p => p)
    (fun n _ _ => repeat "train" n)
    string
    (fun p => p)
    (fun _ _ _ => []).

Definition raw_capture : Capture.raw unit :=
  Capture.mk_raw (Some "solo/sequence.12")
    (Some [Capture.mk_annotation
             (Some "type.unity.com/unity.solo.BoundingBox2DAnnotation") tt])
    (Some "camera") (Some "") (Some [0; 0; 0]%Q) (Some [0; 0; 0; 1]%Q)
    (Some [0; 0; 0]%Q) (Some [0; 0; 0]%Q) (Some "step0.camera.png")
    (Some "Png") (Some [1920; 1080]%Q) (Some "Perspective")
    (Some [1; 0; 0; 0; 1; 0; 0; 0; 1]%Q).

Definition raw_metric : Metric.raw :=
  Metric.mk_raw (Some Metric.TYPE_OCCLUSION) (Some "Occlusion")
    (Some "solo/sequence.12") (Some "camera") (Some "instance segmentation")
    (Some "occlusion of the instances")
    (Some [Metric.mk_raw_value None None None
             (Some 1) (Some (3 # 4)%Q) (Some 1%Q) (Some (3 # 4)%Q)]).

Definition label : Label.t := Label.mk 0 7 "crate".

(** A 50 x 20 box at (100, 50), instance 1, and one at (400, 300),
    instance 2. *)
Definition box1 : BoundingBox2D.t :=
  BoundingBox2D.mk 1 label [100; 50]%Q [50; 20]%Q.

Definition box2 : BoundingBox2D.t :=
  BoundingBox2D.mk 2 label [400; 300]%Q [64; 48]%Q.

(** Keypoints for instance 2 only: one visible, one not. *)
Definition keypoints2 : KeypointValue.t :=
  KeypointValue.mk 2 [Keypoint.mk [410; 310]%Q 2; Keypoint.mk [430; 320]%Q 1].

Definition mask_path : string :=
  "solo/sequence.12/step0.camera.semantic segmentation.png".

(** A 1920 x 1080 capture of sequence 12 with both boxes, the keypoints of
    instance 2 and a semantic mask. *)
Definition capture : Capture.t unit :=
  Capture.mk "camera" 12 "" [0; 0; 0]%Q [0; 0; 0; 1]%Q [0; 0; 0]%Q [0; 0; 0]%Q
    "solo/sequence.12/step0.camera.png" "Png" [1920; 1080]%Q "Perspective"
    [1; 0; 0; 0; 1; 0; 0; 0; 1]%Q
    None
    (Some (SemanticSegmentationAnnotation.mk mask_path))
    (Some (BoundingBox2DAnnotation.mk [box1; box2]))
    None None
    (Some (KeypointAnnotation.mk [keypoints2]))
    None.

(** The metric with id "Occlusion" of sequence 12, with the given values. *)
Definition occlusion (values : option (list OcclusionValue.t)) : Metric.t :=
  Metric.mk "Occlusion" 12 "camera" "occlusion of the instances" None
    (Some (OcclusionMetric.mk "Occlusion" 12 "camera" "instance segmentation"
             "occlusion of the instances" values)).

Definition occlusion_values : list OcclusionValue.t :=
  [OcclusionValue.mk 1 (3 # 4) 1 (3 # 4); OcclusionValue.mk 2 1 1 1]%Q.

(** The dataset of that single capture, with the given metrics for
    sequence 12. *)
Definition dataset (metrics : Dict.t (K:=Z) (V:=list Metric.t))
  : UnityData.t unit :=
  UnityData.mk [label] [(12, [capture])] metrics.

Definition unity_data : UnityData.t unit :=
  dataset [(12, [occlusion (Some occlusion_values)])].

(** An empty file system. *)
Definition fs : filesystem := mk_filesystem [] [].

(** Boxes, occlusion and semantic masks; no keypoints. *)
Definition config : Convert.config :=
  Convert.mk_config true false false true true None None false 6.

(** Keypoints requested, their number not given. *)
Definition keypoint_config : Convert.config :=
  Convert.mk_config true true false false false None None false 6.

(** Boxes only: no occlusion output requested. *)
Definition bbox_config : Convert.config :=
  Convert.mk_config true false false false false None None false 6.

(** The frame data file of sequence 12, with the sample capture and the
    sample metric; a file of sequence 13 that lists nothing. *)
Definition file : UnityData.frame_data_file unit :=
  UnityData.mk_file "solo/sequence.12" (Some (Some [raw_capture]))
                    (Some (Some [raw_metric])).


End Sample.

Module ConvertSpec.
Import Convert.

(** Every requested annotation kind is present on the capture. *)
Definition eligible {Raw : Type} (cfg : config) (c : Capture.t Raw) : Prop :=
  (include_bboxes cfg = true \/ include_keypoints cfg = true ->
   Capture.bounding_boxes_2d c <> None)
  /\ (include_keypoints cfg = true -> Capture.keypoints c <> None)
  /\ (include_segmentation cfg = true ->
      Capture.instance_segmentation c <> None)
  /\ (include_semantic_mask cfg = true ->
      Capture.semantic_segmentation c <> None).

(** The output scaffold: the directories and the manifest. *)
Definition scaffold {Raw : Type} (X : collaborators) (fs : filesystem)
           (unity_data : UnityData.t Raw) (output_path : string)
           (cfg : config) : io (string * string) :=
  (created <- DataDirectory.create_yolo_data_dir X fs output_path
                (include_test cfg) ;;
   write_yaml_header X (snd created) unity_data (include_keypoints cfg)
                     (n_keypoints cfg) (flip_idx cfg) (include_test cfg) ;;
   io_ret created)%io.

End ConvertSpec.

Module BoxSpec.

(** The entry [k] of a coordinate list. *)
Definition coordinate (l : list Q) (k : nat) : Q := nth k l 0%Q.

(** Mapping the emitted centre back to the pixel origin of the box misses
    it by at most [tol_x] horizontally and [tol_y] vertically. *)
Definition round_trip_within (tol_x tol_y : Q) (w h : Q)
           (bounding_box : BoundingBox2D.t) (box : Q * Q * Q * Q) : Prop :=
  let '(cx, cy, _, _) := box in
  let x := coordinate (BoundingBox2D.origin bounding_box) 0 in
  let y := coordinate (BoundingBox2D.origin bounding_box) 1 in
  let bw := coordinate (BoundingBox2D.dimension bounding_box) 0 in
  let bh := coordinate (BoundingBox2D.dimension bounding_box) 1 in
  (Qabs (cx * w - bw / 2 - x) <= tol_x
   /\ Qabs (cy * h - bh / 2 - y) <= tol_y)%Q.

End BoxSpec.

Module KeypointSpec.
Import BoxSpec.

Section WithCollaborators.
Context (X : collaborators).

(** [label_id cx cy w h], each value normalized by the image dimension and
    rounded. *)
Definition box_fields (w h : Q) (p : Z) (bb : BoundingBox2D.t) : string :=
  let x := coordinate (BoundingBox2D.origin bb) 0 in
  let y := coordinate (BoundingBox2D.origin bb) 1 in
  let bw := coordinate (BoundingBox2D.dimension bb) 0 in
  let bh := coordinate (BoundingBox2D.dimension bb) 1 in
  str_join " "
    [Py.str (Label.id (BoundingBox2D.label bb));
     repr_float X (Py.round ((x + bw / 2) / w) p);
     repr_float X (Py.round ((y + bh / 2) / h) p);
     repr_float X (Py.round (bw / w) p);
     repr_float X (Py.round (bh / h) p)]%Q.

(** 1 exactly when the visibility state is 2. *)
Definition vis (k : Keypoint.t) : Z :=
  if Z.eq_dec (Keypoint.state k) 2 then 1 else 0.

(** [kx ky vis] *)
Definition triple (w h : Q) (p : Z) (k : Keypoint.t) : string :=
  str_join " "
    [repr_float X (Py.round (coordinate (Keypoint.location k) 0 / w) p);
     repr_float X (Py.round (coordinate (Keypoint.location k) 1 / h) p);
     Py.str (vis k)]%Q.

(** The box fields, then one triple per keypoint, separated by spaces. *)
Definition line (w h : Q) (p : Z) (bb : BoundingBox2D.t)
           (kp : KeypointValue.t) : string :=
  (box_fields w h p bb ++ " "
   ++ str_join " " (map (triple w h p) (KeypointValue.keypoints kp)))%string.

(** The first keypoint entry of the instance of the box, if any. *)
Definition keypoints_of (kps : list KeypointValue.t) (bb : BoundingBox2D.t)
  : option KeypointValue.t :=
  find (fun kp => Z.eqb (KeypointValue.instance_id kp)
                        (BoundingBox2D.instance_id bb)) kps.

(** One line per box that has keypoints, in the order of the boxes. *)
Definition lines (w h : Q) (p : Z) (boxes : list BoundingBox2D.t)
           (kps : list KeypointValue.t) : list string :=
  flat_map (fun bb =>
              match keypoints_of kps bb with
              | Some kp => [line w h p bb kp]
              | None => []
              end) boxes.

End WithCollaborators.

(** A box with keypoints has pixel coordinates, and so have its
    keypoints. *)
Definition well_formed (kps : list KeypointValue.t) (bb : BoundingBox2D.t)
  : Prop :=
  forall kp, keypoints_of kps bb = Some kp ->
    (2 <= List.length (BoundingBox2D.origin bb))%nat
    /\ (2 <= List.length (BoundingBox2D.dimension bb))%nat
    /\ Forall (fun k => (2 <= List.length (Keypoint.location k))%nat)
              (KeypointValue.keypoints kp).

End KeypointSpec.

Module EmissionSpec.
Import Convert.

Section WithCollaborators.
Context (X : collaborators) {Raw : Type}.

(** The sequence of the capture has no metric whose id is "Occlusion": it
    has no metrics at all, or none of them carries that id. *)
Definition no_occlusion_metric (u : UnityData.t Raw) (c : Capture.t Raw)
  : Prop :=
  forall metrics,
    Dict.get Z.eqb (Capture.sequence c) (UnityData.metrics_by_sequence u)
    = Some metrics ->
    forall m, In m metrics -> Metric.id m <> "Occlusion".

(** The failures of a lookup: a missing key, an attribute of [None]. *)
Definition lookup_failure (e : exn) : Prop :=
  e = KeyError \/ e = AttributeError.

(** The requested annotation lines of the capture can be computed. *)
Definition annotations_ok (cfg : config) (c : Capture.t Raw) : Prop :=
  (include_bboxes cfg = true -> include_keypoints cfg = false ->
   exists l, get_bbox_annotations X c (precision cfg) = Ok l)
  /\ (include_keypoints cfg = true ->
      exists l, get_keypoint_annotations X c (precision cfg) = Ok l)
  /\ (include_segmentation cfg = true ->
      exists l, get_segmentation_annotations X c (precision cfg) = Ok l).

(** The split tags of a conversion, one per position. *)
Definition split_tags (cfg : config) (u : UnityData.t Raw) : list string :=
  generate_random_split X (List.length (valid_captures cfg u)) (1 # 10)
    (if include_test cfg then 1 # 10 else 0)%Q.

(** [{split}/{i}<suffix>] under the output directory. *)
Definition output_file (path s : string) (i : nat) (suffix : string)
  : string :=
  Py.path_join path [s; (Py.str (Z.of_nat i) ++ suffix)%string].

(** [instance_id percent_visible], and the end of the line. *)
Definition occlusion_line (v : OcclusionValue.t) : string :=
  (Py.str (OcclusionValue.instance_id v) ++ " "
   ++ repr_float X (OcclusionValue.percent_visible v) ++ nl)%string.

(** The three annotation steps of an iteration, as one computation. *)
Definition annotation_steps (cfg : config) (c : Capture.t Raw)
  : result (list string * list string * list string) :=
  (b <- (if include_bboxes cfg && negb (include_keypoints cfg)
         then get_bbox_annotations X c (precision cfg) else Ok []) ;;
   k <- (if include_keypoints cfg
         then get_keypoint_annotations X c (precision cfg) else Ok []) ;;
   s <- (if include_segmentation cfg
         then get_segmentation_annotations X c (precision cfg) else Ok []) ;;
   Ok (b, k, s))%py.

(** The events after the annotation steps: the annotation files, then the
    occlusion file, then the mask. *)
Definition annotation_files (path s : string) (i : nat)
           (r : list string * list string * list string) : list event :=
  let '(b, k, g) := r in
  (if is_empty b then []
   else [WriteFile (output_file path s i "_bbox.txt")
                   (map (fun a => fstr [a; nl]) b)])
  ++ (if is_empty k then []
      else [WriteFile (output_file path s i "_keypoints.txt")
                      (map (fun a => fstr [a; nl]) k)])
  ++ (if is_empty g then []
      else [WriteFile (output_file path s i "_segmentation.txt")
                      (map (fun a => fstr [a; nl]) g)]).

Definition occlusion_files (cfg : config) (path s : string) (i : nat)
           (o : option OcclusionMetric.t) : list event :=
  match include_occlusion cfg, o with
  | true, Some om =>
      match OcclusionMetric.values om with
      | Some values =>
          [WriteFile (output_file path s i "_occlusion.txt")
                     (map occlusion_line values)]
      | None => []
      end
  | _, _ => []
  end.

Definition mask_files (cfg : config) (path s : string) (i : nat)
           (c : Capture.t Raw) : list event :=
  match include_semantic_mask cfg, Capture.semantic_segmentation c with
  | true, Some sem =>
      [CopyFile (SemanticSegmentationAnnotation.file_path sem)
         (output_file path s i
            ("_mask."
             ++ snd (Py.splitext
                       (SemanticSegmentationAnnotation.file_path sem)))%string)]
  | _, _ => []
  end.

Definition image_file (path s : string) (i : nat) (c : Capture.t Raw)
  : event :=
  CopyFile (Capture.file_path c)
           (output_file path s i
              ("." ++ Py.last_component (Capture.file_path c))%string).

End WithCollaborators.

End EmissionSpec.

Module AggregateSpec.

(** The distinct keys of a list, in the order of their first occurrence. *)
Fixpoint distinct (l : list Z) : list Z :=
  match l with
  | [] => []
  | k :: rest => k :: filter (fun k' => negb (Z.eqb k' k)) (distinct rest)
  end.

(** The records of key [k], in their order in [l]. *)
Definition of_key {V : Type} (key : V -> Z) (k : Z) (l : list V) : list V :=
  filter (fun x => Z.eqb (key x) k) l.

(** Grouping by key: one bucket per distinct key, in first-seen order, each
    bucket in the order of the list. *)
Definition group {V : Type} (key : V -> Z) (l : list V)
  : Dict.t (K:=Z) (V:=list V) :=
  map (fun k => (k, of_key key k l)) (distinct (map key l)).

(** Parsing the raw records one after the other. *)
Definition parsed {R V : Type} (parse : R -> result V) (raws : list R)
           (records : list V) : Prop :=
  Forall2 (fun r v => parse r = Ok v) raws records.



End AggregateSpec.

Module RecordSpec.

(** The annotations of the list that carry the type tag [ty]. *)
Definition tagged {Raw : Type} (ty : string)
           (a : Capture.raw_annotation Raw) : bool :=
  match Capture.at_type a with
  | Some t => String.eqb t ty
  | None => false
  end.

(** The block of the last annotation tagged [ty], if there is one. *)
Definition last_tagged {Raw : Type} (ty : string)
           (l : list (Capture.raw_annotation Raw)) : option Raw :=
  option_map Capture.block (find (tagged ty) (rev l)).

(** An occlusion value as its raw entry gives it. *)
Definition occlusion_copied (r : Metric.raw_value) (v : OcclusionValue.t)
  : Prop :=
  Metric.raw_instanceId r = Some (OcclusionValue.instance_id v)
  /\ Metric.raw_percentVisible r = Some (OcclusionValue.percent_visible v)
  /\ Metric.raw_percentInFrame r = Some (OcclusionValue.percent_in_frame v)
  /\ Metric.raw_visibilityInFrame r
     = Some (OcclusionValue.visibility_in_frame v).

Definition count_copied (r : Metric.raw_value) (v : ObjectCountValue.t)
  : Prop :=
  Metric.raw_labelId r = Some (ObjectCountValue.label_id v)
  /\ Metric.raw_labelName r = Some (ObjectCountValue.label_name v)
  /\ Metric.raw_count r = Some (ObjectCountValue.count v).

End RecordSpec.

(** ** Lines of the box and of the segmentation files *)

Module LineSpec.
Import Convert BoxSpec.

(** A box with both coordinates of its origin and of its dimension. *)
Definition planar (bb : BoundingBox2D.t) : Prop :=
  (2 <= List.length (BoundingBox2D.origin bb))%nat
  /\ (2 <= List.length (BoundingBox2D.dimension bb))%nat.

(** The box lies inside an image of [w] by [h] pixels. *)
Definition inside (w h : Q) (bb : BoundingBox2D.t) : Prop :=
  let x := coordinate (BoundingBox2D.origin bb) 0 in
  let y := coordinate (BoundingBox2D.origin bb) 1 in
  let bw := coordinate (BoundingBox2D.dimension bb) 0 in
  let bh := coordinate (BoundingBox2D.dimension bb) 1 in
  (0 <= x /\ 0 <= bw /\ x + bw <= w /\ 0 <= y /\ 0 <= bh /\ y + bh <= h)%Q.

Definition unit_interval (q : Q) : Prop := (0 <= q /\ q <= 1)%Q.

(** The boundary of a polygon has a y for every x. *)
Definition aligned (polygon : list Q * list Q) : Prop :=
  (List.length (fst polygon) <= List.length (snd polygon))%nat.

Section WithCollaborators.
Context (X : collaborators).

(** [x y] *)
Definition vertex (xy : Q * Q) : string :=
  (repr_float X (fst xy) ++ " " ++ repr_float X (snd xy))%string.

(** A space, then the vertices of the boundary separated by spaces. *)
Definition polygon_text (polygon : list Q * list Q) : string :=
  (" " ++ str_join " " (map vertex (combine (fst polygon) (snd polygon))))
    %string.

(** The label id, then the text of each polygon of the instance. *)
Definition segmentation_line (instance : Instance.t)
           (polygons : list (list Q * list Q)) : string :=
  fstr (Py.str (Label.id (Instance.label instance))
        :: map polygon_text polygons).

End WithCollaborators.

End LineSpec.

(** ** The export as a whole *)

Module ExportSpec.
Import Convert.

(** The configuration with another [include_bboxes]. *)
Definition with_bboxes (b : bool) (cfg : config) : config :=
  mk_config b (include_keypoints cfg) (include_segmentation cfg)
            (include_semantic_mask cfg) (include_occlusion cfg)
            (n_keypoints cfg) (flip_idx cfg) (include_test cfg)
            (precision cfg).

(** The requested directory with the numbered suffix [_i]. *)
Definition numbered (path : string) (i : Z) : string :=
  fstr [path; "_"; Py.str i].


(** A file system in which [out] and [out_1] are taken. *)
Definition taken : filesystem := mk_filesystem [] ["out"; "out_1"].

(** Collaborators whose split generator returns one tag too many. *)
Definition overrunning : collaborators :=
  mk_collaborators
    (repr_float Sample.collaborators) (normpath Sample.collaborators)
    (abspath Sample.collaborators)
    (fun n _ _ => repeat "train" (S n))
    (image Sample.collaborators) (imread Sample.collaborators)
    (detect_colored_polygons Sample.collaborators).

End ExportSpec.

(* ================================================================== *)
(** * Discovering the frame data files ([data.py])

    [glob.glob] is not modelled: [get_sorted_data_files] takes the files it
    found, in the order it found them. *)

Module Discovery.
Import UnityData.

Section WithRaw.
Context {Raw : Type}.

(** The sort key of a file: the number after the last dot of the name of
    its directory,
    [int(os.path.basename(os.path.dirname(x)).split('.')[-1])]. *)
Definition sort_key (x : frame_data_file Raw) : result Z :=
  Py.int (Py.last_component (DataDirectory.basename (dirname x))).

(** [list.sort(key=...)]: the keys are computed first, one per element in
    the order of the list, and the sort is stable and ascending.  A stable
    sort has one result, here that of inserting the elements from the last
    to the first, each before the elements that do not have a smaller
    key. *)
Fixpoint insert (k : Z) (x : frame_data_file Raw)
         (sorted : list (Z * frame_data_file Raw))
  : list (Z * frame_data_file Raw) :=
  match sorted with
  | [] => [(k, x)]
  | (k', y) :: rest =>
      if k <=? k' then (k, x) :: sorted else (k', y) :: insert k x rest
  end.

Definition sort_by_key (keyed : list (Z * frame_data_file Raw))
  : list (Z * frame_data_file Raw) :=
  fold_right (fun kx sorted => insert (fst kx) (snd kx) sorted) [] keyed.

Definition get_sorted_data_files (frame_data_files : list (frame_data_file Raw))
  : result (list (frame_data_file Raw)) :=
  keyed <- for_each (fun x => k <- sort_key x ;; Ok [(k, x)])
                    frame_data_files ;;
  Ok (map snd (sort_by_key keyed)).

(** [UnityData.__init__], lines 115-121, from the parsed definitions and
    the frame data files found.  [read_labels], line 117, raises nothing on
    parsed definitions, so that it is the same before and after the sort of
    line 119. *)
Definition load (P : Capture.parsers Raw)
           (annotation_definitions : list annotation_definition)
           (found : list (frame_data_file Raw)) : result (t Raw) :=
  frame_data_files <- get_sorted_data_files found ;;
  init P annotation_definitions frame_data_files.

End WithRaw.

End Discovery.

Module DiscoverySpec.
Import UnityData Discovery.

(** The files whose key is [k]. *)
Definition has_key {Raw : Type} (k : Z) (x : frame_data_file Raw) : bool :=
  match sort_key x with
  | Ok k' => Z.eqb k' k
  | Raise _ => false
  end.

(** The name of the directory of the file does not end in a number. *)
Definition unnumbered {Raw : Type} (x : frame_data_file Raw) : Prop :=
  ~ PySpec.numeric (Py.last_component (DataDirectory.basename (dirname x))).

(** Files of the sequences 10, 2 and 10 again, in that order. *)
Definition unordered : list (frame_data_file unit) :=
  [mk_file "solo/sequence.10" (Some (Some [Sample.raw_capture])) None;
   mk_file "solo/sequence.2" (Some (Some [Sample.raw_capture])) None;
   mk_file "solo/sequence.10" None (Some (Some [Sample.raw_metric]))].


End DiscoverySpec.

(** ** The manifest *)

Module ManifestSpec.

(** The line of a label in the [names] block. *)
Definition label_line (label : Label.t) : string :=
  fstr ["    "; Py.str (Label.id label); ": "; Label.name label; nl].

(** Some chunk starts with [p]. *)
Definition starts (p : string) (chunks : list string) : bool :=
  existsb (String.prefix p) chunks.

End ManifestSpec.

(** ** An object count metric *)

Module CountSample.

(** Two crates counted in sequence 12. *)
Definition raw_metric : Metric.raw :=
  Metric.mk_raw (Some Metric.TYPE_OBJECT_COUNT) (Some "ObjectCount")
    (Some "solo/sequence.12") (Some "camera") (Some "bounding box")
    (Some "count of the objects")
    (Some [Metric.mk_raw_value (Some 7) (Some "crate") (Some 2)
             None None None None]).

End CountSample.

(** ** Suffixes that are no number *)

Module NumeralSpec.
Import PySpec.

(** The text of an integer, as the language reference has it for [int]
    in base 10: white space, an optional sign, decimal digits in which
    single underscores may separate digits, white space. *)
Definition decimal (c : ascii) : Prop :=
  In c ["0"; "1"; "2"; "3"; "4"; "5"; "6"; "7"; "8"; "9"]%char.

(** The white space of ASCII that [int] skips: the space, the tabs, the
    line feed, the form feed and the carriage return. *)
Definition white (c : ascii) : Prop :=
  In c [" "; "009"; "010"; "011"; "012"; "013"]%char.

Inductive digits_text : string -> Prop :=
| digit_last c : decimal c -> digits_text (String c EmptyString)
| digit_more c d : decimal c -> digits_text d -> digits_text (String c d)
| digit_underscore c d :
    decimal c -> digits_text d -> digits_text (String c (String "_" d)).

Definition blank (s : string) : Prop :=
  Forall white (list_ascii_of_string s).

Definition literal (s : string) : Prop :=
  exists l sign d r,
    s = (l ++ sign ++ d ++ r)%string
    /\ blank l /\ blank r
    /\ In sign [""; "+"; "-"]%string
    /\ digits_text d.





End NumeralSpec.

(* ================================================================== *)
(** * Operations that fail

    The trace of a computation lists the operations on the file system it
    performs when every one of them succeeds.  An operation may also fail
    ([mkdir] below a regular file, [copyfile] into a missing directory,
    ...): it then raises [OSError], and as no source catches an exception,
    the conversion ends there, with the operations before it done.  The
    computations between the operations read nothing that the operations
    write, so a run in an environment is the trace cut at the first
    operation that fails in it. *)

Module Environment.

(** [fails done ev]: the operation [ev] fails once the operations [done]
    are done. *)
Definition oracle : Type := list event -> event -> bool.

Inductive outcome (A : Type) : Type :=
| Returned (a : A)
| Raised (e : exn)       (* an exception of the sources themselves *)
| Failed (ev : event).   (* [OSError], raised by the operation [ev] *)
Arguments Returned {A} _.
Arguments Raised {A} _.
Arguments Failed {A} _.

(** Perform the operations [todo] after [done], up to the first one that
    fails. *)
Fixpoint attempt (fails : oracle) (done todo : list event)
  : list event * option event :=
  match todo with
  | [] => (done, None)
  | ev :: rest =>
      if fails done ev then (done, Some ev)
      else attempt fails (done ++ [ev]) rest
  end.

(** The run of [m] after the operations [done]: the operations done at the
    end, and how the run ends. *)
Definition run {A : Type} (fails : oracle) (done : list event) (m : io A)
  : list event * outcome A :=
  match attempt fails done (fst m) with
  | (done', Some ev) => (done', Failed ev)
  | (done', None) =>
      (done', match snd m with
              | Ok a => Returned a
              | Raise e => Raised e
              end)
  end.

(** The environment in which nothing fails, one in which no file can be
    copied, one in which no directory can be created. *)
Definition reliable : oracle := fun _ _ => false.

Definition no_copy : oracle :=
  fun _ ev => match ev with CopyFile _ _ => true | _ => false end.


End Environment.

(** ** A capture whose image has no extension *)

Module EnvironmentSample.

(** The sample capture with the image [solo/sequence.12/image]: the text
    after the last dot of its path is [12/image]. *)
Definition capture : Capture.t unit :=
  Capture.mk "camera" 12 "" [0; 0; 0]%Q [0; 0; 0; 1]%Q [0; 0; 0]%Q [0; 0; 0]%Q
    "solo/sequence.12/image" "Png" [1920; 1080]%Q "Perspective"
    [1; 0; 0; 0; 1; 0; 0; 0; 1]%Q
    None None
    (Some (BoundingBox2DAnnotation.mk [Sample.box1]))
    None None None None.

Definition unity_data : UnityData.t unit :=
  UnityData.mk [Sample.label] [(12, [capture])]
               [(12, [Sample.occlusion (Some Sample.occlusion_values)])].

(** The directory [out/train/0.12] does not exist: a copy into it fails. *)
Definition missing_directory : Environment.oracle :=
  fun _ ev =>
    match ev with
    | CopyFile _ dst => String.eqb dst "out/train/0.12/image"
    | _ => false
    end.

End EnvironmentSample.

(* ================================================================== *)
(** * Binary floating point

    For the structure of the output a float is the rational it stands for.
    For the numbers themselves the arithmetic of the code is that of
    binary64: every operation returns the representable number nearest to
    its exact result, ties to the even significand.  [round(x, ndigits)]
    rounds the exact value of [x] to [ndigits] decimals, ties to even, and
    returns the float nearest to that decimal.  A value is still a
    rational, one that binary64 represents; overflow to infinity is not
    modelled. *)

Module Binary64.

Definition pow2 (e : Z) : Q := ((2 # 1) ^ e)%Q.

(** For [a > 0], the [E] with [2^E <= a < 2^(E+1)]. *)
Definition binade (a : Q) : Z :=
  let e0 := Z.log2 (Qnum a) - Z.log2 (Zpos (Qden a)) in
  if Qle_bool (pow2 e0) a then e0 else e0 - 1.

(** The binary64 number nearest to [q]: a significand of 53 bits, or fewer
    at the least exponent, -1074. *)
Definition fl (q : Q) : Q :=
  if Qeq_bool q 0 then 0%Q
  else
    let a := Qabs q in
    let e := Z.max (binade a - 52) (-1074) in
    let m := Py.round_half_even (a / pow2 e) in
    let v := (inject_Z m * pow2 e)%Q in
    if Qle_bool 0 q then v else (- v)%Q.

(** Half the distance from 1 to the next float; half the least positive
    float. *)
Definition unit_roundoff : Q := pow2 (-53).
Definition tiny : Q := pow2 (-1075).

(** The largest magnitude of the coordinates considered, far below the
    overflow threshold. *)
Definition huge : Q := pow2 1000.

(** A float of that range, or an int that such a float stands for: rounding
    leaves it as it is. *)
Definition representable (q : Q) : Prop := (fl q == q /\ Qabs q <= huge)%Q.

(** [x + y], [x / y] and [round(x, ndigits)] on floats *)
Definition add (x y : Q) : Q := fl (x + y).

Definition truediv (x y : Q) : result Q :=
  if Qeq_bool y 0 then Raise ZeroDivisionError else Ok (fl (x / y)).

Definition round (x : Q) (ndigits : Z) : Q := fl (Py.round x ndigits).

(** The four values of a box line, lines 21-24, in this arithmetic. *)
Definition normalized_box (bounding_box : BoundingBox2D.t)
           (img_width img_height : Q) (precision : Z)
  : result (Q * Q * Q * Q) :=
  ox <- index (BoundingBox2D.origin bounding_box) 0 ;;
  dw <- index (BoundingBox2D.dimension bounding_box) 0 ;;
  half_w <- truediv dw 2 ;;
  cx <- truediv (add ox half_w) img_width ;;
  let center_x := round cx precision in
  oy <- index (BoundingBox2D.origin bounding_box) 1 ;;
  dh <- index (BoundingBox2D.dimension bounding_box) 1 ;;
  half_h <- truediv dh 2 ;;
  cy <- truediv (add oy half_h) img_height ;;
  let center_y := round cy precision in
  dw' <- index (BoundingBox2D.dimension bounding_box) 0 ;;
  w <- truediv dw' img_width ;;
  let width := round w precision in
  dh' <- index (BoundingBox2D.dimension bounding_box) 1 ;;
  h <- truediv dh' img_height ;;
  let height := round h precision in
  Ok (center_x, center_y, width, height).

(** The tolerance of the way back from a rounded centre: half a unit of the
    last decimal, scaled by the image dimension, and the rounding of the
    operations. *)
Definition tolerance (w x bw : Q) (precision : Z) : Q :=
  (Qabs w * ((1 # 2) * Py.pow10 (- precision) * (1 + unit_roundoff)
             + pow2 (-1070))
   + 8 * unit_roundoff * (Qabs x + Qabs bw))%Q.

End Binary64.

(* ################################################################## *)
(** * Properties *)

(* ================================================================== *)
(** * The label registry *)

Module LabelProofs.
Import UnityData LabelSpec.

Lemma number_app k l1 l2 :
  number k (l1 ++ l2) = number k l1 ++ number (k + Z.of_nat (List.length l1)) l2.
Proof.
  revert k; induction l1 as [|[i n] l1 IH]; intros k; cbn [number app List.length].
  - now rewrite Z.add_0_r.
  - rewrite IH. do 3 f_equal. lia.
Qed.

Lemma number_names k l : map Label.name (number k l) = map snd l.
Proof.
  revert k; induction l as [|[i n] l IH]; intros k; cbn; [easy | now rewrite IH].
Qed.

Lemma number_length k l : List.length (number k l) = List.length l.
Proof.
  revert k; induction l as [|[i n] l IH]; intros k; cbn; [easy | now rewrite IH].
Qed.

Lemma number_nth k l j lab :
  nth_error (number k l) j = Some lab -> Label.id lab = k + Z.of_nat j.
Proof.
  revert k j; induction l as [|[i n] l IH]; intros k j; cbn [number].
  - destruct j; discriminate.
  - destruct j as [|j]; cbn [nth_error].
    + intros [= <-]. cbn. lia.
    + intros H. apply IH in H. lia.
Qed.

Lemma seen_number n k l :
  existsb (fun lab => String.eqb (Label.name lab) n) (number k l)
  = existsb (fun q => String.eqb (snd q) n) l.
Proof.
  revert k; induction l as [|[i m] l IH]; intros k; cbn; [easy | now rewrite IH].
Qed.

Lemma seen_first_seen n l :
  existsb (fun q => String.eqb (snd q) n) (first_seen l)
  = existsb (fun q => String.eqb (snd q) n) l.
Proof.
  induction l as [|p l IH]; cbn [first_seen existsb]; [easy|].
  rewrite <- IH. destruct (String.eqb_spec (snd p) n) as [E|E]; cbn [orb]; [easy|].
  generalize (first_seen l) as r. induction r as [|q r IHr]; cbn; [easy|].
  destruct (String.eqb_spec (snd q) (snd p)) as [E'|E']; cbn.
  - rewrite IHr. destruct (String.eqb_spec (snd q) n); [congruence | easy].
  - now rewrite IHr.
Qed.

(** Reading one more pair: it is appended exactly when its name is new. *)
Lemma first_seen_snoc l p :
  first_seen (l ++ [p])
  = if existsb (fun q => String.eqb (snd q) (snd p)) l
    then first_seen l else first_seen l ++ [p].
Proof.
  induction l as [|a l IH]; cbn [app first_seen existsb]; [easy|].
  rewrite IH. destruct (String.eqb_spec (snd a) (snd p)) as [E|E]; cbn [orb].
  - destruct (existsb _ l); [easy|].
    rewrite filter_app. cbn [filter]. rewrite E, String.eqb_refl. cbn.
    now rewrite List.app_nil_r.
  - destruct (existsb _ l); [easy|].
    rewrite filter_app. cbn [filter].
    destruct (String.eqb_spec (snd p) (snd a)); [congruence | easy].
Qed.

Lemma register_step ps e :
  register (state_after ps) e = state_after (ps ++ entry_pairs e).
Proof.
  unfold register, state_after, entry_pairs.
  destruct (label_id e) as [i|], (label_name e) as [n|];
    rewrite ?List.app_nil_r; try reflexivity.
  rewrite first_seen_snoc, seen_number, seen_first_seen. cbn [snd].
  destruct (existsb _ ps); [reflexivity|].
  rewrite number_app, List.length_app. cbn [number List.length]. f_equal. lia.
Qed.

Lemma register_fold es ps :
  fold_left register es (state_after ps)
  = state_after (ps ++ flat_map entry_pairs es).
Proof.
  revert ps; induction es as [|e es IH]; intros ps; cbn [fold_left flat_map].
  - now rewrite List.app_nil_r.
  - rewrite register_step, IH, List.app_assoc. reflexivity.
Qed.

Lemma read_block_step ps d :
  read_block (state_after ps) d = state_after (ps ++ named_entries [d]).
Proof.
  unfold read_block, named_entries. cbn [flat_map]. rewrite List.app_nil_r.
  destruct (spec d) as [| |[|e es]]; rewrite ?List.app_nil_r; try reflexivity.
  apply register_fold.
Qed.

Lemma named_entries_app d1 d2 :
  named_entries (d1 ++ d2) = named_entries d1 ++ named_entries d2.
Proof. apply flat_map_app. Qed.

Lemma read_blocks ds ps :
  fold_left read_block ds (state_after ps)
  = state_after (ps ++ named_entries ds).
Proof.
  revert ps; induction ds as [|d ds IH]; intros ps; cbn [fold_left].
  - now rewrite List.app_nil_r.
  - rewrite read_block_step, IH, <- List.app_assoc, <- named_entries_app. reflexivity.
Qed.

Lemma read_labels_registry defs : read_labels defs = registry defs.
Proof.
  unfold read_labels, registry.
  change ([], 0) with (state_after []). now rewrite read_blocks.
Qed.

Lemma first_seen_names_NoDup l : NoDup (map snd (first_seen l)).
Proof.
  induction l as [|p l IH]; cbn [first_seen map]; constructor.
  - rewrite in_map_iff. intros [q [E H]]. apply filter_In in H as [_ H].
    rewrite E, String.eqb_refl in H. discriminate.
  - revert IH. generalize (first_seen l) as r.
    induction r as [|q r IHr]; cbn; [constructor|].
    intros H. inversion H as [|? ? Hq Hr]; subst.
    destruct (negb _); [|now apply IHr].
    cbn. constructor; [|now apply IHr].
    rewrite in_map_iff. intros [q' [E H']]. apply filter_In in H' as [H' _].
    apply Hq. rewrite <- E. now apply in_map.
Qed.

Lemma first_seen_names_In l n :
  In n (map snd (first_seen l)) <-> In n (map snd l).
Proof.
  pose proof (seen_first_seen n l) as H.
  split; intros Hin; apply in_map_iff in Hin as [q [E Hq]].
  - assert (Hx : existsb (fun q => String.eqb (snd q) n) (first_seen l) = true).
    { apply existsb_exists. exists q. split; [easy|]. rewrite E. apply String.eqb_refl. }
    rewrite H in Hx. apply existsb_exists in Hx as [q' [Hq' E']].
    apply String.eqb_eq in E'. rewrite <- E'. now apply in_map.
  - assert (Hx : existsb (fun q => String.eqb (snd q) n) l = true).
    { apply existsb_exists. exists q. split; [easy|]. rewrite E. apply String.eqb_refl. }
    rewrite <- H in Hx. apply existsb_exists in Hx as [q' [Hq' E']].
    apply String.eqb_eq in E'. rewrite <- E'. now apply in_map.
Qed.

Lemma named_entries_no_spec d : no_spec d -> named_entries [d] = [].
Proof.
  unfold no_spec, named_entries. cbn [flat_map].
  destruct (spec d) as [| |[|e es]]; easy.
Qed.

(** C8. The registry that [read_labels] builds is the numbering, from 0 and
    in first-seen order, of the first entry of every distinct label name:
    one label per name, every name of the input present, the label at
    position [k] carrying id [k]; a block without a non-empty [spec] list
    changes nothing; the function is total, so a repeated name is no
    error. *)
Theorem read_labels_dedup (defs : list UnityData.annotation_definition) :
  let labels := UnityData.read_labels defs in
  labels = registry defs
  /\ NoDup (map Label.name labels)
  /\ (forall n, In n (map Label.name labels)
                <-> In n (map snd (named_entries defs)))
  /\ (forall k lab, nth_error labels k = Some lab -> Label.id lab = Z.of_nat k)
  /\ (forall before d after,
        defs = before ++ d :: after -> no_spec d ->
        labels = UnityData.read_labels (before ++ after)).
Proof.
  cbn zeta. rewrite read_labels_registry. unfold registry.
  split; [reflexivity|]. split; [|split; [|split]].
  - rewrite number_names. apply first_seen_names_NoDup.
  - intros n. rewrite number_names. apply first_seen_names_In.
  - intros k lab H. now apply number_nth in H.
  - intros before d after -> Hd. rewrite read_labels_registry. unfold registry.
    change (d :: after) with ([d] ++ after).
    now rewrite !named_entries_app, named_entries_no_spec.
Qed.

End LabelProofs.

(* ================================================================== *)
(** * Facts about the builtins *)

Module PyProofs.
Import Py PySpec.

Lemma split_nonempty sep s : split sep s <> [].
Proof.
  destruct s as [|c s]; cbn; [easy|].
  destruct (Ascii.eqb c sep); [easy|]. now destruct (split sep s).
Qed.


Lemma split_none sep s :
  all_chars (fun c => negb (Ascii.eqb c sep)) s = true -> split sep s = [s].
Proof.
  induction s as [|c s IH]; cbn [all_chars split]; [easy|].
  intros H. apply andb_prop in H as [Hc Hs].
  apply negb_true_iff in Hc. rewrite Hc, (IH Hs). reflexivity.
Qed.




Lemma digit_not_space c : is_digit c = true -> is_space c = false.
Proof.
  unfold is_digit, is_space. intros H.
  apply andb_prop in H as [H1 H2].
  apply Nat.leb_le in H1. apply Nat.leb_le in H2.
  destruct (Nat.leb_spec (nat_of_ascii c) 13),
    (Nat.eqb_spec (nat_of_ascii c) 32);
    try lia; now rewrite ?andb_false_r.
Qed.

Lemma digit_not c d :
  is_digit d = false -> is_digit c = true -> Ascii.eqb c d = false.
Proof.
  intros Hd Hc. destruct (Ascii.eqb_spec c d); [congruence | easy].
Qed.

Lemma lstrip_digits s : all_chars is_digit s = true -> lstrip s = s.
Proof.
  destruct s as [|c s]; cbn; [easy|].
  intros H. apply andb_prop in H as [Hc _]. now rewrite (digit_not_space _ Hc).
Qed.

Lemma rstrip_digits s : all_chars is_digit s = true -> rstrip s = s.
Proof.
  induction s as [|c s IH]; cbn [all_chars rstrip]; [easy|].
  intros H. apply andb_prop in H as [Hc Hs]. rewrite (IH Hs).
  destruct s; [now rewrite (digit_not_space _ Hc) | reflexivity].
Qed.

Lemma strip_digits s : all_chars is_digit s = true -> strip s = s.
Proof.
  intros H. unfold strip. now rewrite (lstrip_digits _ H), (rstrip_digits _ H).
Qed.

Lemma uint_digits u : all_chars is_digit (NilEmpty.string_of_uint u) = true.
Proof. induction u; cbn [NilEmpty.string_of_uint all_chars]; now rewrite ?IHu. Qed.

Lemma digits_acc u p :
  digits (Zpos p) true (NilEmpty.string_of_uint u)
  = Some (Zpos (Pos.of_uint_acc u p)).
Proof.
  revert p; induction u; intros p;
    cbn [NilEmpty.string_of_uint digits Pos.of_uint_acc]; [reflexivity|..];
    match goal with
    | |- context [is_digit ?c] =>
        change (is_digit c) with true; cbv iota;
        let v := eval vm_compute in (digit_value c) in
        change (digit_value c) with v
    end;
    match goal with
    | |- digits ?a true _ = Some (Zpos (Pos.of_uint_acc _ ?q)) =>
        replace a with (Zpos q) by lia; apply IHu
    end.
Qed.

Lemma digits_uint u b :
  u <> Decimal.Nil \/ b = true ->
  digits 0 b (NilEmpty.string_of_uint u) = Some (Z.of_N (Pos.of_uint u)).
Proof.
  revert b; induction u; intros b Hb;
    cbn [NilEmpty.string_of_uint digits Pos.of_uint].
  - destruct Hb as [Hb| ->]; [easy | reflexivity].
  - change (is_digit "0") with true. cbv iota.
    change (10 * 0 + digit_value "0") with 0. apply IHu. now right.
  - apply (digits_acc u 1).
  - apply (digits_acc u 2).
  - apply (digits_acc u 3).
  - apply (digits_acc u 4).
  - apply (digits_acc u 5).
  - apply (digits_acc u 6).
  - apply (digits_acc u 7).
  - apply (digits_acc u 8).
  - apply (digits_acc u 9).
Qed.

Lemma str_nonneg n :
  0 <= n -> exists u, u <> Decimal.Nil /\ str n = NilEmpty.string_of_uint u
                      /\ Z.of_N (Pos.of_uint u) = n.
Proof.
  intros Hn. destruct n as [|p|p]; [| |lia].
  - exists (Decimal.D0 Decimal.Nil). now repeat split.
  - exists (Pos.to_uint p). pose proof (DecimalPos.Unsigned.to_uint_nonnil p) as Hp.
    repeat split; [easy | |].
    + unfold str. cbn [Z.to_int NilZero.string_of_int NilZero.string_of_uint].
      destruct (Pos.to_uint p); [easy | reflexivity..].
    + now rewrite DecimalPos.Unsigned.of_to.
Qed.

Lemma str_digits n : 0 <= n -> all_chars is_digit (str n) = true.
Proof.
  intros Hn. destruct (str_nonneg n Hn) as [u [_ [-> _]]]. apply uint_digits.
Qed.


(** [int(str(n)) == n] for a natural number. *)
Lemma int_str n : 0 <= n -> int (str n) = Ok n.
Proof.
  intros Hn. unfold int. rewrite (strip_digits _ (str_digits n Hn)).
  destruct (str_nonneg n Hn) as [u [Hu [E V]]]. rewrite E.
  pose proof (uint_digits u) as Hd.
  pose proof (digits_uint u false (or_introl Hu)) as Hv.
  destruct (NilEmpty.string_of_uint u) as [|c rest] eqn:Es.
  - discriminate Hv.
  - cbn [all_chars] in Hd. apply andb_prop in Hd as [Hc _].
    unfold signed_digits.
    rewrite (digit_not c "+" eq_refl Hc), (digit_not c "-" eq_refl Hc).
    now rewrite Hv, V.
Qed.

(** [int] raises nothing but [ValueError]. *)
Lemma int_error s e : int s = Raise e -> e = ValueError.
Proof. unfold int. destruct (signed_digits (strip s)); congruence. Qed.

Lemma digits_foreign acc b s :
  some_char foreign s = true -> digits acc b s = None.
Proof.
  revert acc b; induction s as [|c s IH]; intros acc b; cbn [some_char digits];
    [easy|].
  unfold foreign at 1. intros H.
  destruct (is_digit c) eqn:Hd; cbn [orb negb] in H; [now apply IH|].
  destruct (Ascii.eqb c "_") eqn:Hu; [|reflexivity].
  rewrite orb_true_r in H. cbn [orb negb] in H. destruct b; [now apply IH | reflexivity].
Qed.

Lemma foreign_not_space c : foreign c = true -> is_space c = false.
Proof.
  unfold foreign. destruct (is_space c); [|easy].
  now rewrite orb_true_r.
Qed.

Lemma lstrip_foreign s :
  some_char foreign s = true -> some_char foreign (lstrip s) = true.
Proof.
  induction s as [|c s IH]; cbn [some_char lstrip]; [easy|].
  intros H. destruct (is_space c) eqn:Hs; [|exact H].
  apply IH. destruct (foreign c) eqn:Hf; [|exact H].
  apply foreign_not_space in Hf. congruence.
Qed.

Lemma rstrip_foreign s :
  some_char foreign s = true -> some_char foreign (rstrip s) = true.
Proof.
  induction s as [|c s IH]; cbn [some_char rstrip]; [easy|].
  intros H. destruct (foreign c) eqn:Hf.
  - destruct (rstrip s); [|cbn [some_char]; now rewrite Hf].
    rewrite (foreign_not_space _ Hf). cbn. now rewrite Hf.
  - cbn [orb] in H. specialize (IH H).
    destruct (rstrip s); [discriminate IH|].
    cbn [some_char]. now rewrite Hf.
Qed.

(** A suffix with a foreign character is not numeric. *)
Lemma int_foreign s : some_char foreign s = true -> int s = Raise ValueError.
Proof.
  intros H. apply lstrip_foreign, rstrip_foreign in H. fold (strip s) in H.
  unfold int, signed_digits. destruct (strip s) as [|c t]; [reflexivity|].
  cbn [some_char] in H.
  destruct (Ascii.eqb c "+") eqn:Hp.
  { apply Ascii.eqb_eq in Hp. subst c. cbn in H. now rewrite digits_foreign. }
  destruct (Ascii.eqb c "-") eqn:Hm.
  { apply Ascii.eqb_eq in Hm. subst c. cbn in H. now rewrite digits_foreign. }
  now rewrite digits_foreign.
Qed.

Lemma not_numeric_raises s : ~ numeric s -> int s = Raise ValueError.
Proof.
  intros H. destruct (int s) as [n|e] eqn:E.
  - exfalso. apply H. now exists n.
  - now rewrite (int_error _ _ E) in *.
Qed.

End PyProofs.

(* ================================================================== *)
(** * The text of an integer *)

Module NumeralProofs.
Import Py PySpec NumeralSpec PyProofs.

Lemma is_space_white c : is_space c = true <-> white c.
Proof.
  split.
  - destruct c as [[] [] [] [] [] [] [] []]; intros H; try discriminate H;
      unfold white; cbn; tauto.
  - unfold white. cbn [In]. intros H.
    repeat (destruct H as [<-|H]; [reflexivity|]). destruct H.
Qed.

Lemma is_digit_decimal c : is_digit c = true <-> decimal c.
Proof.
  split.
  - destruct c as [[] [] [] [] [] [] [] []]; intros H; try discriminate H;
      unfold decimal; cbn; tauto.
  - unfold decimal. cbn [In]. intros H.
    repeat (destruct H as [<-|H]; [reflexivity|]). destruct H.
Qed.

Lemma lstrip_split s : exists l, s = (l ++ lstrip s)%string /\ blank l.
Proof.
  induction s as [|c s [l [Hs Hl]]]; cbn [lstrip].
  - exists EmptyString. split; [reflexivity|constructor].
  - destruct (is_space c) eqn:E.
    + exists (String c l). split; [cbn; now rewrite <- Hs|].
      constructor; [now apply is_space_white|exact Hl].
    + exists EmptyString. split; [reflexivity|constructor].
Qed.

Lemma rstrip_split s : exists r, s = (rstrip s ++ r)%string /\ blank r.
Proof.
  induction s as [|c s [r [Hs Hr]]]; cbn [rstrip].
  - exists EmptyString. split; [reflexivity|constructor].
  - destruct (rstrip s) as [|c' t] eqn:E.
    + cbn [String.append] in Hs. subst r.
      destruct (is_space c) eqn:Ec.
      * exists (String c s). split; [reflexivity|].
        constructor; [now apply is_space_white|exact Hr].
      * exists s. split; [reflexivity|exact Hr].
    + exists r. split; [|exact Hr]. cbn [String.append]. f_equal. exact Hs.
Qed.

(** What [digits] accepts after a digit: nothing more, more digits, or an
    underscore and more digits. *)
Lemma digits_text_of acc b d n :
  digits acc b d = Some n ->
  if b then d = EmptyString \/ digits_text d
            \/ exists d', d = String "_" d' /\ digits_text d'
  else digits_text d.
Proof.
  revert acc b. induction d as [|c d IH]; intros acc b; cbn [digits].
  - destruct b; [now left|discriminate].
  - destruct (is_digit c) eqn:Ec.
    + intros H. apply IH in H. apply is_digit_decimal in Ec.
      assert (Ht : digits_text (String c d)).
      { destruct H as [->|[H|[d' [-> H]]]].
        - now apply digit_last.
        - now apply digit_more.
        - now apply digit_underscore. }
      destruct b; [right; now left|exact Ht].
    + destruct (Ascii.eqb c "_") eqn:Eu; [|discriminate].
      apply Ascii.eqb_eq in Eu. subst c.
      destruct b; [|discriminate].
      intros H. apply IH in H. right. right. now exists d.
Qed.

Lemma app_assoc_blank l t r : ((l ++ t) ++ r = l ++ t ++ r)%string.
Proof. induction l as [|c l IH]; cbn; [reflexivity|now rewrite IH]. Qed.

(** What [int] converts is the text of an integer. *)
Lemma int_literal s n : int s = Ok n -> literal s.
Proof.
  unfold int, strip.
  destruct (signed_digits (rstrip (lstrip s))) as [m|] eqn:E; [|discriminate].
  intros _.
  destruct (lstrip_split s) as [l [Hs Hl]].
  destruct (rstrip_split (lstrip s)) as [r [Ht Hr]].
  set (t := rstrip (lstrip s)) in *.
  assert (Hd : exists sign d, t = (sign ++ d)%string
                              /\ In sign [""; "+"; "-"]%string
                              /\ digits_text d).
  { unfold signed_digits in E. destruct t as [|c rest]; [discriminate|].
    destruct (Ascii.eqb c "+") eqn:Ep.
    { apply Ascii.eqb_eq in Ep. subst c. exists "+"%string, rest.
      split; [reflexivity|]. split; [cbn; tauto|].
      exact (digits_text_of _ _ _ _ E). }
    destruct (Ascii.eqb c "-") eqn:Em.
    { apply Ascii.eqb_eq in Em. subst c. exists "-"%string, rest.
      split; [reflexivity|]. split; [cbn; tauto|].
      destruct (digits 0 false rest) as [k|] eqn:Ek; [|discriminate].
      exact (digits_text_of _ _ _ _ Ek). }
    exists EmptyString, (String c rest). split; [reflexivity|].
    split; [cbn; tauto|]. exact (digits_text_of _ _ _ _ E). }
  destruct Hd as [sign [d [Hsd [Hsign Hdt]]]].
  exists l, sign, d, r. split; [|now repeat split].
  rewrite Hs, Ht, Hsd. now rewrite app_assoc_blank.
Qed.



Lemma digits_text_accepted d :
  digits_text d -> forall acc b, exists n, digits acc b d = Some n.
Proof.
  induction 1 as [c Hc|c d Hc _ IH|c d Hc _ IH]; intros acc b;
    apply is_digit_decimal in Hc; cbn [digits]; rewrite Hc.
  - now eexists.
  - apply IH.
  - cbn [digits]. change (is_digit "_") with false.
    change (Ascii.eqb "_" "_") with true. cbn iota. apply IH.
Qed.

Lemma digits_text_first d :
  digits_text d -> exists c rest, d = String c rest /\ decimal c.
Proof. destruct 1 as [c Hc|c d Hc _|c d Hc _]; eexists _, _; now split. Qed.

Lemma digits_text_last d :
  digits_text d ->
  exists d' c, d = (d' ++ String c EmptyString)%string /\ decimal c.
Proof.
  induction 1 as [c Hc|c d Hc _ [d' [c' [-> Hc']]]|c d Hc _ [d' [c' [-> Hc']]]].
  - exists EmptyString, c. now split.
  - exists (String c d'), c'. now split.
  - exists (String c (String "_" d')), c'. now split.
Qed.

Lemma lstrip_blank l t : blank l -> lstrip (l ++ t) = lstrip t.
Proof.
  induction l as [|c l IH]; intros H; [reflexivity|].
  inversion H as [|? ? Hc Hl]; subst. cbn [String.append lstrip].
  apply is_space_white in Hc. rewrite Hc. now apply IH.
Qed.

Lemma rstrip_blank r : blank r -> rstrip r = EmptyString.
Proof.
  induction r as [|c r IH]; intros H; [reflexivity|].
  inversion H as [|? ? Hc Hr]; subst. cbn [rstrip]. rewrite (IH Hr).
  apply is_space_white in Hc. now rewrite Hc.
Qed.

Lemma rstrip_after t c r :
  is_space c = false -> blank r ->
  rstrip (t ++ String c r) = (t ++ String c EmptyString)%string.
Proof.
  intros Hc Hr. induction t as [|a t IH]; cbn [String.append rstrip].
  - now rewrite (rstrip_blank r Hr), Hc.
  - rewrite IH. now destruct t.
Qed.

(** The text of an integer is converted. *)
Lemma literal_int s : literal s -> exists n, int s = Ok n.
Proof.
  intros [l [sign [d [r [-> [Hl [Hr [Hsign Hd]]]]]]]].
  destruct (digits_text_first d Hd) as [c0 [rest [E0 H0]]].
  destruct (digits_text_last d Hd) as [d' [c1 [E1 H1]]].
  apply is_digit_decimal in H0, H1.
  assert (Hstrip : strip (l ++ sign ++ d ++ r) = (sign ++ d)%string).
  { unfold strip. rewrite (lstrip_blank l _ Hl).
    assert (Hfirst : lstrip (sign ++ d ++ r) = (sign ++ d ++ r)%string).
    { cbn [In] in Hsign. destruct Hsign as [<-|[<-|[<-|[]]]];
        [rewrite E0; cbn [String.append lstrip];
         now rewrite (digit_not_space _ H0) | reflexivity | reflexivity]. }
    rewrite Hfirst, E1.
    assert (Ea : (sign ++ (d' ++ String c1 EmptyString) ++ r
                  = (sign ++ d') ++ String c1 r)%string).
    { rewrite <- app_assoc_blank. cbn [String.append].
      now rewrite !app_assoc_blank. }
    rewrite Ea, (rstrip_after _ c1 r (digit_not_space _ H1) Hr).
    now rewrite app_assoc_blank. }
  unfold int. rewrite Hstrip.
  destruct (digits_text_accepted d Hd 0 false) as [n Hn].
  cbn [In] in Hsign. destruct Hsign as [<-|[<-|[<-|[]]]].
  - exists n. cbn [String.append]. rewrite E0 in *. unfold signed_digits.
    rewrite (digit_not c0 "+" eq_refl H0), (digit_not c0 "-" eq_refl H0).
    now rewrite Hn.
  - exists n. cbn. now rewrite Hn.
  - exists (- n)%Z. cbn. now rewrite Hn.
Qed.

(** [int] converts the texts of the integers, and nothing else. *)
Lemma literal_numeric s : literal s <-> numeric s.
Proof.
  split; [apply literal_int|]. intros [n Hn]. exact (int_literal s n Hn).
Qed.





End NumeralProofs.

(* ================================================================== *)
(** * The sequence number of captures and metrics *)

Module SequenceProofs.
Import PySpec PyProofs NumeralProofs SequenceSpec.

(** Case analysis on the next step of a chain of [bind]s. *)
Ltac step :=
  match goal with
  | |- context [bind ?m _] =>
      let E := fresh "E" in
      destruct m eqn:E; cbn [bind]; try discriminate
  end.


Section Captures.
Context {Raw : Type} (P : Capture.parsers Raw).






End Captures.








End SequenceProofs.

Module SequenceWitness.
Import SequenceSpec.






End SequenceWitness.

(* ================================================================== *)
(** * The conversion pipeline *)

Module IOFacts.

Lemma bind_trace {A B} (m : io A) (k : A -> io B) :
  fst (io_bind m k)
  = fst m ++ match snd m with Ok a => fst (k a) | Raise _ => [] end.
Proof.
  destruct m as [tr [a|e]]; cbn; [|now rewrite List.app_nil_r].
  now destruct (k a).
Qed.

Lemma bind_result {A B} (m : io A) (k : A -> io B) :
  snd (io_bind m k)
  = match snd m with Ok a => snd (k a) | Raise e => Raise e end.
Proof. destruct m as [tr [a|e]]; cbn; [|reflexivity]. now destruct (k a). Qed.

Lemma lift_trace {A} (r : result A) : fst (lift r) = [].
Proof. reflexivity. Qed.

Lemma lift_result {A} (r : result A) : snd (lift r) = r.
Proof. reflexivity. Qed.

End IOFacts.

(** ** Runs in an environment *)

Module EnvironmentProofs.
Import Environment.

Lemma attempt_append (fails : oracle) (done l1 l2 : list event) :
  attempt fails done (l1 ++ l2)
  = match attempt fails done l1 with
    | (done', None) => attempt fails done' l2
    | (done', Some ev) => (done', Some ev)
    end.
Proof.
  revert done. induction l1 as [|ev l1 IH]; intros done; cbn [app attempt];
    [reflexivity|].
  destruct (fails done ev); [reflexivity | apply IH].
Qed.

(** What is done is what was done before and a beginning of the trace: all
    of it, or what precedes the operation that fails. *)
Lemma attempt_spec (fails : oracle) (done todo : list event) :
  match attempt fails done todo with
  | (done', None) => done' = done ++ todo
  | (done', Some ev) =>
      exists before after,
        todo = before ++ ev :: after /\ done' = done ++ before
        /\ fails done' ev = true
  end.
Proof.
  revert done. induction todo as [|ev todo IH]; intros done; cbn [attempt].
  - now rewrite List.app_nil_r.
  - destruct (fails done ev) eqn:E.
    + exists [], todo. now rewrite List.app_nil_r.
    + specialize (IH (done ++ [ev])).
      destruct (attempt fails (done ++ [ev]) todo) as [done' [ev'|]].
      * destruct IH as [before [after [-> [-> Hf]]]].
        exists (ev :: before), after.
        now rewrite <- List.app_assoc in *.
      * now rewrite <- List.app_assoc in IH.
Qed.

(** A run ends as the computation does, once all its operations are done,
    or at the operation that fails. *)
Lemma run_spec {A} (fails : oracle) (done : list event) (m : io A) :
  match run fails done m with
  | (done', Returned a) => done' = done ++ fst m /\ snd m = Ok a
  | (done', Raised e) => done' = done ++ fst m /\ snd m = Raise e
  | (done', Failed ev) =>
      exists before after,
        fst m = before ++ ev :: after /\ done' = done ++ before
        /\ fails done' ev = true
  end.
Proof.
  unfold run. pose proof (attempt_spec fails done (fst m)) as H.
  destruct (attempt fails done (fst m)) as [done' [ev|]]; [exact H|].
  now destruct (snd m).
Qed.

(** Runs compose as the computations do. *)
Lemma run_bind {A B} (fails : oracle) (done : list event) (m : io A)
      (k : A -> io B) :
  run fails done (io_bind m k)
  = match run fails done m with
    | (done', Returned a) => run fails done' (k a)
    | (done', Raised e) => (done', Raised e)
    | (done', Failed ev) => (done', Failed ev)
    end.
Proof.
  unfold run. destruct m as [tr [a|e]]; cbn [io_bind fst snd].
  - destruct (k a) as [tr' r] eqn:Ek. cbn [fst snd]. rewrite attempt_append.
    destruct (attempt fails done tr) as [done' [ev|]]; [reflexivity|].
    now rewrite Ek.
  - now destruct (attempt fails done tr) as [done' [ev|]].
Qed.

Lemma run_reliable {A} (done : list event) (m : io A) :
  run reliable done m
  = (done ++ fst m,
     match snd m with Ok a => Returned a | Raise e => Raised e end).
Proof.
  unfold run.
  assert (H : forall todo d, attempt reliable d todo = (d ++ todo, None)).
  { induction todo as [|ev todo IH]; intros d; cbn [attempt reliable].
    - now rewrite List.app_nil_r.
    - rewrite IH, <- List.app_assoc. reflexivity. }
  now rewrite H.
Qed.

End EnvironmentProofs.

Module ConvertProofs.
Import Convert ConvertSpec IOFacts.

Section WithCollaborators.
Context (X : collaborators) {Raw : Type}.
Implicit Types (cfg : config) (u : UnityData.t Raw) (c : Capture.t Raw).

Lemma is_valid_eligible cfg c : is_valid cfg c = true <-> eligible cfg c.
Proof.
  unfold is_valid, eligible.
  destruct (include_bboxes cfg), (include_keypoints cfg),
    (include_segmentation cfg), (include_semantic_mask cfg),
    (Capture.bounding_boxes_2d c), (Capture.keypoints c),
    (Capture.instance_segmentation c), (Capture.semantic_segmentation c);
    cbn; intuition (discriminate || congruence).
Qed.

Lemma valid_captures_spec cfg u c :
  In c (valid_captures cfg u) <-> In c (UnityData.captures u) /\ eligible cfg c.
Proof.
  unfold valid_captures. rewrite filter_In. now rewrite is_valid_eligible.
Qed.

(** Every event of the loop belongs to one of its iterations. *)
Lemma emit_all_trace cfg u path valid i split ev :
  In ev (fst (emit_all X cfg u path valid i split)) ->
  exists j s, nth_error split j = Some s
              /\ In ev (fst (emit_capture X cfg u path valid (i + j) s)).
Proof.
  revert i. induction split as [|s rest IH]; intros i; cbn [emit_all].
  - intros [].
  - rewrite bind_trace, in_app_iff. intros [H|H].
    + exists 0%nat, s. now rewrite Nat.add_0_r.
    + destruct (snd (emit_capture X cfg u path valid i s)); [|destruct H].
      apply IH in H as [j [s' [Hj H]]].
      exists (S j), s'. split; [exact Hj|]. now rewrite Nat.add_succ_r.
Qed.

(** An iteration that leaves a trace has found its capture. *)
Lemma emit_capture_indexed cfg u path valid i s ev :
  In ev (fst (emit_capture X cfg u path valid i s)) ->
  exists c, nth_error valid i = Some c.
Proof.
  unfold emit_capture, index. destruct (nth_error valid i) as [c|].
  - now exists c.
  - cbn. intros [].
Qed.

End WithCollaborators.

(** C10. Keypoints requested without [n_keypoints]: the conversion raises
    [ValueError] and its trace is empty, no directory created and no file
    written. *)
Theorem keypoints_need_count (X : collaborators) {Raw : Type}
        (fs : filesystem) (u : UnityData.t Raw) (output_path : string)
        (cfg : config) :
  include_keypoints cfg = true -> n_keypoints cfg = None ->
  unity_to_yolo X fs u output_path cfg = ([], Raise ValueError).
Proof. intros Hk Hn. unfold unity_to_yolo. now rewrite Hk, Hn. Qed.

(** C6. A capture passes the validity test exactly when every requested
    kind is present on it; the valid captures are exactly the eligible
    captures of the dataset; and every event of a conversion is either
    part of the output scaffold or part of the emission of an eligible
    capture of the dataset. *)
Theorem eligibility_filter (X : collaborators) {Raw : Type}
        (fs : filesystem) (u : UnityData.t Raw) (output_path : string)
        (cfg : config) :
  (forall c : Capture.t Raw, is_valid cfg c = true <-> eligible cfg c)
  /\ (forall c, In c (valid_captures cfg u)
                <-> In c (UnityData.captures u) /\ eligible cfg c)
  /\ (forall ev,
        In ev (fst (unity_to_yolo X fs u output_path cfg)) ->
        In ev (fst (scaffold X fs u output_path cfg))
        \/ exists path i s c,
            nth_error (valid_captures cfg u) i = Some c
            /\ In c (UnityData.captures u) /\ eligible cfg c
            /\ In ev (fst (emit_capture X cfg u path (valid_captures cfg u)
                                        i s))).
Proof.
  split; [apply is_valid_eligible|]. split; [apply valid_captures_spec|].
  intros ev. unfold unity_to_yolo, scaffold.
  destruct (include_keypoints cfg && is_none (n_keypoints cfg)); [intros []|].
  rewrite !bind_trace.
  destruct (DataDirectory.create_yolo_data_dir X fs output_path
              (include_test cfg)) as [tr [[path yaml]|e]]; cbn [fst snd].
  - rewrite !bind_trace. cbn [write_yaml_header emit fst snd].
    rewrite !in_app_iff. intros [H|[H|H]]; [now left; left | now left; right; left |].
    right. destruct H as [H|H].
    + apply emit_all_trace in H as [j [s [_ H]]]. cbn [Nat.add] in H.
      destruct (emit_capture_indexed _ _ _ _ _ _ _ _ H) as [c Hc].
      exists path, j, s, c. split; [exact Hc|].
      apply nth_error_In, valid_captures_spec in Hc as [Hin He].
      split; [exact Hin|]. split; [exact He | exact H].
    + destruct (snd (emit_all _ _ _ _ _ _ _)); destruct H.
  - intros H. now left.
Qed.

End ConvertProofs.

(* ================================================================== *)
(** * Rounding *)

Module RoundProofs.
Import Py.
Local Open Scope Q_scope.

Lemma round_half_even_close (t : Q) :
  Qabs (inject_Z (round_half_even t) - t) <= 1 # 2.
Proof.
  unfold round_half_even.
  pose proof (Qfloor_le t) as Hle. pose proof (Qlt_floor t) as Hlt.
  rewrite inject_Z_plus in Hlt. change (inject_Z 1) with 1 in Hlt.
  set (f := Qfloor t) in *.
  apply Qabs_Qle_condition.
  destruct (t - inject_Z f ?= 1 # 2) eqn:E.
  - apply Qeq_alt in E.
    destruct (Z.even f); rewrite ?inject_Z_plus; change (inject_Z 1) with 1;
      lra.
  - apply Qlt_alt in E. lra.
  - apply Qgt_alt in E. rewrite inject_Z_plus. change (inject_Z 1) with 1. lra.
Qed.

Lemma pow10_pos p : 0 < pow10 p.
Proof. unfold pow10. now apply Qpower_0_lt. Qed.

Lemma pow10_opp p : pow10 (- p) == / pow10 p.
Proof. unfold pow10. apply Qpower_opp. Qed.

(** [round(x, p)] is within half a unit of the last place of [x]. *)
Lemma round_close (x : Q) (p : Z) :
  Qabs (round x p - x) <= (1 # 2) * pow10 (- p).
Proof.
  unfold round. rewrite pow10_opp.
  pose proof (pow10_pos p) as Hs. set (s := pow10 p) in *.
  pose proof (round_half_even_close (x * s)) as H.
  set (r := inject_Z (round_half_even (x * s))) in *.
  assert (E : r / s - x == (r - x * s) * / s) by (field; lra).
  rewrite E, Qabs_Qmult, (Qabs_pos (/ s)).
  - apply Qmult_le_compat_r; [exact H|]. apply Qlt_le_weak. now apply Qinv_lt_0_compat.
  - apply Qlt_le_weak. now apply Qinv_lt_0_compat.
Qed.

(** Scaling the rounded quotient back: the error grows with the divisor. *)
Lemma round_quotient_close (a w : Q) (p : Z) :
  ~ w == 0 ->
  Qabs (round (a / w) p * w - a) <= (Qabs w / 2) * pow10 (- p).
Proof.
  intros Hw.
  assert (E : round (a / w) p * w - a == (round (a / w) p - a / w) * w)
    by (field; exact Hw).
  rewrite E, Qabs_Qmult.
  pose proof (round_close (a / w) p) as H.
  pose proof (Qabs_nonneg w) as Hn.
  apply Qmult_le_compat_r with (z := Qabs w) in H; [|exact Hn].
  eapply Qle_trans; [exact H|]. apply Qle_lteq. right. field.
Qed.

End RoundProofs.

(* ================================================================== *)
(** * Rounding to binary64 *)

Module FloatProofs.
Import Binary64 RoundProofs.
Local Open Scope Q_scope.

Lemma pow2_pos e : 0 < pow2 e.
Proof. unfold pow2. now apply Qpower_0_lt. Qed.

Lemma pow2_plus a b : pow2 (a + b) == pow2 a * pow2 b.
Proof. unfold pow2. apply Qpower_plus. discriminate. Qed.

Lemma pow2_le a b : (a <= b)%Z -> pow2 a <= pow2 b.
Proof. intros H. unfold pow2. apply Qpower_le_compat_l; [exact H|discriminate]. Qed.

Lemma pow2_inject e : (0 <= e)%Z -> pow2 e == inject_Z (2 ^ e).
Proof. intros H. unfold pow2. now rewrite Zpower_Qpower. Qed.

Lemma Qabs_cases (q : Q) :
  (0 <= q /\ Qabs q == q) \/ (q <= 0 /\ Qabs q == - q).
Proof.
  destruct (Qlt_le_dec q 0) as [H|H].
  - right. split; [lra|]. apply Qabs_neg. lra.
  - left. split; [exact H|]. now apply Qabs_pos.
Qed.

Lemma binade_spec (a : Q) :
  0 < a -> pow2 (binade a) <= a /\ a < pow2 (binade a + 1).
Proof.
  intros Ha. destruct a as [n d]. unfold binade. cbn [Qnum Qden].
  assert (Hn : (0 < n)%Z).
  { unfold Qlt in Ha. cbn in Ha. lia. }
  pose proof (Z.log2_spec n Hn) as [Hn1 Hn2].
  pose proof (Z.log2_spec (Zpos d) (Pos2Z.is_pos d)) as [Hd1 Hd2].
  pose proof (Z.log2_nonneg n) as Hln.
  pose proof (Z.log2_nonneg (Zpos d)) as Hld.
  set (ln := Z.log2 n) in *. set (ld := Z.log2 (Zpos d)) in *.
  assert (En : n # d == inject_Z n / inject_Z (Zpos d)) by apply Qmake_Qdiv.
  assert (Pd : 0 < inject_Z (Zpos d)) by (unfold Qlt; cbn; lia).
  assert (Ld : pow2 ld <= inject_Z (Zpos d)).
  { rewrite pow2_inject by exact Hld. rewrite <- Zle_Qle. exact Hd1. }
  assert (Ud : inject_Z (Zpos d) < pow2 (ld + 1)).
  { rewrite pow2_inject by lia. rewrite <- Zlt_Qlt. rewrite <- Z.add_1_r in Hd2. exact Hd2. }
  assert (Ln : pow2 ln <= inject_Z n).
  { rewrite pow2_inject by exact Hln. rewrite <- Zle_Qle. exact Hn1. }
  assert (Un : inject_Z n < pow2 (ln + 1)).
  { rewrite pow2_inject by lia. rewrite <- Zlt_Qlt. rewrite <- Z.add_1_r in Hn2. exact Hn2. }
  pose proof (pow2_pos ld) as Pld. pose proof (pow2_pos ln) as Pln.
  assert (Lo : pow2 (ln - ld - 1) <= n # d).
  { rewrite En. apply Qle_shift_div_l; [exact Pd|].
    replace (ln - ld - 1)%Z with (ln + - (ld + 1))%Z by lia.
    rewrite pow2_plus.
    assert (Ei : pow2 (- (ld + 1)) == / pow2 (ld + 1)) by apply Qpower_opp.
    rewrite Ei. pose proof (pow2_pos (ld + 1)) as P1.
    assert (E2 : pow2 ln * / pow2 (ld + 1) * inject_Z (Zpos d)
                 == pow2 ln * (inject_Z (Zpos d) / pow2 (ld + 1))) by (field; lra).
    rewrite E2.
    assert (H1 : inject_Z (Zpos d) / pow2 (ld + 1) <= 1).
    { apply Qle_shift_div_r; [exact P1|]. lra. }
    nra. }
  assert (Up : n # d < pow2 (ln - ld + 1)).
  { rewrite En. apply Qlt_shift_div_r; [exact Pd|].
    replace (ln - ld + 1)%Z with ((ln + 1) + - ld)%Z by lia.
    rewrite pow2_plus.
    assert (Ei : pow2 (- ld) == / pow2 ld) by apply Qpower_opp.
    rewrite Ei. pose proof (pow2_pos (ln + 1)) as P1.
    assert (E2 : pow2 (ln + 1) * / pow2 ld * inject_Z (Zpos d)
                 == pow2 (ln + 1) * (inject_Z (Zpos d) / pow2 ld)) by (field; lra).
    rewrite E2.
    assert (H1 : 1 <= inject_Z (Zpos d) / pow2 ld).
    { apply Qle_shift_div_l; [exact Pld|]. lra. }
    nra. }
  destruct (Qle_bool (pow2 (ln - ld)) (n # d)) eqn:E.
  - apply Qle_bool_iff in E. split; [exact E|exact Up].
  - split; [exact Lo|].
    replace (ln - ld - 1 + 1)%Z with (ln - ld)%Z by lia.
    apply Qnot_le_lt. intros H. apply Qle_bool_iff in H. congruence.
Qed.


(** Rounding to the nearest float: [|fl q - q| <= u |q| + eta]. *)
Lemma fl_magnitude (a : Q) :
  0 < a ->
  let e := Z.max (binade a - 52) (-1074) in
  Qabs (inject_Z (Py.round_half_even (a / pow2 e)) * pow2 e - a)
  <= unit_roundoff * a + tiny.
Proof.
  intros Ha e.
  pose proof (pow2_pos e) as Pe.
  pose proof (round_half_even_close (a / pow2 e)) as H.
  set (m := inject_Z (Py.round_half_even (a / pow2 e))) in *.
  assert (E : m * pow2 e - a == (m - a / pow2 e) * pow2 e) by (field; lra).
  rewrite E, Qabs_Qmult, (Qabs_pos (pow2 e)) by lra.
  apply Qmult_le_compat_r with (z := pow2 e) in H; [|lra].
  eapply Qle_trans; [exact H|].
  pose proof (binade_spec a Ha) as [Hb _].
  pose proof (pow2_pos (-1075)) as Pt.
  pose proof (pow2_pos (-53)) as Pu.
  unfold unit_roundoff, tiny.
  destruct (Z.max_spec (binade a - 52) (-1074)) as [[_ Hm]|[_ Hm]];
    fold e in Hm; rewrite Hm.
  - assert (E2 : (1 # 2) * pow2 (-1074) == pow2 (-1075)) by reflexivity.
    rewrite E2. nra.
  - replace (binade a - 52)%Z with ((-52) + binade a)%Z by lia.
    rewrite pow2_plus.
    assert (E2 : (1 # 2) * (pow2 (-52) * pow2 (binade a))
                 == pow2 (-53) * pow2 (binade a)).
    { assert (E3 : (1 # 2) * pow2 (-52) == pow2 (-53)) by reflexivity.
      rewrite Qmult_assoc, E3. reflexivity. }
    rewrite E2. nra.
Qed.

Lemma fl_error (q : Q) :
  Qabs (fl q - q) <= unit_roundoff * Qabs q + tiny.
Proof.
  unfold fl. destruct (Qeq_bool q 0) eqn:E0.
  - apply Qeq_bool_iff in E0. rewrite E0. vm_compute. discriminate.
  - assert (Hq : ~ q == 0).
    { intros H. apply Qeq_bool_iff in H. congruence. }
    assert (Ha : 0 < Qabs q).
    { destruct (Qabs_cases q) as [[H1 H2]|[H1 H2]]; rewrite H2; lra. }
    pose proof (fl_magnitude (Qabs q) Ha) as H. cbv zeta in H |- *.
    set (v := inject_Z _ * pow2 _) in *.
    destruct (Qle_bool 0 q) eqn:Es.
    + apply Qle_bool_iff in Es.
      assert (E : v - q == v - Qabs q) by (rewrite (Qabs_pos q Es); ring).
      rewrite E. exact H.
    + assert (Hn : q <= 0).
      { apply Qlt_le_weak, Qnot_le_lt. intros Hc. apply Qle_bool_iff in Hc. congruence. }
      assert (E : - v - q == - (v - Qabs q)) by (rewrite (Qabs_neg q Hn); ring).
      rewrite E, Qabs_opp. exact H.
Qed.


Lemma round_half_even_range (t : Q) (n : Z) :
  0 <= t -> t < inject_Z n ->
  (0 <= Py.round_half_even t <= n)%Z.
Proof.
  intros H0 Hn.
  pose proof (Qfloor_le t) as Hle. pose proof (Qlt_floor t) as Hlt.
  assert (Hf : (0 <= Qfloor t < n)%Z).
  { split.
    - assert (H : 0 < inject_Z (Qfloor t + 1)) by lra.
      change 0 with (inject_Z 0) in H. rewrite <- Zlt_Qlt in H. lia.
    - rewrite Zlt_Qlt. lra. }
  unfold Py.round_half_even.
  destruct (t - inject_Z (Qfloor t) ?= 1 # 2); [destruct (Z.even (Qfloor t))| |]; lia.
Qed.

(** The value of [fl] is a float: a significand of at most 53 bits at an
    exponent of at least -1074. *)
Lemma fl_significand (q : Q) :
  exists m e, fl q == inject_Z m * pow2 e
              /\ (Z.abs m <= 2 ^ 53)%Z /\ (-1074 <= e)%Z.
Proof.
  unfold fl. destruct (Qeq_bool q 0) eqn:E0.
  - exists 0%Z, 0%Z. split; [reflexivity|]. split; [vm_compute; discriminate|lia].
  - assert (Ha : 0 < Qabs q).
    { assert (Hq : ~ q == 0) by (intros H; apply Qeq_bool_iff in H; congruence).
      destruct (Qabs_cases q) as [[H1 H2]|[H1 H2]]; rewrite H2; lra. }
    cbv zeta. set (a := Qabs q) in *.
    set (e := Z.max (binade a - 52) (-1074)).
    pose proof (pow2_pos e) as Pe.
    pose proof (binade_spec a Ha) as [_ Hb].
    assert (Ht : a / pow2 e < inject_Z (2 ^ 53)).
    { apply Qlt_shift_div_r; [exact Pe|].
      rewrite <- pow2_inject by lia. rewrite <- pow2_plus.
      eapply Qlt_le_trans; [exact Hb|]. apply pow2_le. unfold e. lia. }
    assert (H0 : 0 <= a / pow2 e).
    { apply Qle_shift_div_l; [exact Pe|]. lra. }
    pose proof (round_half_even_range _ _ H0 Ht) as Hm.
    set (m := Py.round_half_even (a / pow2 e)) in *.
    destruct (Qle_bool 0 q).
    + exists m, e. split; [reflexivity|]. split; [lia|unfold e; lia].
    + exists (- m)%Z, e. split; [|split; [lia|unfold e; lia]].
      rewrite inject_Z_opp. ring.
Qed.
(** The float [0.1] is [3602879701896397 / 2^55]. *)
Lemma fl_tenth : fl (1 # 10) == 3602879701896397 # 36028797018963968.
Proof. reflexivity. Qed.

(** Where the two arithmetics part: [round(1 / 640, 6)] is [0.001563], for
    the float [1 / 640] lies above [0.0015625]; the decimal nearest to the
    exact quotient, ties to even, is [0.001562]. *)
Lemma round_of_float_quotient :
  round (fl (1 # 640)) 6 == fl (1563 # 1000000)
  /\ Py.round (1 # 640) 6 == 1562 # 1000000.
Proof. split; reflexivity. Qed.

Ltac numeral t :=
  let v := eval vm_compute in t in change t with v in *.

Lemma scaled_error (a b k w : Q) :
  Qabs (a - b) <= k -> Qabs (a * w - b * w) <= k * Qabs w.
Proof.
  intros H. assert (E : a * w - b * w == (a - b) * w) by ring.
  rewrite E, Qabs_Qmult. apply Qmult_le_compat_r; [exact H|apply Qabs_nonneg].
Qed.

Lemma Qabs_bounds (q : Q) : q <= Qabs q /\ - q <= Qabs q.
Proof. destruct (Qabs_cases q) as [[H E]|[H E]]; rewrite E; lra. Qed.

(** The way back from the rounded centre. *)
Lemma centre_close (x bw w : Q) (p : Z) :
  1 <= Qabs w ->
  Qabs (round (fl (fl (x + fl (bw / 2)) / w)) p * w - bw / 2 - x)
  <= tolerance w x bw p.
Proof.
  intros Hw.
  assert (Hw0 : ~ w == 0).
  { intros E. rewrite E in Hw. vm_compute in Hw. now apply Hw. }
  unfold tolerance, round.
  pose proof (fl_error (bw / 2)) as H1.
  assert (Eb : Qabs (bw / 2) == Qabs bw * (1 # 2)).
  { unfold Qdiv. rewrite Qabs_Qmult. reflexivity. }
  rewrite Eb in H1. clear Eb.
  set (a := fl (bw / 2)) in *.
  pose proof (fl_error (x + a)) as H2.
  set (s := fl (x + a)) in *.
  pose proof (scaled_error _ _ _ w (fl_error (s / w))) as H3.
  assert (Es : s / w * w == s) by (field; exact Hw0).
  assert (Es' : Qabs (s / w) * Qabs w == Qabs s) by (rewrite <- Qabs_Qmult, Es; reflexivity).
  rewrite Es in H3.
  assert (E3 : (unit_roundoff * Qabs (s / w) + tiny) * Qabs w
               == unit_roundoff * Qabs s + tiny * Qabs w).
  { rewrite <- Es'. ring. }
  rewrite E3 in H3. clear E3 Es Es'.
  set (q := fl (s / w)) in *.
  pose proof (scaled_error _ _ _ w (round_close q p)) as H4.
  set (r := Py.round q p) in *.
  pose proof (scaled_error _ _ _ w (fl_error r)) as H5.
  assert (E5 : (unit_roundoff * Qabs r + tiny) * Qabs w
               == unit_roundoff * Qabs (r * w) + tiny * Qabs w).
  { rewrite Qabs_Qmult. ring. }
  rewrite E5 in H5. clear E5.
  set (c := fl r) in *.
  pose proof (pow10_pos (- p)) as HP. set (P := Py.pow10 (- p)) in *.
  set (cw := c * w) in *. set (rw := r * w) in *. set (qw := q * w) in *.
  pose proof (Qabs_bounds x) as [Hx1 Hx2].
  pose proof (Qabs_bounds bw) as [Hb1 Hb2].
  set (W := Qabs w) in *. set (X := Qabs x) in *. set (B := Qabs bw) in *.
  assert (HT : 0 <= P * W) by (apply Qmult_le_0_compat; lra).
  apply Qabs_Qle_condition in H1, H2, H3, H4, H5.
  apply Qabs_Qle_condition.
  set (T := P * W) in *.
  assert (ET : W * ((1 # 2) * P * (1 + unit_roundoff) + pow2 (-1070))
               == (1 # 2) * (1 + unit_roundoff) * T + pow2 (-1070) * W).
  { unfold T. ring. }
  rewrite ET. clear ET.
  assert (ET4 : (1 # 2) * P * W == (1 # 2) * T) by (unfold T; ring).
  rewrite ET4 in H4. clear ET4.
  numeral unit_roundoff. numeral tiny. numeral (pow2 (-1070)).
  assert (Eh : bw / 2 == bw * (1 # 2)) by reflexivity.
  set (hb := bw / 2) in *.
  destruct (Qabs_cases (x + a)) as [[Ha1 Ha2]|[Ha1 Ha2]];
    destruct (Qabs_cases s) as [[Hs1 Hs2]|[Hs1 Hs2]];
    destruct (Qabs_cases rw) as [[Hr1 Hr2]|[Hr1 Hr2]];
    rewrite Ha2 in H2; rewrite Hs2 in H3; rewrite Hr2 in H5;
    split; lra.
Qed.

End FloatProofs.

(* ================================================================== *)
(** * Bounding box normalization *)

Module BoxProofs.
Import Convert BoxSpec RoundProofs FloatProofs.
Local Open Scope Q_scope.

Lemma truediv_nonzero (a w : Q) : ~ w == 0 -> Py.truediv a w = Ok (a / w).
Proof.
  intros Hw. unfold Py.truediv. destruct (Qeq_bool w 0) eqn:E; [|reflexivity].
  apply Qeq_bool_iff in E. contradiction.
Qed.

Lemma normalized_box_value (bb : BoundingBox2D.t) (w h : Q) (p : Z)
      (x y bw bh : Q) :
  BoundingBox2D.origin bb = [x; y] ->
  BoundingBox2D.dimension bb = [bw; bh] ->
  ~ w == 0 -> ~ h == 0 ->
  normalized_box bb w h p
  = Ok (Py.round ((x + bw / 2) / w) p, Py.round ((y + bh / 2) / h) p,
        Py.round (bw / w) p, Py.round (bh / h) p).
Proof.
  intros Ho Hd Hw Hh. unfold normalized_box. rewrite Ho, Hd.
  cbn [index nth_error bind]. now rewrite !truediv_nonzero by assumption.
Qed.

Lemma float_truediv_nonzero (a w : Q) :
  ~ w == 0 -> Binary64.truediv a w = Ok (Binary64.fl (a / w)).
Proof.
  intros Hw. unfold Binary64.truediv.
  destruct (Qeq_bool w 0) eqn:E; [|reflexivity].
  apply Qeq_bool_iff in E. contradiction.
Qed.

Lemma float_box_value (bb : BoundingBox2D.t) (w h : Q) (p : Z)
      (x y bw bh : Q) :
  BoundingBox2D.origin bb = [x; y] ->
  BoundingBox2D.dimension bb = [bw; bh] ->
  ~ w == 0 -> ~ h == 0 ->
  Binary64.normalized_box bb w h p
  = Ok (Binary64.round
          (Binary64.fl (Binary64.fl (x + Binary64.fl (bw / 2)) / w)) p,
        Binary64.round
          (Binary64.fl (Binary64.fl (y + Binary64.fl (bh / 2)) / h)) p,
        Binary64.round (Binary64.fl (bw / w)) p,
        Binary64.round (Binary64.fl (bh / h)) p).
Proof.
  intros Ho Hd Hw Hh. unfold Binary64.normalized_box. rewrite Ho, Hd.
  cbn [index nth_error bind].
  rewrite (float_truediv_nonzero bw 2) by discriminate.
  rewrite (float_truediv_nonzero bh 2) by discriminate.
  cbn [bind]. unfold Binary64.add.
  now rewrite !float_truediv_nonzero by assumption.
Qed.

(** Both arithmetics raise, or return, on the same boxes. *)
Lemma float_box_outcome (bb : BoundingBox2D.t) (w h : Q) (p : Z) (e : exn) :
  Binary64.normalized_box bb w h p = Raise e
  <-> normalized_box bb w h p = Raise e.
Proof.
  unfold Binary64.normalized_box, normalized_box, Binary64.truediv,
    Py.truediv.
  destruct (index (BoundingBox2D.origin bb) 0); cbn [bind]; [|reflexivity].
  destruct (index (BoundingBox2D.dimension bb) 0); cbn [bind]; [|reflexivity].
  change (Qeq_bool 2 0) with false. cbn [bind].
  destruct (Qeq_bool w 0); cbn [bind]; [reflexivity|].
  destruct (index (BoundingBox2D.origin bb) 1); cbn [bind]; [|reflexivity].
  destruct (index (BoundingBox2D.dimension bb) 1); cbn [bind]; [|reflexivity].
  destruct (Qeq_bool h 0); cbn [bind]; [reflexivity|].
  split; discriminate.
Qed.

Lemma nonzero_of_magnitude (w : Q) : 1 <= Qabs w -> ~ w == 0.
Proof. intros Hw E. rewrite E in Hw. vm_compute in Hw. now apply Hw. Qed.

(** The bound of the exact arithmetic, half a unit of the last decimal
    times the image dimension, is exceeded on floats: a box of no width at
    [x = 8659881651478179 / 2^52] of an image 1920 wide, precision 6. *)
Lemma exact_tolerance_exceeded :
  let x := 8659881651478179 # 4503599627370496 in
  Binary64.representable x
  /\ ~ Qabs (Binary64.round
               (Binary64.fl (Binary64.fl (x + Binary64.fl (0 / 2)) / 1920)) 6
             * 1920 - 0 / 2 - x)
       <= Qabs 1920 / 2 * Py.pow10 (-6).
Proof.
  cbv zeta. split.
  - split; vm_compute; [reflexivity|discriminate].
  - intros H. vm_compute in H. apply H. reflexivity.
Qed.

(** C3, as the specification states it, fails: for the 50 x 20 box at
    (100, 50) of a 1920 x 1080 image and precision 6, all of them floats,
    the emitted centre maps back to an origin that misses (100, 50) by more
    than [10^-6]. *)
Lemma bbox_round_trip_counterexample :
  Forall Binary64.representable [100; 50; 50; 20; 1920; 1080]
  /\ exists box,
      Binary64.normalized_box Sample.box1 1920 1080 6 = Ok box
      /\ ~ round_trip_within (Py.pow10 (-6)) (Py.pow10 (-6)) 1920 1080
                             Sample.box1 box.
Proof.
  split.
  - repeat constructor; vm_compute; try reflexivity; discriminate.
  - eexists. split; [vm_compute; reflexivity|].
    unfold round_trip_within. intros [H _]. vm_compute in H. apply H.
    reflexivity.
Qed.

(** C3, amended. For an image of dimension [w, h], at least 1 in magnitude,
    and a box of origin [x, y] and dimension [bw, bh], all of them floats of
    magnitude at most [2^1000], the values computed in binary64 exist, and
    mapping the centre back gives the origin within half a unit of the last
    emitted decimal times the image dimension, and the rounding of the
    float operations: with [u = 2^-53],
    [|cx*w - bw/2 - x| <= |w| * (10^-precision / 2 * (1 + u) + 2^-1070)
                          + 8 * u * (|x| + |bw|)],
    and the same for [cy], [h], [y] and [bh]. *)
Theorem bbox_round_trip (bb : BoundingBox2D.t) (w h : Q) (p : Z)
        (x y bw bh : Q) :
  BoundingBox2D.origin bb = [x; y] ->
  BoundingBox2D.dimension bb = [bw; bh] ->
  Forall Binary64.representable [x; y; bw; bh; w; h] ->
  1 <= Qabs w -> 1 <= Qabs h ->
  exists box,
    Binary64.normalized_box bb w h p = Ok box
    /\ round_trip_within (Binary64.tolerance w x bw p)
                         (Binary64.tolerance h y bh p) w h bb box.
Proof.
  intros Ho Hd _ Hw Hh. eexists. split.
  - exact (float_box_value bb w h p x y bw bh Ho Hd
             (nonzero_of_magnitude w Hw) (nonzero_of_magnitude h Hh)).
  - unfold round_trip_within, coordinate. rewrite Ho, Hd. cbn [nth]. split.
    + now apply centre_close.
    + now apply centre_close.
Qed.

(** The sample box on a 1920 x 1080 image. *)
Lemma bbox_round_trip_witness :
  exists box,
    Binary64.normalized_box Sample.box1 1920 1080 6 = Ok box
    /\ round_trip_within (Binary64.tolerance 1920 100 50 6)
                         (Binary64.tolerance 1080 50 20 6) 1920 1080
                         Sample.box1 box.
Proof.
  apply (bbox_round_trip Sample.box1 1920 1080 6 100 50 50 20);
    [reflexivity | reflexivity | | discriminate | discriminate].
  repeat constructor; vm_compute; try reflexivity; discriminate.
Defined.

End BoxProofs.

(* ================================================================== *)
(** * Keypoint annotations *)

Module KeypointProofs.
Import Convert BoxSpec KeypointSpec BoxProofs.

Lemma index_coordinate (l : list Q) (k : nat) :
  (k < List.length l)%nat -> index l k = Ok (coordinate l k).
Proof.
  intros H. unfold index, coordinate.
  destruct (nth_error l k) as [a|] eqn:E.
  - now rewrite (nth_error_nth _ _ _ E).
  - apply nth_error_None in E. lia.
Qed.

Lemma normalized_box_coordinates (bb : BoundingBox2D.t) (w h : Q) (p : Z) :
  (2 <= List.length (BoundingBox2D.origin bb))%nat ->
  (2 <= List.length (BoundingBox2D.dimension bb))%nat ->
  ~ (w == 0)%Q -> ~ (h == 0)%Q ->
  let x := coordinate (BoundingBox2D.origin bb) 0 in
  let y := coordinate (BoundingBox2D.origin bb) 1 in
  let bw := coordinate (BoundingBox2D.dimension bb) 0 in
  let bh := coordinate (BoundingBox2D.dimension bb) 1 in
  normalized_box bb w h p
  = Ok (Py.round ((x + bw / 2) / w) p, Py.round ((y + bh / 2) / h) p,
        Py.round (bw / w) p, Py.round (bh / h) p)%Q.
Proof.
  intros Ho Hd Hw Hh. cbn zeta. unfold normalized_box.
  rewrite !index_coordinate by lia. cbn [bind].
  now rewrite !truediv_nonzero by assumption.
Qed.

Section WithCollaborators.
Context (X : collaborators).


Lemma keypoint_text_triple (k : Keypoint.t) (w h : Q) (p : Z) :
  (2 <= List.length (Keypoint.location k))%nat ->
  ~ (w == 0)%Q -> ~ (h == 0)%Q ->
  keypoint_text X k w h p = Ok (triple X w h p k).
Proof.
  intros Hl Hw Hh. unfold keypoint_text, triple, vis.
  rewrite !index_coordinate by lia. cbn [bind].
  rewrite !truediv_nonzero by assumption. cbn [bind].
  destruct (Z.eqb_spec (Keypoint.state k) 2), (Z.eq_dec (Keypoint.state k) 2);
    try contradiction; reflexivity.
Qed.

Lemma keypoint_texts (ks : list Keypoint.t) (w h : Q) (p : Z) :
  Forall (fun k => (2 <= List.length (Keypoint.location k))%nat) ks ->
  ~ (w == 0)%Q -> ~ (h == 0)%Q ->
  for_each (fun keypoint => t <- keypoint_text X keypoint w h p ;; Ok [t]) ks
  = Ok (map (triple X w h p) ks).
Proof.
  intros H Hw Hh. induction H as [|k ks Hk _ IH]; cbn [for_each map];
    [reflexivity|].
  rewrite keypoint_text_triple by assumption. cbn [bind]. rewrite IH.
  reflexivity.
Qed.

(** C7. On a capture of nonzero dimension [w, h] with boxes and keypoint
    entries, [get_keypoint_annotations] returns, in the order of the boxes,
    one line per box whose instance has a keypoint entry, built from the
    first such entry: [label_id cx cy w h], a space, and the triples
    [kx ky vis] of the keypoints, [kx] and [ky] normalized by [w] and [h]
    and [vis] equal to 1 exactly when the state is 2.  Boxes without a
    keypoint entry contribute no line and raise nothing, whatever their
    content. *)
Theorem keypoint_lines {Raw : Type} (c : Capture.t Raw) (p : Z) (w h : Q)
        (boxes : list BoundingBox2D.t) (kps : list KeypointValue.t) :
  Capture.dimension c = [w; h] ->
  ~ (w == 0)%Q -> ~ (h == 0)%Q ->
  Capture.bounding_boxes_2d c = Some (BoundingBox2DAnnotation.mk boxes) ->
  Capture.keypoints c = Some (KeypointAnnotation.mk kps) ->
  Forall (well_formed kps) boxes ->
  get_keypoint_annotations X c p = Ok (lines X w h p boxes kps)
  /\ (forall k, vis k = 1 <-> Keypoint.state k = 2)
  /\ (forall k, vis k = 0 <-> Keypoint.state k <> 2).
Proof.
  intros Hdim Hw Hh Hb Hk Hwf. split.
  - unfold get_keypoint_annotations. rewrite Hdim, Hb, Hk.
    cbn [index nth_error bind getattr BoundingBox2DAnnotation.values
           KeypointAnnotation.values].
    clear Hb. unfold lines. induction Hwf as [|bb boxes Hbb _ IH];
      cbn [for_each flat_map]; [reflexivity|].
    rewrite IH. unfold well_formed, keypoints_of in *.
    destruct (find _ kps) as [kp|]; cbn [bind]; [|reflexivity].
    destruct (Hbb kp eq_refl) as [Ho [Hd Hl]].
    rewrite normalized_box_coordinates by assumption. cbn [bind].
    rewrite keypoint_texts by assumption. cbn [bind].
    reflexivity.
  - unfold vis. split; intros k; destruct (Z.eq_dec (Keypoint.state k) 2);
      split; intros; congruence || lia || discriminate.
Qed.

End WithCollaborators.

End KeypointProofs.

Module KeypointWitness.
Import Convert KeypointSpec.

Lemma sample_boxes_well_formed :
  Forall (well_formed [Sample.keypoints2]) [Sample.box1; Sample.box2].
Proof.
  constructor; [|constructor; [|constructor]]; intros kp H; vm_compute in H.
  - discriminate.
  - injection H as <-. cbn. repeat constructor.
Qed.

(** Boxes for the instances 1 and 2, keypoints for instance 2 only: the
    keypoint output is the one line of instance 2. *)
Lemma keypoint_lines_witness :
  get_keypoint_annotations Sample.collaborators Sample.capture 6
  = Ok (lines Sample.collaborators 1920 1080 6 [Sample.box1; Sample.box2]
              [Sample.keypoints2])
  /\ lines Sample.collaborators 1920 1080 6 [Sample.box1; Sample.box2]
           [Sample.keypoints2]
     = [line Sample.collaborators 1920 1080 6 Sample.box2 Sample.keypoints2].
Proof.
  split; [|reflexivity].
  apply (KeypointProofs.keypoint_lines Sample.collaborators Sample.capture 6
           1920 1080 [Sample.box1; Sample.box2] [Sample.keypoints2]);
    [reflexivity | discriminate | discriminate | reflexivity | reflexivity
    | exact sample_boxes_well_formed].
Defined.

End KeypointWitness.

(* ================================================================== *)
(** * Per-capture emission *)

Module EmissionProofs.
Import Convert ConvertSpec EmissionSpec IOFacts ConvertProofs.

Section WithCollaborators.
Context (X : collaborators) {Raw : Type}.
Implicit Types (cfg : config) (u : UnityData.t Raw) (c : Capture.t Raw).

Lemma find_occlusion_metric_error u c e :
  find_occlusion_metric u c = Raise e -> lookup_failure e.
Proof.
  unfold find_occlusion_metric, Dict.lookup, lookup_failure.
  destruct (Dict.get _ _ _) as [ms|]; cbn [bind]; [|intros [= <-]; now left].
  destruct (find _ ms); cbn; [discriminate | intros [= <-]; now right].
Qed.

Lemma find_occlusion_metric_missing u c :
  no_occlusion_metric u c -> exists e, find_occlusion_metric u c = Raise e.
Proof.
  unfold no_occlusion_metric, find_occlusion_metric, Dict.lookup. intros H.
  destruct (Dict.get _ _ _) as [ms|]; cbn [bind]; [|now eexists].
  destruct (find _ ms) as [m|] eqn:E; cbn; [|now eexists].
  apply find_some in E as [Hin Hid]. apply String.eqb_eq in Hid.
  now destruct (H ms eq_refl m Hin).
Qed.

Lemma find_occlusion_metric_found u c o :
  find_occlusion_metric u c = Ok o ->
  exists metrics m,
    Dict.get Z.eqb (Capture.sequence c) (UnityData.metrics_by_sequence u)
    = Some metrics
    /\ find (fun metric => String.eqb (Metric.id metric) "Occlusion") metrics
       = Some m
    /\ o = Metric.occlusion_metric m.
Proof.
  unfold find_occlusion_metric, Dict.lookup.
  destruct (Dict.get _ _ _) as [ms|]; cbn [bind]; [|discriminate].
  destruct (find _ ms) as [m|] eqn:E; cbn; [|discriminate].
  intros [= <-]. exists ms, m. now repeat split.
Qed.

Lemma annotation_steps_ok cfg c :
  annotations_ok X cfg c -> exists r, annotation_steps X cfg c = Ok r.
Proof.
  intros [Hb [Hk Hs]]. unfold annotation_steps.
  destruct (include_bboxes cfg), (include_keypoints cfg); cbn [andb negb];
    try (destruct (Hb eq_refl eq_refl) as [lb ->]);
    try (destruct (Hk eq_refl) as [lk ->]); cbn [bind];
    destruct (include_segmentation cfg);
    try (destruct (Hs eq_refl) as [ls ->]); cbn [bind]; now eexists.
Qed.

(** What one iteration does, step by step. *)
Lemma emit_capture_unfold cfg u path valid i s c :
  nth_error valid i = Some c ->
  emit_capture X cfg u path valid i s
  = match annotation_steps X cfg c with
    | Raise e => ([image_file path s i c], Raise e)
    | Ok r =>
        match find_occlusion_metric u c with
        | Raise e =>
            (image_file path s i c :: annotation_files path s i r, Raise e)
        | Ok o =>
            (image_file path s i c :: annotation_files path s i r
               ++ occlusion_files X cfg path s i o
               ++ mask_files cfg path s i c, Ok tt)
        end
    end.
Proof.
  intros Hc. unfold emit_capture, index, annotation_steps. rewrite Hc.
  cbn [lift io_bind emit app].
  destruct (if include_bboxes cfg && negb (include_keypoints cfg)
            then get_bbox_annotations X c (precision cfg) else Ok [])
    as [b|e]; cbn [bind lift io_bind app]; [|reflexivity].
  destruct (if include_keypoints cfg
            then get_keypoint_annotations X c (precision cfg) else Ok [])
    as [k|e]; cbn [bind lift io_bind app]; [|reflexivity].
  destruct (if include_segmentation cfg
            then get_segmentation_annotations X c (precision cfg) else Ok [])
    as [g|e]; cbn [bind lift io_bind app]; [|reflexivity].
  unfold annotation_files, occlusion_files, mask_files, image_file,
    write_annotations, when, output_file, occlusion_line, occlusion_text.
  destruct b, k, g; cbn [is_empty negb emit io_ret io_bind app];
    (destruct (find_occlusion_metric u c) as [[om|]|e];
     cbn [lift io_bind app]; [| |reflexivity];
     destruct (include_occlusion cfg); try destruct (OcclusionMetric.values om);
     cbn [emit io_ret io_bind app];
     destruct (include_semantic_mask cfg);
     try destruct (Capture.semantic_segmentation c);
     cbn [emit io_ret io_bind app];
     rewrite ?List.app_nil_r; reflexivity).
Qed.

(** A successful loop ran every iteration successfully, and kept its
    events. *)
Lemma emit_all_ok cfg u path valid i split :
  snd (emit_all X cfg u path valid i split) = Ok tt ->
  forall j s, nth_error split j = Some s ->
    snd (emit_capture X cfg u path valid (i + j) s) = Ok tt
    /\ incl (fst (emit_capture X cfg u path valid (i + j) s))
            (fst (emit_all X cfg u path valid i split)).
Proof.
  revert i. induction split as [|s0 rest IH]; intros i; cbn [emit_all].
  - intros _ [|j] s; discriminate.
  - rewrite bind_result, bind_trace.
    destruct (snd (emit_capture X cfg u path valid i s0)) as [[]|e] eqn:E;
      [|discriminate].
    intros Hrest [|j] s; cbn [nth_error].
    + intros [= <-]. rewrite Nat.add_0_r. split; [exact E|].
      now apply incl_appl, incl_refl.
    + intros Hj. destruct (IH (S i) Hrest j s Hj) as [Hok Hin].
      rewrite Nat.add_succ_r. split; [exact Hok|].
      now apply incl_appr.
Qed.

(** A loop with a failing iteration fails, with the failure of its first
    failing iteration. *)
Lemma emit_all_first_failure (Q : exn -> Prop) cfg u path valid i split j s e0 :
  nth_error split j = Some s ->
  snd (emit_capture X cfg u path valid (i + j) s) = Raise e0 ->
  (forall j' s' e, (j' <= j)%nat -> nth_error split j' = Some s' ->
     snd (emit_capture X cfg u path valid (i + j') s') = Raise e -> Q e) ->
  exists e, snd (emit_all X cfg u path valid i split) = Raise e /\ Q e.
Proof.
  revert i j. induction split as [|s0 rest IH]; intros i j; cbn [emit_all].
  - destruct j; discriminate.
  - intros Hj He HQ. rewrite bind_result.
    destruct (snd (emit_capture X cfg u path valid i s0)) as [[]|e] eqn:E.
    + destruct j as [|j]; cbn [nth_error] in Hj.
      * injection Hj as <-. rewrite Nat.add_0_r in He. congruence.
      * rewrite Nat.add_succ_r in He.
        apply (IH (S i) j Hj He). intros j' s' e Hle Hj' He'.
        apply (HQ (S j') s' e); [lia | exact Hj' |].
        now rewrite Nat.add_succ_r.
    + exists e. split; [reflexivity|].
      apply (HQ 0%nat s0 e); [lia | reflexivity |]. now rewrite Nat.add_0_r.
Qed.

Lemma emit_all_failure cfg u path valid i split j s e0 :
  nth_error split j = Some s ->
  snd (emit_capture X cfg u path valid (i + j) s) = Raise e0 ->
  exists e, snd (emit_all X cfg u path valid i split) = Raise e.
Proof.
  intros Hj He.
  destruct (emit_all_first_failure (fun _ => True) cfg u path valid i split
              j s e0 Hj He) as [e [H _]]; [easy | now exists e].
Qed.

(** An iteration whose capture has no "Occlusion" metric fails; when its
    annotation steps succeed, it fails with the failure of the lookup. *)
Lemma emit_capture_missing cfg u path valid i s c :
  nth_error valid i = Some c -> no_occlusion_metric u c ->
  exists e, snd (emit_capture X cfg u path valid i s) = Raise e.
Proof.
  intros Hc Hno. rewrite (emit_capture_unfold cfg u path valid i s c Hc).
  destruct (annotation_steps X cfg c) as [r|e]; [|now exists e].
  destruct (find_occlusion_metric_missing u c Hno) as [e ->]. now exists e.
Qed.

Lemma emit_capture_failure cfg u path valid i s c e :
  nth_error valid i = Some c -> annotations_ok X cfg c ->
  snd (emit_capture X cfg u path valid i s) = Raise e ->
  lookup_failure e.
Proof.
  intros Hc Hok. rewrite (emit_capture_unfold cfg u path valid i s c Hc).
  destruct (annotation_steps_ok cfg c Hok) as [r ->].
  destruct (find_occlusion_metric u c) as [o|e'] eqn:E; cbn [snd];
    [discriminate|].
  intros [= <-]. now apply find_occlusion_metric_error in E.
Qed.

(** The conversion once the configuration check has passed. *)
Lemma unity_to_yolo_unfold fs u output_path cfg tr path yaml :
  include_keypoints cfg && is_none (n_keypoints cfg) = false ->
  DataDirectory.create_yolo_data_dir X fs output_path (include_test cfg)
  = (tr, Ok (path, yaml)) ->
  let loop := emit_all X cfg u path (valid_captures cfg u) 0
                       (split_tags X cfg u) in
  snd (unity_to_yolo X fs u output_path cfg)
  = match snd loop with Ok _ => Ok yaml | Raise e => Raise e end
  /\ incl (fst loop) (fst (unity_to_yolo X fs u output_path cfg)).
Proof.
  intros Hcfg Hdir loop. subst loop. unfold unity_to_yolo.
  rewrite Hcfg, Hdir. fold (split_tags X cfg u).
  cbn [io_bind write_yaml_header emit app].
  destruct (emit_all X cfg u path (valid_captures cfg u) 0
                     (split_tags X cfg u)) as [tr' [[]|e]];
    cbn [io_bind io_ret fst snd].
  - split; [reflexivity|]. rewrite List.app_nil_r.
    intros ev H. apply in_or_app. right. now right.
  - split; [reflexivity|].
    intros ev H. apply in_or_app. right. now right.
Qed.

(** The conversion fails as soon as the loop fails for every output
    directory. *)
Lemma unity_to_yolo_failure fs u output_path cfg :
  (forall path, exists e,
      snd (emit_all X cfg u path (valid_captures cfg u) 0
                    (split_tags X cfg u)) = Raise e) ->
  exists e, snd (unity_to_yolo X fs u output_path cfg) = Raise e.
Proof.
  intros H.
  destruct (include_keypoints cfg && is_none (n_keypoints cfg)) eqn:Hcfg.
  - unfold unity_to_yolo. rewrite Hcfg. now eexists.
  - destruct (DataDirectory.create_yolo_data_dir X fs output_path
                (include_test cfg)) as [tr [[path yaml]|e]] eqn:Hdir.
    + destruct (unity_to_yolo_unfold fs u output_path cfg tr path yaml
                  Hcfg Hdir) as [-> _].
      destruct (H path) as [e ->]. now exists e.
    + unfold unity_to_yolo. rewrite Hcfg, Hdir. now exists e.
Qed.

Local Abbreviation header cfg u yaml :=
  (WriteFile yaml
     (yaml_header X yaml u (include_keypoints cfg) (n_keypoints cfg)
                  (flip_idx cfg) (include_test cfg))).

Lemma emit_capture_out_of_range cfg (u : UnityData.t Raw) path valid i s :
  nth_error valid i = None ->
  emit_capture X cfg u path valid i s = ([], Raise IndexError).
Proof. intros H. unfold emit_capture, index. now rewrite H. Qed.

(** The events of an iteration reached without failure are part of the
    trace of the loop, and its failure is the failure of the loop. *)
Lemma emit_all_reached cfg (u : UnityData.t Raw) path valid i split j s :
  nth_error split j = Some s ->
  (forall j' s', (j' < j)%nat -> nth_error split j' = Some s' ->
     snd (emit_capture X cfg u path valid (i + j') s') = Ok tt) ->
  incl (fst (emit_capture X cfg u path valid (i + j) s))
       (fst (emit_all X cfg u path valid i split))
  /\ forall e, snd (emit_capture X cfg u path valid (i + j) s) = Raise e ->
               snd (emit_all X cfg u path valid i split) = Raise e.
Proof.
  revert i j. induction split as [|s0 rest IH]; intros i j Hj Hbefore.
  - destruct j; discriminate.
  - cbn [emit_all]. rewrite bind_trace, bind_result. destruct j as [|j].
    + injection Hj as <-. rewrite Nat.add_0_r. split.
      * intros ev H. apply in_or_app. now left.
      * now intros e ->.
    + cbn [nth_error] in Hj.
      pose proof (Hbefore 0%nat s0 ltac:(lia) eq_refl) as H0.
      rewrite Nat.add_0_r in H0. rewrite H0.
      destruct (IH (S i) j Hj) as [Hincl Herr].
      { intros j' s' Hlt Hs'.
        replace (S i + j')%nat with (i + S j')%nat by lia.
        apply Hbefore; [lia | exact Hs']. }
      replace (S i + j)%nat with (i + S j)%nat in * by lia. split.
      * intros ev H. apply in_or_app. right. now apply Hincl.
      * exact Herr.
Qed.

Lemma unity_to_yolo_trace fs (u : UnityData.t Raw) output_path cfg tr path
      yaml :
  include_keypoints cfg && is_none (n_keypoints cfg) = false ->
  DataDirectory.create_yolo_data_dir X fs output_path (include_test cfg)
  = (tr, Ok (path, yaml)) ->
  let loop := emit_all X cfg u path (valid_captures cfg u) 0
                       (split_tags X cfg u) in
  fst (unity_to_yolo X fs u output_path cfg)
  = tr ++ header cfg u yaml :: fst loop
  /\ snd (unity_to_yolo X fs u output_path cfg)
     = match snd loop with Ok _ => Ok yaml | Raise e => Raise e end.
Proof.
  intros Hcfg Hdir loop. subst loop. unfold unity_to_yolo.
  rewrite Hcfg, Hdir. fold (split_tags X cfg u).
  cbn [io_bind write_yaml_header emit app].
  destruct (emit_all X cfg u path (valid_captures cfg u) 0
                     (split_tags X cfg u)) as [tr' [[]|e]];
    cbn [io_bind io_ret fst snd]; rewrite ?List.app_nil_r; now split.
Qed.

End WithCollaborators.

End EmissionProofs.

(* ================================================================== *)
(** * The occlusion metric of a capture *)

Module OcclusionProofs.
Import Convert ConvertSpec EmissionSpec IOFacts EmissionProofs.

Section WithCollaborators.
Context (X : collaborators) {Raw : Type}.
Implicit Types (cfg : config) (u : UnityData.t Raw) (c : Capture.t Raw).

Lemma missing_metric_aborts fs u output_path cfg i s c :
  nth_error (valid_captures cfg u) i = Some c ->
  nth_error (split_tags X cfg u) i = Some s ->
  no_occlusion_metric u c ->
  exists e, snd (unity_to_yolo X fs u output_path cfg) = Raise e.
Proof.
  intros Hc Hs Hno. apply unity_to_yolo_failure. intros path.
  destruct (emit_capture_missing X cfg u path (valid_captures cfg u) i s c
              Hc Hno) as [e0 He0].
  now apply (emit_all_failure X cfg u path (valid_captures cfg u) 0
               (split_tags X cfg u) i s e0).
Qed.

(** C1. With occlusion output requested: a capture that is emitted (it is
    valid and the split gives it a tag) and whose sequence has no metric
    with id "Occlusion" makes the conversion fail; and for every capture
    whose iteration is reached and completes, whether the conversion
    succeeds afterwards or not, the sequence of the capture has such a
    metric, and when that metric carries occlusion values, the file
    [{split}/{i}_occlusion.txt] under the output directory is written with
    one line [instance_id percent_visible] per value. *)
Theorem occlusion_emission (fs : filesystem) (u : UnityData.t Raw)
        (output_path : string) (cfg : config) :
  include_occlusion cfg = true ->
  (forall i s c,
      nth_error (valid_captures cfg u) i = Some c ->
      nth_error (split_tags X cfg u) i = Some s ->
      no_occlusion_metric u c ->
      exists e, snd (unity_to_yolo X fs u output_path cfg) = Raise e)
  /\ (forall tr path yaml i s c,
        include_keypoints cfg && is_none (n_keypoints cfg) = false ->
        DataDirectory.create_yolo_data_dir X fs output_path
          (include_test cfg) = (tr, Ok (path, yaml)) ->
        nth_error (valid_captures cfg u) i = Some c ->
        nth_error (split_tags X cfg u) i = Some s ->
        (forall j s', (j < i)%nat ->
           nth_error (split_tags X cfg u) j = Some s' ->
           snd (emit_capture X cfg u path (valid_captures cfg u) j s')
           = Ok tt) ->
        snd (emit_capture X cfg u path (valid_captures cfg u) i s) = Ok tt ->
        exists metrics m,
          Dict.get Z.eqb (Capture.sequence c)
                   (UnityData.metrics_by_sequence u) = Some metrics
          /\ find (fun metric =>
                     String.eqb (Metric.id metric) "Occlusion")
                  metrics = Some m
          /\ forall om values,
              Metric.occlusion_metric m = Some om ->
              OcclusionMetric.values om = Some values ->
              In (WriteFile (output_file path s i "_occlusion.txt")
                            (map (occlusion_line X) values))
                 (fst (unity_to_yolo X fs u output_path cfg))).
Proof.
  intros Hocc. split.
  - intros i s c. apply missing_metric_aborts.
  - intros tr path yaml i s c Hcfg Hdir Hc Hs Hbefore Hi.
    destruct (unity_to_yolo_trace X fs u output_path cfg tr path yaml
                Hcfg Hdir) as [Htr _].
    destruct (emit_all_reached X cfg u path (valid_captures cfg u) 0
                (split_tags X cfg u) i s Hs Hbefore) as [Hin _].
    cbn [Nat.add] in Hin.
    rewrite (emit_capture_unfold X cfg u path _ i s c Hc) in Hi, Hin.
    destruct (annotation_steps X cfg c) as [r|e]; [|discriminate].
    destruct (find_occlusion_metric u c) as [o|e] eqn:Hfind; [|discriminate].
    destruct (find_occlusion_metric_found u c o Hfind)
      as [metrics [m [Hget [Hm Ho]]]].
    exists metrics, m. split; [exact Hget|]. split; [exact Hm|].
    intros om values Hom Hvalues. rewrite Htr.
    apply in_or_app. right. right. apply Hin. cbn [fst].
    right. apply in_or_app. right. apply in_or_app. left.
    unfold occlusion_files. rewrite Hocc, Ho, Hom, Hvalues. now left.
Qed.

(** C2. The lookup of lines 227-228 takes no inclusion flag.  For a capture
    that is emitted and whose sequence has no metric with id "Occlusion",
    it raises [KeyError] (no metrics at all) or [AttributeError] (none
    with that id); the conversion fails whatever the flags; and it fails
    with that lookup failure whenever nothing fails before the lookup: the
    configuration check passes, the output directory is created and the
    requested annotation lines of the valid captures can be computed. *)
Theorem occlusion_lookup_unconditional (fs : filesystem) (u : UnityData.t Raw)
        (output_path : string) (cfg : config) (i : nat) (s : string)
        (c : Capture.t Raw) :
  nth_error (valid_captures cfg u) i = Some c ->
  nth_error (split_tags X cfg u) i = Some s ->
  no_occlusion_metric u c ->
  (exists e, find_occlusion_metric u c = Raise e /\ lookup_failure e)
  /\ (exists e, snd (unity_to_yolo X fs u output_path cfg) = Raise e)
  /\ ((include_keypoints cfg = true -> n_keypoints cfg <> None) ->
      (exists tr created,
          DataDirectory.create_yolo_data_dir X fs output_path
            (include_test cfg) = (tr, Ok created)) ->
      (forall c', In c' (valid_captures cfg u) -> annotations_ok X cfg c') ->
      exists e, snd (unity_to_yolo X fs u output_path cfg) = Raise e
                /\ lookup_failure e).
Proof.
  intros Hc Hs Hno. split; [|split].
  - destruct (find_occlusion_metric_missing u c Hno) as [e He].
    exists e. split; [exact He|]. now apply find_occlusion_metric_error in He.
  - now apply (missing_metric_aborts fs u output_path cfg i s c).
  - intros Hcfg [tr [[path yaml] Hdir]] Hann.
    assert (Hcheck : include_keypoints cfg && is_none (n_keypoints cfg) = false).
    { destruct (include_keypoints cfg); [|reflexivity].
      destruct (n_keypoints cfg); [reflexivity | now destruct (Hcfg eq_refl)]. }
    destruct (unity_to_yolo_unfold X fs u output_path cfg tr path yaml
                Hcheck Hdir) as [-> _].
    destruct (emit_capture_missing X cfg u path (valid_captures cfg u) i s c
                Hc Hno) as [e0 He0].
    destruct (emit_all_first_failure X lookup_failure cfg u path
                (valid_captures cfg u) 0 (split_tags X cfg u) i s e0 Hs He0)
      as [e [-> He]]; [|now exists e].
    intros j' s' e Hle Hs' He'. cbn [Nat.add] in He'.
    destruct (nth_error (valid_captures cfg u) j') as [c'|] eqn:Hc'.
    + apply (emit_capture_failure X cfg u path _ j' s' c' e Hc');
        [|exact He'].
      apply Hann. now apply nth_error_In in Hc'.
    + apply nth_error_None in Hc'.
      assert (i < List.length (valid_captures cfg u))%nat
        by (apply nth_error_Some; congruence).
      lia.
Qed.

End WithCollaborators.

End OcclusionProofs.

(* ================================================================== *)
(** * Empty annotation files and the name of the mask copy *)

Module FileProofs.
Import Convert ConvertSpec EmissionSpec IOFacts EmissionProofs.

Section WithCollaborators.
Context (X : collaborators) {Raw : Type}.
Implicit Types (cfg : config) (u : UnityData.t Raw) (c : Capture.t Raw).

(** The box, keypoint and segmentation files are never written empty. *)
Lemma annotation_files_nonempty path s i r p :
  ~ In (WriteFile p []) (annotation_files path s i r).
Proof.
  destruct r as [[b k] g]. unfold annotation_files.
  destruct b, k, g; cbn; intuition discriminate.
Qed.

(** An empty file written by an iteration is the occlusion file, written
    for an occlusion metric whose list of values is empty. *)
Lemma empty_file_is_occlusion cfg u path valid i s c p :
  nth_error valid i = Some c ->
  In (WriteFile p []) (fst (emit_capture X cfg u path valid i s)) ->
  p = output_file path s i "_occlusion.txt"
  /\ include_occlusion cfg = true
  /\ exists om, find_occlusion_metric u c = Ok (Some om)
                /\ OcclusionMetric.values om = Some [].
Proof.
  intros Hc. rewrite (emit_capture_unfold X cfg u path valid i s c Hc).
  unfold image_file.
  destruct (annotation_steps X cfg c) as [r|e]; cbn [fst];
    [|intros [H|[]]; discriminate].
  destruct (find_occlusion_metric u c) as [o|e]; cbn [fst];
    intros [H|H]; try discriminate.
  - apply in_app_or in H as [H|H];
      [now apply annotation_files_nonempty in H|].
    apply in_app_or in H as [H|H].
    + unfold occlusion_files in H.
      destruct (include_occlusion cfg); [|destruct H].
      destruct o as [om|]; [|destruct H].
      destruct (OcclusionMetric.values om) as [vs|] eqn:Hvs; [|destruct H].
      destruct H as [H|[]]. injection H as <- Hmap.
      destruct vs; [|discriminate]. split; [reflexivity|].
      split; [reflexivity|]. now exists om.
    + unfold mask_files in H. destruct (include_semantic_mask cfg);
        [|destruct H].
      destruct (Capture.semantic_segmentation c); [|destruct H].
      destruct H as [H|[]]. discriminate.
  - now apply annotation_files_nonempty in H.
Qed.

(** The mask copy of a successful iteration. *)
Lemma mask_copy cfg u path valid i s c sem :
  nth_error valid i = Some c ->
  include_semantic_mask cfg = true ->
  Capture.semantic_segmentation c = Some sem ->
  snd (emit_capture X cfg u path valid i s) = Ok tt ->
  let file := SemanticSegmentationAnnotation.file_path sem in
  In (CopyFile file
        (output_file path s i ("_mask." ++ snd (Py.splitext file))%string))
     (fst (emit_capture X cfg u path valid i s)).
Proof.
  intros Hc Hcfg Hsem. rewrite (emit_capture_unfold X cfg u path valid i s c Hc).
  destruct (annotation_steps X cfg c) as [r|e]; [|discriminate].
  destruct (find_occlusion_metric u c) as [o|e]; [|discriminate].
  intros _. cbn [fst]. right. apply in_or_app. right. apply in_or_app. right.
  unfold mask_files. rewrite Hcfg, Hsem. now left.
Qed.

End WithCollaborators.

Lemma rfind_substring ch s i :
  Py.rfind ch s = Some i ->
  exists r, substring i (String.length s - i) s = String ch r.
Proof.
  revert i. induction s as [|d s IH]; intros i; cbn [Py.rfind]; [discriminate|].
  destruct (Py.rfind ch s) as [j|].
  - intros [= <-]. cbn. now apply IH.
  - destruct (Ascii.eqb_spec d ch) as [->|]; [|discriminate].
    intros [= <-]. cbn. now eexists.
Qed.

(** The extension [os.path.splitext] returns is empty or begins with the
    dot. *)
Lemma splitext_dot p :
  snd (Py.splitext p) = EmptyString
  \/ exists r, snd (Py.splitext p) = String "." r.
Proof.
  unfold Py.splitext. destruct (Py.rfind "." p) as [dot|] eqn:E; [|now left].
  destruct (_ && _)%bool; [|now left].
  right. cbn [snd]. now apply rfind_substring.
Qed.

(** C4. The occlusion file is written empty.  For the sample capture, with
    an "Occlusion" metric whose list of values is empty, the conversion
    succeeds and writes [out/train/0_occlusion.txt] without a line; and an
    iteration writes no other file empty: an empty file is always the
    occlusion file of an occlusion metric with an empty list of values. *)
Theorem empty_occlusion_file_written :
  (let u := Sample.dataset [(12, [Sample.occlusion (Some [])])] in
   snd (unity_to_yolo Sample.collaborators Sample.fs u "out" Sample.config)
   = Ok "out/out.yaml"
   /\ In (WriteFile "out/train/0_occlusion.txt" [])
         (fst (unity_to_yolo Sample.collaborators Sample.fs u "out"
                             Sample.config)))
  /\ (forall (X : collaborators) (Raw : Type) cfg (u : UnityData.t Raw)
             path valid i s c p,
         nth_error valid i = Some c ->
         In (WriteFile p []) (fst (emit_capture X cfg u path valid i s)) ->
         p = output_file path s i "_occlusion.txt"
         /\ include_occlusion cfg = true
         /\ exists om, find_occlusion_metric u c = Ok (Some om)
                       /\ OcclusionMetric.values om = Some []).
Proof.
  split.
  - cbn zeta. split; [vm_compute; reflexivity|].
    vm_compute. do 6 right. now left.
  - intros X Raw. apply empty_file_is_occlusion.
Qed.

(** C5. The mask copy doubles the dot.  For the sample capture, whose mask
    is [step0.camera.semantic segmentation.png], the mask is copied to
    [out/train/0_mask..png]; in general the copy of a successful iteration
    goes to [{split}/{i}_mask.] followed by the extension as
    [os.path.splitext] returns it, which is empty or begins with a dot of
    its own. *)
Theorem mask_copy_doubles_dot :
  In (CopyFile "solo/sequence.12/step0.camera.semantic segmentation.png"
               "out/train/0_mask..png")
     (fst (unity_to_yolo Sample.collaborators Sample.fs Sample.unity_data
                         "out" Sample.config))
  /\ (forall (X : collaborators) (Raw : Type) cfg (u : UnityData.t Raw)
             path valid i s c sem,
         nth_error valid i = Some c ->
         include_semantic_mask cfg = true ->
         Capture.semantic_segmentation c = Some sem ->
         snd (emit_capture X cfg u path valid i s) = Ok tt ->
         let file := SemanticSegmentationAnnotation.file_path sem in
         In (CopyFile file
               (output_file path s i
                            ("_mask." ++ snd (Py.splitext file))%string))
            (fst (emit_capture X cfg u path valid i s)))
  /\ (forall p, snd (Py.splitext p) = EmptyString
                \/ exists r, snd (Py.splitext p) = String "." r).
Proof.
  split; [|split].
  - vm_compute. do 7 right. now left.
  - intros X Raw. apply mask_copy.
  - apply splitext_dot.
Qed.

End FileProofs.

(* ================================================================== *)
(** * The conversion of the sample dataset *)

Module ConversionWitness.
Import Convert ConvertSpec EmissionSpec.

(** Keypoints without their number, on the sample dataset: nothing is
    created, [ValueError] is raised. *)
Lemma keypoints_need_count_witness :
  include_keypoints Sample.keypoint_config = true
  /\ n_keypoints Sample.keypoint_config = None
  /\ unity_to_yolo Sample.collaborators Sample.fs Sample.unity_data "out"
                   Sample.keypoint_config
     = ([], Raise ValueError).
Proof.
  split; [reflexivity|]. split; [reflexivity|].
  exact (ConvertProofs.keypoints_need_count Sample.collaborators Sample.fs
           Sample.unity_data "out" Sample.keypoint_config eq_refl eq_refl).
Defined.

(** The sample capture under a split generator that returns one tag too
    many: the conversion fails in the second iteration, and the two
    occlusion lines of the sample capture are written all the same. *)
Lemma occlusion_emission_witness :
  include_occlusion Sample.config = true
  /\ snd (unity_to_yolo ExportSpec.overrunning Sample.fs Sample.unity_data
                        "out" Sample.config) = Raise IndexError
  /\ In (WriteFile (output_file "out" "train" 0 "_occlusion.txt")
                   (map (occlusion_line ExportSpec.overrunning)
                        Sample.occlusion_values))
        (fst (unity_to_yolo ExportSpec.overrunning Sample.fs
                            Sample.unity_data "out" Sample.config)).
Proof.
  split; [reflexivity|]. split; [vm_compute; reflexivity|].
  destruct (OcclusionProofs.occlusion_emission ExportSpec.overrunning
              Sample.fs Sample.unity_data "out" Sample.config eq_refl)
    as [_ H].
  destruct (H [MkdirParents "out"; Mkdir "out/train"; Mkdir "out/val"]
              "out" "out/out.yaml" 0%nat "train" Sample.capture
              eq_refl eq_refl eq_refl eq_refl)
    as [metrics [m [Hget [Hm Hwrite]]]].
  - intros j s' Hj. lia.
  - vm_compute. reflexivity.
  - injection Hget as <-. injection Hm as <-.
    exact (Hwrite _ Sample.occlusion_values eq_refl eq_refl).
Defined.

Lemma sample_annotations_ok c :
  In c (valid_captures Sample.bbox_config (Sample.dataset [])) ->
  annotations_ok Sample.collaborators Sample.bbox_config c.
Proof.
  intros [<-|[]]. unfold annotations_ok. cbn [Sample.bbox_config include_bboxes
    include_keypoints include_segmentation precision].
  split; [|split]; try discriminate.
  intros _ _. eexists. vm_compute. reflexivity.
Qed.

(** The sample dataset without any metric, boxes only and no occlusion
    output requested: the lookup fails all the same and the conversion
    raises its failure. *)
Lemma occlusion_lookup_unconditional_witness :
  include_occlusion Sample.bbox_config = false
  /\ no_occlusion_metric (Sample.dataset []) Sample.capture
  /\ exists e,
      snd (unity_to_yolo Sample.collaborators Sample.fs (Sample.dataset [])
                         "out" Sample.bbox_config) = Raise e
      /\ lookup_failure e.
Proof.
  assert (Hno : no_occlusion_metric (Sample.dataset []) Sample.capture)
    by (intros metrics H; discriminate H).
  split; [reflexivity|]. split; [exact Hno|].
  destruct (OcclusionProofs.occlusion_lookup_unconditional
              Sample.collaborators Sample.fs (Sample.dataset []) "out"
              Sample.bbox_config 0 "train" Sample.capture eq_refl eq_refl Hno)
    as [_ [_ H]].
  apply H.
  - discriminate.
  - eexists. eexists. vm_compute. reflexivity.
  - exact sample_annotations_ok.
Defined.

End ConversionWitness.

(* ================================================================== *)
(** * The output directory *)

Module DataDirectoryProofs.
Import DataDirectory PyProofs.

Lemma str_injective n m : 0 <= n -> 0 <= m -> Py.str n = Py.str m -> n = m.
Proof.
  intros Hn Hm E. pose proof (int_str n Hn) as H1.
  rewrite E, (int_str m Hm) in H1. congruence.
Qed.

Lemma append_injective (p a b : string) :
  (p ++ a)%string = (p ++ b)%string -> a = b.
Proof. induction p as [|c p IH]; cbn; [easy|]. intros [= H]. now apply IH. Qed.

Local Abbreviation candidate path i := (fstr [path; "_"; Py.str i]).

Lemma candidate_injective path i j :
  0 <= i -> 0 <= j -> candidate path i = candidate path j -> i = j.
Proof.
  unfold fstr. cbn [String.concat]. intros Hi Hj E.
  apply append_injective in E. change ("" ++ ?x)%string with x in E.
  apply (append_injective "_") in E. now apply str_injective.
Qed.

Lemma path_exists_In fs p :
  path_exists fs p = true -> In p (files fs ++ dirs fs).
Proof.
  unfold path_exists, path_isdir. intros H. apply in_or_app.
  apply orb_prop in H as [H|H]; [left | right];
    apply existsb_exists in H as [q [Hq E]];
    apply String.eqb_eq in E; now subst.
Qed.

(** Running out of tests means every candidate tested exists. *)
Lemma first_free_none fs path i fuel :
  first_free fs path i fuel = None ->
  forall k, (k < fuel)%nat ->
            path_exists fs (candidate path (i + Z.of_nat k)) = true.
Proof.
  revert i. induction fuel as [|fuel IH]; intros i; cbn [first_free];
    [intros _ k Hk; lia|].
  destruct (path_exists fs (candidate path i)) eqn:E; [|discriminate].
  intros H [|k] Hk.
  - now rewrite Z.add_0_r.
  - replace (i + Z.of_nat (S k)) with (i + 1 + Z.of_nat k) by lia.
    apply IH; [exact H | lia].
Qed.

Lemma first_free_some fs path i fuel j :
  first_free fs path i fuel = Some j ->
  i <= j /\ path_exists fs (candidate path j) = false.
Proof.
  revert i. induction fuel as [|fuel IH]; intros i; cbn [first_free];
    [discriminate|].
  destruct (path_exists fs (candidate path i)) eqn:E.
  - intros H. apply IH in H. split; [lia | easy].
  - intros [= <-]. split; [lia | exact E].
Qed.

(** The loop of [create_yolo_data_dir] ends within the tests it is given,
    on a suffix whose path does not exist. *)
Lemma free_suffix_free fs path :
  1 <= free_suffix fs path
  /\ path_exists fs (candidate path (free_suffix fs path)) = false.
Proof.
  unfold free_suffix.
  set (n := (List.length (files fs) + List.length (dirs fs))%nat).
  destruct (first_free fs path 1 (S n)) as [j|] eqn:E.
  - now apply first_free_some in E.
  - exfalso. pose proof (first_free_none fs path 1 (S n) E) as Hall.
    set (cands := map (fun k => candidate path (1 + Z.of_nat k)) (seq 0 (S n))).
    assert (Hnd : NoDup cands).
    { apply Injective_map_NoDup; [|apply seq_NoDup].
      intros a b Hab. apply candidate_injective in Hab; lia. }
    assert (Hincl : incl cands (files fs ++ dirs fs)).
    { intros p Hp. apply in_map_iff in Hp as [k [<- Hk]].
      apply in_seq in Hk. apply path_exists_In, Hall. lia. }
    pose proof (NoDup_incl_length Hnd Hincl) as Hlen.
    unfold cands in Hlen.
    rewrite length_map, length_seq, List.length_app in Hlen. lia.
Qed.

End DataDirectoryProofs.

(* ================================================================== *)
(** * The dataset aggregate *)

Module AggregateProofs.
Import UnityData AggregateSpec.

Section Grouping.
Context {V : Type} (key : V -> Z).

Lemma distinct_In l k : In k (distinct l) <-> In k l.
Proof.
  induction l as [|a l IH]; cbn [distinct]; [easy|]. cbn [In].
  rewrite filter_In, IH. destruct (Z.eqb_spec k a); cbn; intuition congruence.
Qed.

Lemma distinct_NoDup l : NoDup (distinct l).
Proof.
  induction l as [|a l IH]; cbn [distinct]; constructor.
  - rewrite filter_In, Z.eqb_refl. now intros [_ H].
  - now apply NoDup_filter.
Qed.

Lemma distinct_snoc l k :
  distinct (l ++ [k])
  = if existsb (Z.eqb k) l then distinct l else distinct l ++ [k].
Proof.
  induction l as [|a l IH]; cbn [app distinct existsb]; [easy|].
  rewrite IH. destruct (Z.eqb_spec k a) as [->|Hne]; cbn [orb].
  - destruct (existsb _ l); [easy|].
    rewrite filter_app. cbn [filter]. rewrite Z.eqb_refl. cbn.
    now rewrite List.app_nil_r.
  - destruct (existsb _ l); [easy|].
    rewrite filter_app. cbn [filter].
    destruct (Z.eqb_spec k a); [contradiction | easy].
Qed.

Lemma of_key_snoc k l x :
  of_key key k (l ++ [x])
  = of_key key k l ++ (if Z.eqb (key x) k then [x] else []).
Proof. unfold of_key. rewrite filter_app. reflexivity. Qed.

Lemma of_key_none k l : ~ In k (map key l) -> of_key key k l = [].
Proof.
  unfold of_key. induction l as [|a l IH]; cbn; [easy|].
  intros H. destruct (Z.eqb_spec (key a) k); [tauto|]. apply IH. tauto.
Qed.

(** Lookup in a dictionary given by its keys. *)
Lemma get_keyed (g : Z -> list V) ks k :
  Dict.get Z.eqb k (map (fun k' => (k', g k')) ks)
  = if existsb (Z.eqb k) ks then Some (g k) else None.
Proof.
  induction ks as [|a ks IH]; cbn [map Dict.get existsb]; [easy|].
  destruct (Z.eqb_spec k a) as [->|]; cbn [orb]; [reflexivity | exact IH].
Qed.

Lemma set_keyed_new (g : Z -> list V) ks k v :
  existsb (Z.eqb k) ks = false ->
  Dict.set Z.eqb k v (map (fun k' => (k', g k')) ks)
  = map (fun k' => (k', g k')) ks ++ [(k, v)].
Proof.
  induction ks as [|a ks IH]; cbn [map Dict.set existsb app]; [easy|].
  destruct (Z.eqb_spec k a); cbn [orb]; [discriminate|].
  intros H. now rewrite IH.
Qed.

Lemma set_keyed_old (g g' : Z -> list V) ks k :
  NoDup ks -> In k ks ->
  (forall k', k' <> k -> g' k' = g k') ->
  Dict.set Z.eqb k (g' k) (map (fun k' => (k', g k')) ks)
  = map (fun k' => (k', g' k')) ks.
Proof.
  intros Hnd Hin Hg. induction Hnd as [|a ks Ha Hnd IH];
    cbn [map Dict.set]; [destruct Hin|].
  destruct (Z.eqb_spec k a) as [->|Hne].
  - f_equal. apply map_ext_in. intros k' Hk'. f_equal. symmetry. apply Hg.
    intros ->. contradiction.
  - rewrite (Hg a) by congruence. f_equal. apply IH.
    destruct Hin as [Hin|Hin]; [congruence | exact Hin].
Qed.

Lemma existsb_In ks k : existsb (Z.eqb k) ks = true <-> In k ks.
Proof.
  rewrite existsb_exists. split.
  - intros [k' [H E]]. apply Z.eqb_eq in E. now subst.
  - intros H. exists k. split; [exact H | apply Z.eqb_refl].
Qed.

(** Bucketing one more record is grouping one more record. *)
Lemma bucket_group l x :
  bucket (key x) x (group key l) = group key (l ++ [x]).
Proof.
  unfold bucket, group. rewrite get_keyed, map_app. cbn [map].
  rewrite distinct_snoc.
  destruct (existsb (Z.eqb (key x)) (distinct (map key l))) eqn:E.
  - assert (Hin : In (key x) (map key l))
      by now apply distinct_In, existsb_In.
    apply existsb_In in Hin as ->.
    replace (of_key key (key x) l ++ [x])
      with (of_key key (key x) (l ++ [x]))
      by (now rewrite of_key_snoc, Z.eqb_refl).
    apply set_keyed_old with (g' := fun k => of_key key k (l ++ [x])).
    + apply distinct_NoDup.
    + now apply existsb_In.
    + intros k' Hk'. rewrite of_key_snoc.
      destruct (Z.eqb_spec (key x) k'); [congruence|]. apply List.app_nil_r.
  - assert (Hnin : existsb (Z.eqb (key x)) (map key l) = false).
    { destruct (existsb (Z.eqb (key x)) (map key l)) eqn:E'; [|reflexivity].
      apply existsb_In, distinct_In, existsb_In in E'. congruence. }
    rewrite Hnin, set_keyed_new by exact E. rewrite map_app. cbn [map].
    f_equal.
    + apply map_ext_in. intros k' Hk'. f_equal. rewrite of_key_snoc.
      destruct (Z.eqb_spec (key x) k') as [<-|]; [|now rewrite List.app_nil_r].
      apply existsb_In in Hk'. congruence.
    + rewrite of_key_snoc, Z.eqb_refl, of_key_none; [reflexivity|].
      intros H. apply existsb_In in H. congruence.
Qed.

Lemma bucket_fold l l0 :
  fold_left (fun d x => bucket (key x) x d) l (group key l0)
  = group key (l0 ++ l).
Proof.
  revert l0. induction l as [|x l IH]; intros l0; cbn [fold_left].
  - now rewrite List.app_nil_r.
  - rewrite bucket_group, IH, <- List.app_assoc. reflexivity.
Qed.

Lemma of_key_of_key k k' l :
  of_key key k (of_key key k' l) = if Z.eqb k' k then of_key key k l else [].
Proof.
  unfold of_key. induction l as [|a l IH]; cbn [filter].
  - now destruct (Z.eqb k' k).
  - destruct (Z.eqb_spec (key a) k') as [Ea|Ea]; cbn [filter]; rewrite IH.
    + destruct (Z.eqb_spec k' k) as [Ek|Ek].
      * rewrite Ea, Ek, Z.eqb_refl. reflexivity.
      * destruct (Z.eqb_spec (key a) k); [congruence | reflexivity].
    + destruct (Z.eqb_spec k' k) as [Ek|Ek]; [|reflexivity].
      destruct (Z.eqb_spec (key a) k); [congruence | reflexivity].
Qed.

(** Reading the buckets of the keys [ks] one after the other keeps the
    records of each key in their order. *)
Lemma of_key_flat ks k l :
  NoDup ks ->
  of_key key k (flat_map (fun k' => of_key key k' l) ks)
  = if existsb (Z.eqb k) ks then of_key key k l else [].
Proof.
  intros Hnd. induction Hnd as [|a ks Ha Hnd IH]; cbn [flat_map existsb];
    [reflexivity|].
  unfold of_key at 1. rewrite filter_app. fold (of_key key k (of_key key a l)).
  fold (of_key key k (flat_map (fun k' => of_key key k' l) ks)).
  rewrite of_key_of_key, IH, (Z.eqb_sym k a).
  destruct (Z.eqb_spec a k) as [->|]; cbn [orb]; [|reflexivity].
  destruct (existsb (Z.eqb k) ks) eqn:E; [|apply List.app_nil_r].
  apply existsb_In in E. contradiction.
Qed.


Lemma group_values l :
  List.concat (Dict.values (group key l))
  = flat_map (fun k => of_key key k l) (distinct (map key l)).
Proof.
  unfold Dict.values, group. rewrite map_map. cbn [snd].
  now rewrite <- flat_map_concat_map.
Qed.

End Grouping.

(** ** Reading raw records into buckets *)

Section Reading.
Context {R V : Type} (parse : R -> result V) (key : V -> Z).

(** The loop shared by [read_captures] and [read_metrics]. *)
Lemma bucket_loop (loop : list R -> Dict.t (K:=Z) (V:=list V) ->
                          result (Dict.t (K:=Z) (V:=list V))) :
  (forall d, loop [] d = Ok d) ->
  (forall r rest d,
      loop (r :: rest) d
      = (v <- parse r ;; loop rest (bucket (key v) v d))%py) ->
  forall raws l0,
    (forall d, loop raws (group key l0) = Ok d <->
               exists records, parsed parse raws records
                               /\ d = group key (l0 ++ records))
    /\ (forall e, loop raws (group key l0) = Raise e <->
                  exists before r after records,
                    raws = before ++ r :: after
                    /\ parsed parse before records
                    /\ parse r = Raise e).
Proof.
  intros Hnil Hcons raws. induction raws as [|r raws IH]; intros l0.
  - split.
    + intros d. rewrite Hnil. split.
      * intros [= <-]. exists []. split; [constructor|].
        now rewrite List.app_nil_r.
      * intros [records [Hp ->]]. inversion Hp. now rewrite List.app_nil_r.
    + intros e. rewrite Hnil. split; [discriminate|].
      intros [before [r [after [records [H _]]]]].
      now destruct before.
  - rewrite Hcons. destruct (parse r) as [v|e0] eqn:E; cbn [bind].
    + rewrite bucket_group. destruct (IH (l0 ++ [v])) as [IHok IHerr]. split.
      * intros d. rewrite IHok. split.
        -- intros [records [Hp ->]]. exists (v :: records).
           split; [now constructor|]. now rewrite <- List.app_assoc.
        -- intros [records [Hp ->]]. inversion Hp as [|? v' ? records' Hv Hp'];
             subst. rewrite E in Hv. injection Hv as <-.
           exists records'. split; [exact Hp'|].
           now rewrite <- List.app_assoc.
      * intros e. rewrite IHerr. split.
        -- intros [before [r' [after [records [-> [Hp He]]]]]].
           exists (r :: before), r', after, (v :: records).
           repeat split; [now constructor | exact He].
        -- intros [before [r' [after [records [Heq [Hp He]]]]]].
           destruct before as [|b before]; cbn [app] in Heq;
             injection Heq as <- ->; [congruence|].
           inversion Hp as [|? v' ? records' Hv Hp']; subst.
           now exists before, r', after, records'.
    + split.
      * intros d. split; [discriminate|].
        intros [records [Hp _]]. inversion Hp; congruence.
      * intros e. split.
        -- intros [= <-]. exists [], r, raws, []. repeat split; [constructor | exact E].
        -- intros [before [r' [after [records [Heq [Hp He]]]]]].
           destruct before as [|b before]; cbn [app] in Heq;
             injection Heq as <- ->; [congruence|].
           inversion Hp; congruence.
Qed.

End Reading.

Section Aggregate.
Context {Raw : Type} (P : Capture.parsers Raw).

Local Abbreviation parsed_captures labels files :=
  (parsed (fun r => Capture.from_dict P r labels) (raw_captures files)).
Local Abbreviation parsed_metrics files :=
  (parsed Metric.from_dict (raw_metrics (Raw:=Raw) files)).

Lemma read_captures_spec labels (files : list (frame_data_file Raw)) :
  (forall d, read_captures P labels files = Ok d <->
             exists cs, parsed_captures labels files cs
                        /\ d = group Capture.sequence cs)
  /\ (forall e, read_captures P labels files = Raise e <->
                exists before r after cs,
                  raw_captures files = before ++ r :: after
                  /\ parsed (fun r => Capture.from_dict P r labels) before cs
                  /\ Capture.from_dict P r labels = Raise e).
Proof.
  unfold read_captures.
  exact (bucket_loop (fun r => Capture.from_dict P r labels) Capture.sequence
           (fun raws d => bucket_captures P raws labels d)
           (fun d => eq_refl) (fun r rest d => eq_refl)
           (raw_captures files) []).
Qed.

Lemma read_metrics_spec (files : list (frame_data_file Raw)) :
  (forall d, read_metrics files = Ok d <->
             exists ms, parsed_metrics files ms
                        /\ d = group Metric.sequence ms)
  /\ (forall e, read_metrics files = Raise e <->
                exists before r after ms,
                  raw_metrics files = before ++ r :: after
                  /\ parsed Metric.from_dict before ms
                  /\ Metric.from_dict r = Raise e).
Proof.
  unfold read_metrics.
  exact (bucket_loop Metric.from_dict Metric.sequence
           (fun raws d => bucket_metrics raws d)
           (fun d => eq_refl) (fun r rest d => eq_refl)
           (raw_metrics files) []).
Qed.

Lemma init_ok (defs : list annotation_definition)
      (files : list (frame_data_file Raw)) (u : UnityData.t Raw) :
  init P defs files = Ok u <->
  exists cs ms,
    parsed_captures (read_labels defs) files cs
    /\ parsed_metrics files ms
    /\ u = UnityData.mk (read_labels defs) (group Capture.sequence cs)
                        (group Metric.sequence ms).
Proof.
  unfold init.
  destruct (read_captures_spec (read_labels defs) files) as [Hc _].
  destruct (read_metrics_spec files) as [Hm _].
  split.
  - destruct (read_captures P (read_labels defs) files) as [dc|e] eqn:Ec;
      cbn [bind]; [|discriminate].
    destruct (read_metrics files) as [dm|e] eqn:Em; cbn [bind]; [|discriminate].
    intros [= <-].
    destruct (proj1 (Hc dc) eq_refl) as [cs [Hcs ->]].
    destruct (proj1 (Hm dm) eq_refl) as [ms [Hms ->]].
    now exists cs, ms.
  - intros [cs [ms [Hcs [Hms ->]]]].
    rewrite (proj2 (Hc _) (ex_intro _ cs (conj Hcs eq_refl))). cbn [bind].
    rewrite (proj2 (Hm _) (ex_intro _ ms (conj Hms eq_refl))). reflexivity.
Qed.


Lemma of_key_nonempty {V : Type} (key : V -> Z) k (l : list V) :
  In k (map key l) -> of_key key k l <> [].
Proof.
  intros H. apply in_map_iff in H as [x [E Hx]].
  assert (Hin : In x (of_key key k l)).
  { unfold of_key. apply filter_In. split; [exact Hx|]. now apply Z.eqb_eq. }
  intros Hnil. rewrite Hnil in Hin. destruct Hin.
Qed.

(** Lookup in a grouping against its flattened view. *)
Lemma group_lookup {V : Type} (key : V -> Z) (l : list V) k :
  let flat := List.concat (Dict.values (group key l)) in
  (Dict.lookup Z.eqb k (group key l) = Ok (of_key key k flat)
   /\ of_key key k flat <> [])
  \/ (Dict.lookup Z.eqb k (group key l) = Raise KeyError
      /\ of_key key k flat = []).
Proof.
  cbn zeta. rewrite group_values, of_key_flat by apply distinct_NoDup.
  unfold Dict.lookup, group. rewrite get_keyed.
  destruct (existsb (Z.eqb k) (distinct (map key l))) eqn:E.
  - left. split; [reflexivity|].
    apply of_key_nonempty. now apply distinct_In, existsb_In.
  - now right.
Qed.

(** X3. In a loaded aggregate, [get_sequence_captures] and
    [get_sequence_metrics] return the records of the sequence, in the order
    of the flattened view and never an empty list, and raise [KeyError]
    exactly for a sequence that has no record of that kind. *)
Theorem sequence_lookup (defs : list annotation_definition)
        (files : list (frame_data_file Raw)) (u : UnityData.t Raw) (k : Z) :
  init P defs files = Ok u ->
  ((get_sequence_captures u k
    = Ok (of_key Capture.sequence k (captures u))
    /\ of_key Capture.sequence k (captures u) <> [])
   \/ (get_sequence_captures u k = Raise KeyError
       /\ of_key Capture.sequence k (captures u) = []))
  /\ ((get_sequence_metrics u k = Ok (of_key Metric.sequence k (metrics u))
       /\ of_key Metric.sequence k (metrics u) <> [])
      \/ (get_sequence_metrics u k = Raise KeyError
          /\ of_key Metric.sequence k (metrics u) = [])).
Proof.
  intros H. apply init_ok in H as [cs [ms [_ [_ ->]]]].
  unfold get_sequence_captures, get_sequence_metrics, captures, metrics.
  cbn [captures_by_sequence metrics_by_sequence].
  split; apply group_lookup.
Qed.



Lemma parsed_In {R V : Type} (parse : R -> result V) raws records v :
  parsed parse raws records -> In v records ->
  exists r, In r raws /\ parse r = Ok v.
Proof.
  intros H. induction H as [|r v' raws records Hr _ IH]; intros Hin;
    [destruct Hin|].
  destruct Hin as [<-|Hin].
  - exists r. split; [now left | exact Hr].
  - destruct (IH Hin) as [r' [Hr' Hp]]. exists r'. split; [now right | exact Hp].
Qed.

Lemma capture_path_sequence (d : Capture.raw Raw) labels c :
  Capture.from_dict P d labels = Ok c ->
  exists path, Capture.raw_path d = Some path
               /\ Py.int (Py.last_component path) = Ok (Capture.sequence c)
               /\ exists filename,
                   Capture.raw_filename d = Some filename
                   /\ Capture.file_path c = Py.join2 path filename.
Proof.
  unfold Capture.from_dict.
  destruct (Capture.raw_path d) as [path|]; cbn [getitem bind]; [|discriminate].
  destruct (Py.int (Py.last_component path)) as [n|] eqn:Hint; cbn [bind];
    [|discriminate].
  repeat SequenceProofs.step.
  destruct (Capture.raw_filename d) as [filename|]; [|discriminate].
  cbn [getitem] in *.
  repeat match goal with
         | H : Ok _ = Ok _ |- _ => inversion H; subst; clear H
         end.
  intros [= <-]. exists path. split; [reflexivity|]. split; [exact Hint|].
  eexists. split; reflexivity.
Qed.

Lemma metric_path_sequence (d : Metric.raw) m :
  Metric.from_dict d = Ok m ->
  exists path, Metric.raw_path d = Some path
               /\ Py.int (Py.last_component path) = Ok (Metric.sequence m).
Proof.
  unfold Metric.from_dict. repeat SequenceProofs.step.
  destruct (Metric.raw_path d) as [path|]; [|discriminate].
  cbn [getitem] in *.
  repeat match goal with
         | H : Ok _ = Ok _ |- _ => inversion H; subst; clear H
         end.
  intros [= <-]. eexists. now split.
Qed.

(** X6. Every capture and every metric of a loaded aggregate is the parse
    of a raw record of a frame data file, read with the directory of that
    file as its [path]: it carries the number that ends the name of that
    directory, whatever [path] the raw record had, so the captures and the
    metrics of one directory share their sequence key; and the image of a
    capture is the join of that directory and the [filename] of its raw
    record. *)
Theorem sequence_of_directory (defs : list annotation_definition)
        (files : list (frame_data_file Raw)) (u : UnityData.t Raw) :
  init P defs files = Ok u ->
  (forall c, In c (captures u) ->
     exists f rs r filename,
       In f files
       /\ file_captures f = Some (Some rs) /\ In r rs
       /\ Capture.from_dict P (set_capture_path (dirname f) r)
                            (read_labels defs) = Ok c
       /\ Py.int (Py.last_component (dirname f)) = Ok (Capture.sequence c)
       /\ Capture.raw_filename r = Some filename
       /\ Capture.file_path c = Py.join2 (dirname f) filename)
  /\ (forall m, In m (metrics u) ->
        exists f rs r,
          In f files
          /\ file_metrics f = Some (Some rs) /\ In r rs
          /\ Metric.from_dict (set_metric_path (dirname f) r) = Ok m
          /\ Py.int (Py.last_component (dirname f)) = Ok (Metric.sequence m)).
Proof.
  intros H. apply init_ok in H as [cs [ms [Hcs [Hms ->]]]].
  unfold captures, metrics. cbn [captures_by_sequence metrics_by_sequence].
  rewrite !group_values. split.
  - intros c Hc.
    assert (Hin : In c cs).
    { apply in_flat_map in Hc as [k [_ Hc]]. unfold of_key in Hc.
      now apply filter_In in Hc. }
    destruct (parsed_In _ _ _ c Hcs Hin) as [r [Hr Hparse]].
    unfold raw_captures in Hr. apply in_flat_map in Hr as [f [Hf Hr]].
    destruct (file_captures f) as [[[|r0 rs]|]|] eqn:Ef;
      try (destruct Hr; fail).
    apply in_map_iff in Hr as [r1 [<- Hr1]].
    destruct (capture_path_sequence _ _ _ Hparse)
      as [path [Hpath [Hint [filename [Hname Hfile]]]]].
    cbn [set_capture_path Capture.raw_path] in Hpath. injection Hpath as <-.
    exists f, (r0 :: rs), r1, filename. now repeat split.
  - intros m Hm.
    assert (Hin : In m ms).
    { apply in_flat_map in Hm as [k [_ Hm]]. unfold of_key in Hm.
      now apply filter_In in Hm. }
    destruct (parsed_In _ _ _ m Hms Hin) as [r [Hr Hparse]].
    unfold raw_metrics in Hr. apply in_flat_map in Hr as [f [Hf Hr]].
    destruct (file_metrics f) as [[[|r0 rs]|]|] eqn:Ef;
      try (destruct Hr; fail).
    apply in_map_iff in Hr as [r1 [<- Hr1]].
    destruct (metric_path_sequence _ _ Hparse) as [path [Hpath Hint]].
    cbn [set_metric_path Metric.raw_path] in Hpath. injection Hpath as <-.
    exists f, (r0 :: rs), r1. now repeat split.
Qed.


End Aggregate.

(** ** The sample file *)

Lemma sample_loaded :
  exists u, init Sample.parsers [] [Sample.file] = Ok u.
Proof. eexists. vm_compute. reflexivity. Qed.

Lemma sequence_lookup_witness :
  exists u,
    init Sample.parsers [] [Sample.file] = Ok u
    /\ get_sequence_captures u 12
       = Ok (of_key Capture.sequence 12 (captures u))
    /\ get_sequence_metrics u 7 = Raise KeyError.
Proof.
  destruct sample_loaded as [u Hu]. exists u. split; [exact Hu|].
  destruct (sequence_lookup Sample.parsers [] [Sample.file] u 12 Hu)
    as [[[H _]|[H _]] _];
    destruct (sequence_lookup Sample.parsers [] [Sample.file] u 7 Hu)
      as [_ [[H' _]|[H' _]]];
    vm_compute in Hu; injection Hu as <-;
    (split; [exact H || (vm_compute in H; discriminate H)
            | exact H' || (vm_compute in H'; discriminate H')]).
Defined.



Lemma sequence_of_directory_witness :
  exists u,
    init Sample.parsers [] [Sample.file] = Ok u
    /\ forall c, In c (captures u) ->
         exists f rs r filename,
           In f [Sample.file]
           /\ file_captures f = Some (Some rs) /\ In r rs
           /\ Capture.from_dict Sample.parsers
                 (set_capture_path (dirname f) r) (read_labels []) = Ok c
           /\ Py.int (Py.last_component (dirname f)) = Ok (Capture.sequence c)
           /\ Capture.raw_filename r = Some filename
           /\ Capture.file_path c = Py.join2 (dirname f) filename.
Proof.
  destruct sample_loaded as [u Hu].
  destruct (sequence_of_directory Sample.parsers [] [Sample.file] u Hu)
    as [H _].
  now exists u.
Defined.

End AggregateProofs.

(* ================================================================== *)
(** * Parsed captures and metrics *)

Module RecordProofs.
Import RecordSpec.

Lemma find_append {A} (f : A -> bool) l1 l2 :
  find f (l1 ++ l2)
  = match find f l1 with Some x => Some x | None => find f l2 end.
Proof.
  induction l1 as [|a l1 IH]; cbn [app find]; [reflexivity|].
  now destruct (f a).
Qed.

Section Captures.
Context {Raw : Type} (P : Capture.parsers Raw).

Lemma get_set_same (d : Dict.t (K:=string) (V:=Raw)) k v :
  Dict.get String.eqb k (Dict.set String.eqb k v d) = Some v.
Proof.
  induction d as [|[k' v'] d IH]; cbn [Dict.set Dict.get].
  - now rewrite String.eqb_refl.
  - destruct (String.eqb_spec k k') as [->|Hne]; cbn [Dict.get].
    + now rewrite String.eqb_refl.
    + destruct (String.eqb_spec k k'); [contradiction | exact IH].
Qed.

Lemma get_set_other (d : Dict.t (K:=string) (V:=Raw)) k k' v :
  k' <> k ->
  Dict.get String.eqb k' (Dict.set String.eqb k v d)
  = Dict.get String.eqb k' d.
Proof.
  intros Hne. induction d as [|[k0 v0] d IH]; cbn [Dict.set Dict.get].
  - destruct (String.eqb_spec k' k); [contradiction | reflexivity].
  - destruct (String.eqb_spec k k0) as [->|Hk]; cbn [Dict.get].
    + destruct (String.eqb_spec k' k0); [contradiction | reflexivity].
    + destruct (String.eqb_spec k' k0); [reflexivity | exact IH].
Qed.

Lemma index_annotations_get (l : list (Capture.raw_annotation Raw)) acc ann :
  Capture.index_annotations l acc = Ok ann ->
  Forall (fun a => Capture.at_type a <> None) l
  /\ forall ty, Dict.get String.eqb ty ann
                = match last_tagged ty l with
                  | Some b => Some b
                  | None => Dict.get String.eqb ty acc
                  end.
Proof.
  revert acc. induction l as [|a l IH]; intros acc;
    cbn [Capture.index_annotations].
  - intros [= <-]. split; [constructor | reflexivity].
  - destruct (Capture.at_type a) as [t|] eqn:Et; cbn [getitem bind];
      [|discriminate].
    intros H. apply IH in H as [Hall Hget]. split.
    + constructor; [congruence | exact Hall].
    + intros ty. rewrite Hget. unfold last_tagged. cbn [rev].
      rewrite find_append.
      destruct (find (tagged ty) (rev l)) as [b|]; cbn [option_map];
        [reflexivity|].
      cbn [find]. unfold tagged at 1. rewrite Et.
      destruct (String.eqb_spec t ty) as [->|Hne]; cbn [option_map].
      * apply get_set_same.
      * apply get_set_other. congruence.
Qed.

Lemma index_annotations_untagged (l : list (Capture.raw_annotation Raw)) acc :
  (exists a, In a l /\ Capture.at_type a = None) ->
  Capture.index_annotations l acc = Raise KeyError.
Proof.
  revert acc. induction l as [|a l IH]; intros acc [x [Hin Hx]];
    [destruct Hin|]. cbn [Capture.index_annotations].
  destruct (Capture.at_type a) as [t|] eqn:Et; cbn [getitem bind];
    [|reflexivity].
  apply IH. exists x. destruct Hin as [->|Hin]; [congruence | now split].
Qed.

(** X8. The annotations of a capture are indexed by type tag, a later
    annotation replacing an earlier one of the same tag; an annotation
    without a type tag makes the parse raise [KeyError], whatever its
    kind. *)
Theorem annotation_index (l : list (Capture.raw_annotation Raw)) :
  (forall ann,
      Capture.index_annotations l [] = Ok ann ->
      forall ty, Dict.get String.eqb ty ann = last_tagged ty l)
  /\ ((exists a, In a l /\ Capture.at_type a = None) ->
      Capture.index_annotations l [] = Raise KeyError
      /\ forall (d : Capture.raw Raw) labels path n,
          Capture.raw_path d = Some path ->
          Py.int (Py.last_component path) = Ok n ->
          Capture.raw_annotations d = Some l ->
          Capture.from_dict P d labels = Raise KeyError).
Proof.
  split.
  - intros ann H ty. apply index_annotations_get in H as [_ H].
    rewrite H. now destruct (last_tagged ty l).
  - intros Hun. pose proof (index_annotations_untagged l [] Hun) as E.
    split; [exact E|].
    intros d labels path n Hp Hn Hl. unfold Capture.from_dict.
    rewrite Hp. cbn [getitem bind]. rewrite Hn. cbn [bind].
    rewrite Hl. cbn [getitem bind]. now rewrite E.
Qed.

Lemma parse_if_present_slot {T} ann ty (f : Raw -> result T) o :
  Capture.parse_if_present ann ty f = Ok o ->
  match o with
  | None => Dict.get String.eqb ty ann = None
  | Some r => exists b, Dict.get String.eqb ty ann = Some b /\ f b = Ok r
  end.
Proof.
  unfold Capture.parse_if_present.
  destruct (Dict.get String.eqb ty ann) as [b|]; [|now intros [= <-]].
  destruct (f b) as [r|] eqn:E; cbn [bind]; [|discriminate].
  intros [= <-]. now exists b.
Qed.

(** X9. A parsed capture copies the scalar fields of its raw record, and
    each of its annotation slots is filled exactly when the raw annotation
    list has an annotation with the type tag of the kind; the slot then
    holds the parse of the last such annotation. *)
Theorem capture_fields (d : Capture.raw Raw) (labels : list Label.t)
        (c : Capture.t Raw) :
  Capture.from_dict P d labels = Ok c ->
  Capture.raw_id d = Some (Capture.id c)
  /\ Capture.raw_description d = Some (Capture.description c)
  /\ Capture.raw_position d = Some (Capture.position c)
  /\ Capture.raw_rotation d = Some (Capture.rotation c)
  /\ Capture.raw_velocity d = Some (Capture.velocity c)
  /\ Capture.raw_acceleration d = Some (Capture.acceleration c)
  /\ Capture.raw_imageFormat d = Some (Capture.image_format c)
  /\ Capture.raw_dimension d = Some (Capture.dimension c)
  /\ Capture.raw_projection d = Some (Capture.projection c)
  /\ Capture.raw_matrix d = Some (Capture.matrix c)
  /\ exists path l,
      Capture.raw_path d = Some path
      /\ Capture.raw_annotations d = Some l
      /\ match Capture.bounding_boxes_2d c with
         | None => last_tagged (Capture.bounding_box_2d_type P) l = None
         | Some r =>
             exists b, last_tagged (Capture.bounding_box_2d_type P) l = Some b
                       /\ Capture.bounding_box_2d_from_dict P b labels = Ok r
         end
      /\ match Capture.keypoints c with
         | None => last_tagged (Capture.keypoint_type P) l = None
         | Some r =>
             exists b, last_tagged (Capture.keypoint_type P) l = Some b
                       /\ Capture.keypoint_from_dict P b labels = Ok r
         end
      /\ match Capture.instance_segmentation c with
         | None => last_tagged (Capture.instance_segmentation_type P) l = None
         | Some r =>
             exists b,
               last_tagged (Capture.instance_segmentation_type P) l = Some b
               /\ Capture.instance_segmentation_from_dict P b labels path
                  = Ok r
         end
      /\ match Capture.semantic_segmentation c with
         | None => last_tagged (Capture.semantic_segmentation_type P) l = None
         | Some r =>
             exists b,
               last_tagged (Capture.semantic_segmentation_type P) l = Some b
               /\ Capture.semantic_segmentation_from_dict P b labels path
                  = Ok r
         end.
Proof.
  unfold Capture.from_dict.
  destruct (Capture.raw_path d) as [path|]; cbn [getitem bind]; [|discriminate].
  destruct (Py.int (Py.last_component path)) as [n|]; cbn [bind];
    [|discriminate].
  destruct (Capture.raw_annotations d) as [l|]; cbn [getitem bind];
    [|discriminate].
  destruct (Capture.index_annotations l []) as [ann|] eqn:Hann; cbn [bind];
    [|discriminate].
  apply index_annotations_get in Hann as [_ Hget].
  assert (Hget' : forall ty, Dict.get String.eqb ty ann = last_tagged ty l).
  { intros ty. rewrite Hget. now destruct (last_tagged ty l). }
  destruct (Capture.parse_if_present ann (Capture.instance_segmentation_type P) _)
    as [o1|] eqn:E1; cbn [bind]; [|discriminate].
  destruct (Capture.parse_if_present ann (Capture.semantic_segmentation_type P) _)
    as [o2|] eqn:E2; cbn [bind]; [|discriminate].
  destruct (Capture.parse_if_present ann (Capture.bounding_box_2d_type P) _)
    as [o3|] eqn:E3; cbn [bind]; [|discriminate].
  destruct (Capture.parse_if_present ann (Capture.bounding_box_3d_type P) _)
    as [o4|] eqn:E4; cbn [bind]; [|discriminate].
  destruct (Capture.parse_if_present ann (Capture.depth_type P) _)
    as [o5|] eqn:E5; cbn [bind]; [|discriminate].
  destruct (Capture.parse_if_present ann (Capture.keypoint_type P) _)
    as [o6|] eqn:E6; cbn [bind]; [|discriminate].
  destruct (Capture.parse_if_present ann (Capture.transform_type P) _)
    as [o7|] eqn:E7; cbn [bind]; [|discriminate].
  apply parse_if_present_slot in E1, E2, E3, E6. rewrite Hget' in E1, E2, E3, E6.
  destruct (Capture.raw_id d); cbn [getitem bind]; [|discriminate].
  destruct (Capture.raw_description d); cbn [getitem bind]; [|discriminate].
  destruct (Capture.raw_position d); cbn [getitem bind]; [|discriminate].
  destruct (Capture.raw_rotation d); cbn [getitem bind]; [|discriminate].
  destruct (Capture.raw_velocity d); cbn [getitem bind]; [|discriminate].
  destruct (Capture.raw_acceleration d); cbn [getitem bind]; [|discriminate].
  destruct (Capture.raw_filename d); cbn [getitem bind]; [|discriminate].
  destruct (Capture.raw_imageFormat d); cbn [getitem bind]; [|discriminate].
  destruct (Capture.raw_dimension d); cbn [getitem bind]; [|discriminate].
  destruct (Capture.raw_projection d); cbn [getitem bind]; [|discriminate].
  destruct (Capture.raw_matrix d); cbn [getitem bind]; [|discriminate].
  intros [= <-]. cbn. repeat (split; [reflexivity|]).
  exists path, l. now repeat split.
Qed.

End Captures.

(** ** Metrics *)

Lemma parse_values_spec {T} (f : Metric.raw_value -> result T) d o :
  Metric.parse_values f d = Ok o ->
  match o with
  | None => Metric.raw_values d = None
  | Some vs =>
      exists rvs, Metric.raw_values d = Some rvs
                  /\ Forall2 (fun r v => f r = Ok v) rvs vs
  end.
Proof.
  unfold Metric.parse_values.
  destruct (Metric.raw_values d) as [rvs|]; [|now intros [= <-]].
  destruct (for_each _ rvs) as [vs|] eqn:E; cbn [bind]; [|discriminate].
  intros [= <-]. exists rvs. split; [reflexivity|].
  revert vs E. induction rvs as [|r rvs IH]; intros vs; cbn [for_each].
  - intros [= <-]. constructor.
  - destruct (f r) as [v|] eqn:Ef; cbn [bind]; [|discriminate].
    destruct (for_each _ rvs) as [vs'|]; cbn [bind]; [|discriminate].
    intros [= <-]. constructor; [exact Ef | now apply IH].
Qed.

Lemma occlusion_value_copied r v :
  Metric.occlusion_value_from_dict r = Ok v -> occlusion_copied r v.
Proof.
  unfold Metric.occlusion_value_from_dict, occlusion_copied.
  destruct (Metric.raw_instanceId r); cbn [getitem bind]; [|discriminate].
  destruct (Metric.raw_percentVisible r); cbn [getitem bind]; [|discriminate].
  destruct (Metric.raw_percentInFrame r); cbn [getitem bind]; [|discriminate].
  destruct (Metric.raw_visibilityInFrame r); cbn [getitem bind];
    [|discriminate].
  intros [= <-]. now repeat split.
Qed.

Lemma count_value_copied r v :
  Metric.object_count_value_from_dict r = Ok v -> count_copied r v.
Proof.
  unfold Metric.object_count_value_from_dict, count_copied.
  destruct (Metric.raw_labelId r); cbn [getitem bind]; [|discriminate].
  destruct (Metric.raw_labelName r); cbn [getitem bind]; [|discriminate].
  destruct (Metric.raw_count r); cbn [getitem bind]; [|discriminate].
  intros [= <-]. now repeat split.
Qed.

Lemma occlusion_metric_parsed d om :
  Metric.occlusion_metric_from_dict d = Ok om ->
  Metric.raw_id d = Some (OcclusionMetric.id om)
  /\ Metric.raw_sensorId d = Some (OcclusionMetric.sensor_id om)
  /\ Metric.raw_annotationId d = Some (OcclusionMetric.annotation_id om)
  /\ Metric.raw_description d = Some (OcclusionMetric.description om)
  /\ (exists path, Metric.raw_path d = Some path
                   /\ Py.int (Py.last_component path)
                      = Ok (OcclusionMetric.sequence om))
  /\ match OcclusionMetric.values om with
     | None => Metric.raw_values d = None
     | Some vs =>
         exists rvs, Metric.raw_values d = Some rvs
                     /\ Forall2 occlusion_copied rvs vs
     end.
Proof.
  unfold Metric.occlusion_metric_from_dict.
  destruct (Metric.raw_id d); cbn [getitem bind]; [|discriminate].
  destruct (Metric.raw_path d) as [path|]; cbn [getitem bind]; [|discriminate].
  destruct (Py.int (Py.last_component path)) as [n|] eqn:Hn; cbn [bind];
    [|discriminate].
  destruct (Metric.raw_sensorId d); cbn [getitem bind]; [|discriminate].
  destruct (Metric.raw_annotationId d); cbn [getitem bind]; [|discriminate].
  destruct (Metric.raw_description d); cbn [getitem bind]; [|discriminate].
  destruct (Metric.parse_values _ d) as [o|] eqn:Ev; cbn [bind];
    [|discriminate].
  intros [= <-]. cbn. repeat (split; [reflexivity|]).
  split; [now exists path|].
  apply parse_values_spec in Ev. destruct o as [vs|]; [|exact Ev].
  destruct Ev as [rvs [Hr Hall]]. exists rvs. split; [exact Hr|].
  eapply Forall2_impl; [|exact Hall]. apply occlusion_value_copied.
Qed.

Lemma object_count_metric_parsed d om :
  Metric.object_count_metric_from_dict d = Ok om ->
  Metric.raw_id d = Some (ObjectCountMetric.id om)
  /\ Metric.raw_sensorId d = Some (ObjectCountMetric.sensor_id om)
  /\ Metric.raw_annotationId d = Some (ObjectCountMetric.annotation_id om)
  /\ Metric.raw_description d = Some (ObjectCountMetric.description om)
  /\ (exists path, Metric.raw_path d = Some path
                   /\ Py.int (Py.last_component path)
                      = Ok (ObjectCountMetric.sequence om))
  /\ match ObjectCountMetric.values om with
     | None => Metric.raw_values d = None
     | Some vs =>
         exists rvs, Metric.raw_values d = Some rvs
                     /\ Forall2 count_copied rvs vs
     end.
Proof.
  unfold Metric.object_count_metric_from_dict.
  destruct (Metric.raw_id d); cbn [getitem bind]; [|discriminate].
  destruct (Metric.raw_path d) as [path|]; cbn [getitem bind]; [|discriminate].
  destruct (Py.int (Py.last_component path)) as [n|] eqn:Hn; cbn [bind];
    [|discriminate].
  destruct (Metric.raw_sensorId d); cbn [getitem bind]; [|discriminate].
  destruct (Metric.raw_annotationId d); cbn [getitem bind]; [|discriminate].
  destruct (Metric.raw_description d); cbn [getitem bind]; [|discriminate].
  destruct (Metric.parse_values _ d) as [o|] eqn:Ev; cbn [bind];
    [|discriminate].
  intros [= <-]. cbn. repeat (split; [reflexivity|]).
  split; [now exists path|].
  apply parse_values_spec in Ev. destruct o as [vs|]; [|exact Ev].
  destruct Ev as [rvs [Hr Hall]]. exists rvs. split; [exact Hr|].
  eapply Forall2_impl; [|exact Hall]. apply count_value_copied.
Qed.

(** The outer record of a metric, whatever its kind. *)
Lemma metric_outer d m :
  Metric.from_dict d = Ok m ->
  exists ty,
    Metric.raw_type d = Some ty
    /\ Metric.raw_id d = Some (Metric.id m)
    /\ Metric.raw_sensorId d = Some (Metric.sensor_id m)
    /\ Metric.raw_description d = Some (Metric.description m)
    /\ (if String.eqb ty Metric.TYPE_OBJECT_COUNT
        then exists ocm, Metric.object_count_metric m = Some ocm
                         /\ Metric.object_count_metric_from_dict d = Ok ocm
        else Metric.object_count_metric m = None)
    /\ (if String.eqb ty Metric.TYPE_OCCLUSION
        then exists om, Metric.occlusion_metric m = Some om
                        /\ Metric.occlusion_metric_from_dict d = Ok om
        else Metric.occlusion_metric m = None).
Proof.
  unfold Metric.from_dict.
  destruct (Metric.raw_type d) as [ty|]; cbn [getitem bind]; [|discriminate].
  intros H. exists ty.
  destruct (if String.eqb ty Metric.TYPE_OBJECT_COUNT then _ else _)
    as [oc|] eqn:E1; cbn [bind] in H; [|discriminate].
  destruct (if String.eqb ty Metric.TYPE_OCCLUSION then _ else _)
    as [occ|] eqn:E2; cbn [bind] in H; [|discriminate].
  destruct (Metric.raw_id d); cbn [getitem bind] in H; [|discriminate].
  destruct (Metric.raw_path d) as [path|]; cbn [getitem bind] in H;
    [|discriminate].
  destruct (Py.int (Py.last_component path)); cbn [bind] in H;
    [|discriminate].
  destruct (Metric.raw_sensorId d); cbn [getitem bind] in H; [|discriminate].
  destruct (Metric.raw_description d); cbn [getitem bind] in H;
    [|discriminate].
  injection H as <-. cbn. repeat (split; [reflexivity|]). split.
  - destruct (String.eqb ty Metric.TYPE_OBJECT_COUNT).
    + destruct (Metric.object_count_metric_from_dict d) as [ocm|];
        cbn [bind] in E1; [|discriminate].
      injection E1 as <-. now exists ocm.
    + now injection E1 as <-.
  - destruct (String.eqb ty Metric.TYPE_OCCLUSION).
    + destruct (Metric.occlusion_metric_from_dict d) as [om|];
        cbn [bind] in E2; [|discriminate].
      injection E2 as <-. now exists om.
    + now injection E2 as <-.
Qed.

(** X10. A parsed metric copies the id, sensor id and description of its
    raw record; it carries an object count record exactly when the type tag
    is that of object count metrics, an occlusion record exactly when the
    tag is that of occlusion metrics, and never both: any other tag, known
    or not, gives a metric without either. *)
Theorem metric_kinds (d : Metric.raw) (m : Metric.t) :
  Metric.from_dict d = Ok m ->
  Metric.raw_id d = Some (Metric.id m)
  /\ Metric.raw_sensorId d = Some (Metric.sensor_id m)
  /\ Metric.raw_description d = Some (Metric.description m)
  /\ (Metric.object_count_metric m <> None
      <-> Metric.raw_type d = Some Metric.TYPE_OBJECT_COUNT)
  /\ (Metric.occlusion_metric m <> None
      <-> Metric.raw_type d = Some Metric.TYPE_OCCLUSION)
  /\ (Metric.object_count_metric m = None
      \/ Metric.occlusion_metric m = None).
Proof.
  intros H. apply metric_outer in H
    as [ty [Hty [Hid [Hs [Hd [Hoc Hocc]]]]]].
  repeat (split; [assumption|]). rewrite Hty.
  destruct (String.eqb_spec ty Metric.TYPE_OBJECT_COUNT) as [E1|E1];
    destruct (String.eqb_spec ty Metric.TYPE_OCCLUSION) as [E2|E2].
  - subst ty. discriminate E2.
  - destruct Hoc as [ocm [-> _]]. rewrite Hocc. subst ty.
    repeat split; try congruence. now right.
  - destruct Hocc as [om [-> _]]. rewrite Hoc. subst ty.
    repeat split; try congruence. now left.
  - rewrite Hoc, Hocc. repeat split; try congruence. now left.
Qed.

(** X11. The occlusion record of a parsed metric repeats the id and the
    sequence of the metric; it has no list of values exactly when the raw
    metric has no [values] key, and otherwise one value per raw entry, in
    order, each copying the four fields of its entry. *)
Theorem occlusion_values_copied (d : Metric.raw) (m : Metric.t)
        (om : OcclusionMetric.t) :
  Metric.from_dict d = Ok m ->
  Metric.occlusion_metric m = Some om ->
  OcclusionMetric.id om = Metric.id m
  /\ OcclusionMetric.sequence om = Metric.sequence m
  /\ match OcclusionMetric.values om with
     | None => Metric.raw_values d = None
     | Some vs =>
         exists rvs, Metric.raw_values d = Some rvs
                     /\ Forall2 occlusion_copied rvs vs
     end.
Proof.
  intros H Hom.
  destruct (AggregateProofs.metric_path_sequence d m H) as [path [Hp Hseq]].
  apply metric_outer in H as [ty [_ [Hid [_ [_ [_ Hocc]]]]]].
  destruct (String.eqb ty Metric.TYPE_OCCLUSION); [|congruence].
  destruct Hocc as [om' [Hom' Hparse]].
  assert (om' = om) by congruence. subst om'.
  apply occlusion_metric_parsed in Hparse
    as [Hid' [_ [_ [_ [[path' [Hp' Hseq']] Hv]]]]].
  split; [congruence|]. split; [|exact Hv].
  assert (path' = path) by congruence. subst path'. congruence.
Qed.

(** The sample capture and the sample metric. *)
Lemma capture_fields_witness :
  exists c,
    Capture.from_dict Sample.parsers Sample.raw_capture [] = Ok c
    /\ Capture.raw_dimension Sample.raw_capture = Some (Capture.dimension c).
Proof.
  destruct (Capture.from_dict Sample.parsers Sample.raw_capture [])
    as [c|] eqn:Hc; [|vm_compute in Hc; discriminate Hc].
  exists c. split; [reflexivity|].
  destruct (capture_fields Sample.parsers Sample.raw_capture [] c Hc)
    as [_ [_ [_ [_ [_ [_ [_ [H _]]]]]]]].
  exact H.
Defined.

Lemma sample_metric_parsed :
  exists m, Metric.from_dict Sample.raw_metric = Ok m.
Proof. eexists. vm_compute. reflexivity. Qed.

Lemma metric_kinds_witness :
  exists m,
    Metric.from_dict Sample.raw_metric = Ok m
    /\ Metric.object_count_metric m = None.
Proof.
  destruct sample_metric_parsed as [m Hm]. exists m. split; [exact Hm|].
  destruct (metric_kinds Sample.raw_metric m Hm)
    as [_ [_ [_ [H _]]]].
  destruct (Metric.object_count_metric m); [|reflexivity].
  assert (Hne : Some t <> None) by discriminate.
  apply H in Hne. discriminate Hne.
Defined.

Lemma occlusion_values_copied_witness :
  exists m om,
    Metric.from_dict Sample.raw_metric = Ok m
    /\ Metric.occlusion_metric m = Some om
    /\ OcclusionMetric.id om = Metric.id m.
Proof.
  destruct sample_metric_parsed as [m Hm].
  destruct (Metric.occlusion_metric m) as [om|] eqn:Hom.
  - exists m, om. split; [exact Hm|]. split; [exact Hom|].
    destruct (occlusion_values_copied Sample.raw_metric m om Hm Hom) as [H _].
    exact H.
  - exfalso. vm_compute in Hm. injection Hm as <-. discriminate Hom.
Defined.

End RecordProofs.

(* ================================================================== *)
(** * The lines of the box and of the segmentation files *)

Module LineProofs.
Import Convert BoxSpec KeypointSpec LineSpec RoundProofs BoxProofs
       KeypointProofs.

Lemma for_each_singletons {A B} (f : A -> result (list B)) (g : A -> B) l :
  Forall (fun a => f a = Ok [g a]) l -> for_each f l = Ok (map g l).
Proof.
  induction 1 as [|a l Ha _ IH]; cbn [for_each map]; [reflexivity|].
  now rewrite Ha, IH.
Qed.

Section Rounding.
Local Open Scope Q_scope.

(** Rounding to an integer stays between the integers around the value. *)
Lemma round_half_even_between (y : Q) (n m : Z) :
  inject_Z n <= y -> y <= inject_Z m ->
  (n <= Py.round_half_even y <= m)%Z.
Proof.
  intros Hn Hm. unfold Py.round_half_even.
  pose proof (Qfloor_le y) as Hle.
  assert (Hnf : (n <= Qfloor y)%Z).
  { rewrite <- (Qfloor_Z n). now apply Qfloor_resp_le. }
  assert (Hfm : (Qfloor y <= m)%Z).
  { rewrite <- (Qfloor_Z m). now apply Qfloor_resp_le. }
  set (f := Qfloor y) in *.
  destruct (Z.eq_dec f m) as [E|E].
  - assert (Hr : y - inject_Z f == 0).
    { rewrite E in *. lra. }
    assert (Hlt : y - inject_Z f < 1 # 2) by (rewrite Hr; reflexivity).
    rewrite Qlt_alt in Hlt. rewrite Hlt. lia.
  - destruct (y - inject_Z f ?= 1 # 2); [destruct (Z.even f)|..]; lia.
Qed.

Lemma round_half_even_small (y : Q) :
  0 <= y -> y < 1 # 2 -> Py.round_half_even y = 0%Z.
Proof.
  intros H0 H1. unfold Py.round_half_even.
  pose proof (Qfloor_le y) as Hle. pose proof (Qlt_floor y) as Hlt.
  rewrite inject_Z_plus in Hlt. change (inject_Z 1) with 1 in Hlt.
  assert (E : Qfloor y = 0%Z).
  { assert (H2 : inject_Z (Qfloor y) < inject_Z 1)
      by (change (inject_Z 1) with 1; lra).
    assert (H3 : inject_Z (-1) < inject_Z (Qfloor y))
      by (change (inject_Z (-1)) with (-1 # 1); lra).
    rewrite <- Zlt_Qlt in H2, H3. lia. }
  rewrite E. change (inject_Z 0) with 0.
  assert (Hc : y - 0 < 1 # 2) by lra.
  rewrite Qlt_alt in Hc. now rewrite Hc.
Qed.

Lemma pow10_nonneg_int (p : Z) :
  (0 <= p)%Z -> Py.pow10 p == inject_Z (10 ^ p).
Proof.
  intros Hp. unfold Py.pow10. rewrite Zpower_Qpower by exact Hp. reflexivity.
Qed.

(** A value of the unit interval stays in it when rounded, whatever the
    number of digits. *)
Lemma round_unit (t : Q) (p : Z) :
  unit_interval t -> unit_interval (Py.round t p).
Proof.
  intros [H0 H1]. unfold unit_interval, Py.round.
  pose proof (pow10_pos p) as Hs.
  destruct (Z.le_gt_cases 0 p) as [Hp|Hp].
  - pose proof (pow10_nonneg_int p Hp) as E.
    set (s := Py.pow10 p) in *.
    destruct (round_half_even_between (t * s) 0 (10 ^ p)) as [Ha Hb].
    + change (inject_Z 0) with 0. nra.
    + rewrite <- E. nra.
    + rewrite Zle_Qle in Ha, Hb. change (inject_Z 0) with 0 in Ha.
      rewrite <- E in Hb. split.
      * apply Qle_shift_div_l; [exact Hs | lra].
      * apply Qle_shift_div_r; [exact Hs | lra].
  - assert (Hinv : Py.pow10 p == / Py.pow10 (- p)).
    { rewrite <- (Z.opp_involutive p) at 1. apply pow10_opp. }
    pose proof (pow10_nonneg_int (- p) ltac:(lia)) as E.
    assert (Hten : (10 <= 10 ^ (- p))%Z).
    { change 10%Z with (10 ^ 1)%Z at 1. apply Z.pow_le_mono_r; lia. }
    rewrite Zle_Qle in Hten. rewrite <- E in Hten.
    change (inject_Z 10) with 10 in Hten.
    pose proof (pow10_pos (- p)) as Hs'.
    set (s := Py.pow10 p) in *. set (s' := Py.pow10 (- p)) in *.
    assert (Hsmall : s <= 1 # 10).
    { rewrite Hinv. apply Qle_shift_inv_r; [exact Hs' | lra]. }
    rewrite (round_half_even_small (t * s)) by nra.
    change (inject_Z 0) with 0. split.
    + apply Qle_shift_div_l; [exact Hs | lra].
    + apply Qle_shift_div_r; [exact Hs | lra].
Qed.

Lemma quotient_unit (a w : Q) :
  0 < w -> 0 <= a -> a <= w -> unit_interval (a / w).
Proof.
  intros Hw H0 H1. split.
  - apply Qle_shift_div_l; [exact Hw | lra].
  - apply Qle_shift_div_r; [exact Hw | lra].
Qed.

End Rounding.

Section WithCollaborators.
Context (X : collaborators) {Raw : Type}.




(** X13. The four values of a box line lie between 0 and 1 when the box
    lies inside the image, whatever the precision. *)
Theorem normalized_in_unit_interval (bb : BoundingBox2D.t) (w h : Q)
        (p : Z) :
  planar bb -> (0 < w)%Q -> (0 < h)%Q -> inside w h bb ->
  exists cx cy bw bh,
    normalized_box bb w h p = Ok (cx, cy, bw, bh)
    /\ unit_interval cx /\ unit_interval cy
    /\ unit_interval bw /\ unit_interval bh.
Proof.
  intros [Ho Hd] Hw Hh Hin.
  assert (Hw' : ~ (w == 0)%Q) by lra. assert (Hh' : ~ (h == 0)%Q) by lra.
  pose proof (normalized_box_coordinates bb w h p Ho Hd Hw' Hh') as E.
  cbv zeta in E. do 4 eexists. split; [exact E|].
  unfold inside in Hin. cbv zeta in Hin.
  destruct Hin as [Hx [Hbw [Hxw [Hy [Hbh Hyh]]]]].
  clear E.
  generalize dependent (coordinate (BoundingBox2D.origin bb) 0).
  generalize dependent (coordinate (BoundingBox2D.origin bb) 1).
  generalize dependent (coordinate (BoundingBox2D.dimension bb) 0).
  generalize dependent (coordinate (BoundingBox2D.dimension bb) 1).
  intros bh Hbh bw Hbw y Hy Hyh x Hx Hxw.
  assert (Hhalf : forall a : Q, (a / 2 == a * (1 # 2))%Q)
    by (intros a; field).
  split; [|split; [|split]]; apply round_unit; apply quotient_unit;
    rewrite ?Hhalf; lra.
Qed.

End WithCollaborators.

(** ** Segmentation lines *)

Section Segmentation.
Context (X : collaborators) {Raw : Type}.

Lemma skipn_index {A} (l : list A) (n : nat) :
  (n < List.length l)%nat ->
  exists a, index l n = Ok a /\ skipn n l = a :: skipn (S n) l.
Proof.
  revert n. induction l as [|b l IH]; intros n Hn; cbn in Hn; [lia|].
  destruct n as [|n].
  - exists b. now split.
  - destruct (IH n ltac:(lia)) as [a [Ha Hs]]. exists a. split.
    + exact Ha.
    + exact Hs.
Qed.

Lemma coord_pairs_aligned (n : nat) (xs ys : list Q) :
  (n + List.length xs <= List.length ys)%nat ->
  coord_pairs X n xs ys = Ok (map (vertex X) (combine xs (skipn n ys))).
Proof.
  revert n. induction xs as [|x xs IH]; intros n Hn; cbn [coord_pairs].
  - reflexivity.
  - cbn [List.length] in Hn.
    destruct (skipn_index ys n ltac:(lia)) as [y [Hy Hs]].
    rewrite Hy. cbn [bind]. rewrite IH by lia. cbn [bind].
    rewrite Hs. reflexivity.
Qed.

Lemma coord_pairs_short (n : nat) (xs ys : list Q) :
  xs <> [] -> (List.length ys < n + List.length xs)%nat ->
  coord_pairs X n xs ys = Raise IndexError.
Proof.
  revert n. induction xs as [|x xs IH]; intros n Hne Hn; [easy|].
  cbn [coord_pairs]. unfold index at 1.
  destruct (nth_error ys n) as [y|] eqn:E; cbn [bind]; [|reflexivity].
  assert (Hlt : (n < List.length ys)%nat)
    by (apply nth_error_Some; congruence).
  cbn [List.length] in Hn.
  rewrite IH; [reflexivity | | lia].
  destruct xs; [cbn in Hn; lia | easy].
Qed.

Lemma coord_pairs_error (n : nat) (xs ys : list Q) e :
  coord_pairs X n xs ys = Raise e -> e = IndexError.
Proof.
  revert n. induction xs as [|x xs IH]; intros n; cbn [coord_pairs];
    [discriminate|].
  unfold index at 1. destruct (nth_error ys n); cbn [bind];
    [|now intros [= <-]].
  destruct (coord_pairs X (S n) xs ys) eqn:E; cbn [bind]; [discriminate|].
  intros [= <-]. now apply (IH (S n)).
Qed.

Lemma fstr_head (a t : string) (l : list string) :
  fstr ((a ++ t)%string :: l) = fstr (a :: t :: l).
Proof.
  unfold fstr. cbn [String.concat].
  destruct l as [|u l]; cbn [String.append].
  - reflexivity.
  - generalize (String.concat "" (u :: l)). intros r.
    induction a as [|ch a IH]; cbn [String.append]; [reflexivity|].
    now rewrite IH.
Qed.

Lemma add_polygons_aligned (annotation : string)
      (polygons : list (list Q * list Q)) :
  Forall aligned polygons ->
  add_polygons X annotation polygons
  = Ok (fstr (annotation :: map (polygon_text X) polygons)).
Proof.
  intros H. revert annotation.
  induction H as [|[xs ys] polygons Ha _ IH]; intros annotation;
    cbn [add_polygons map].
  - reflexivity.
  - unfold aligned in Ha. cbn [fst snd] in Ha.
    rewrite coord_pairs_aligned by (cbn; lia). cbn [bind skipn].
    rewrite IH, fstr_head. reflexivity.
Qed.

Lemma add_polygons_error (annotation : string)
      (polygons : list (list Q * list Q)) e :
  add_polygons X annotation polygons = Raise e -> e = IndexError.
Proof.
  revert annotation.
  induction polygons as [|[xs ys] polygons IH]; intros annotation;
    cbn [add_polygons]; [discriminate|].
  destruct (coord_pairs X 0 xs ys) eqn:E; cbn [bind].
  - apply IH.
  - intros [= <-]. now apply coord_pairs_error in E.
Qed.

Lemma add_polygons_misaligned (annotation : string)
      (polygons : list (list Q * list Q)) :
  Exists (fun polygon => ~ aligned polygon) polygons ->
  add_polygons X annotation polygons = Raise IndexError.
Proof.
  intros H. revert annotation.
  induction polygons as [|[xs ys] polygons IH]; intros annotation;
    [now apply Exists_nil in H|].
  cbn [add_polygons].
  destruct (coord_pairs X 0 xs ys) as [pairs|e] eqn:E; cbn [bind].
  - apply IH. apply Exists_cons in H as [H|H]; [|exact H].
    exfalso. unfold aligned in H. cbn [fst snd] in H.
    destruct xs as [|x xs]; [cbn in H; lia|].
    rewrite coord_pairs_short in E; [discriminate | easy | cbn in *; lia].
  - now rewrite (coord_pairs_error _ _ _ _ E).
Qed.

Local Abbreviation polygons_of seg p instance :=
  (detect_colored_polygons X
     (imread X (InstanceSegmentationAnnotation.file_path seg))
     (Instance.color instance) p).

(** X14. A capture without instance segmentation has no segmentation
    lines.  Otherwise, when every detected boundary has a y for every x,
    there is one line per instance, in order: the label id followed by the
    vertices of each polygon of its colour, so an instance of which no
    polygon is detected still gets a line, made of its label id alone.  A
    boundary with fewer ys than xs makes the capture raise
    [IndexError]. *)
Theorem segmentation_lines (c : Capture.t Raw) (p : Z) :
  (Capture.instance_segmentation c = None ->
   get_segmentation_annotations X c p = Ok [])
  /\ (forall seg,
        Capture.instance_segmentation c = Some seg ->
        (Forall (fun instance => Forall aligned (polygons_of seg p instance))
                (InstanceSegmentationAnnotation.instances seg) ->
         get_segmentation_annotations X c p
         = Ok (map (fun instance =>
                      segmentation_line X instance
                                        (polygons_of seg p instance))
                   (InstanceSegmentationAnnotation.instances seg)))
        /\ (Exists (fun instance =>
                      Exists (fun polygon => ~ aligned polygon)
                             (polygons_of seg p instance))
                   (InstanceSegmentationAnnotation.instances seg) ->
            get_segmentation_annotations X c p = Raise IndexError))
  /\ (forall instance,
        segmentation_line X instance []
        = Py.str (Label.id (Instance.label instance))).
Proof.
  unfold get_segmentation_annotations. split; [now intros ->|].
  split; [|reflexivity].
  intros seg ->. split.
  - intros Hall. apply for_each_singletons.
    eapply Forall_impl; [|exact Hall]. cbv beta. intros instance Hi.
    now rewrite add_polygons_aligned.
  - induction 1 as [instance l H|instance l _ IH]; cbn [for_each].
    + now rewrite add_polygons_misaligned.
    + destruct (add_polygons X _ _) as [a|e] eqn:E; cbn [bind].
      * now rewrite IH.
      * now rewrite (add_polygons_error _ _ _ E).
Qed.

End Segmentation.


Lemma normalized_in_unit_interval_witness :
  exists cx cy bw bh,
    normalized_box Sample.box1 1920 1080 6 = Ok (cx, cy, bw, bh)
    /\ unit_interval cx /\ unit_interval cy
    /\ unit_interval bw /\ unit_interval bh.
Proof.
  apply (normalized_in_unit_interval Sample.box1 1920 1080 6).
  - split; cbn; lia.
  - reflexivity.
  - reflexivity.
  - unfold inside, coordinate. cbn. repeat split; discriminate.
Defined.

End LineProofs.

(* ================================================================== *)
(** * The output directory *)

Module ScaffoldProofs.
Import DataDirectory DataDirectoryProofs ExportSpec.

(** The loop stops at the least free suffix. *)
Lemma first_free_least fs path i fuel j :
  first_free fs path i fuel = Some j ->
  forall k, i <= k < j -> path_exists fs (numbered path k) = true.
Proof.
  revert i. induction fuel as [|fuel IH]; intros i; cbn [first_free];
    [discriminate|].
  destruct (path_exists fs (fstr [path; "_"; Py.str i])) eqn:E.
  - intros H k Hk. destruct (Z.eq_dec k i) as [->|Hne]; [exact E|].
    apply (IH _ H). lia.
  - intros [= <-] k Hk. lia.
Qed.

Lemma first_free_bound fs path i fuel j :
  first_free fs path i fuel = Some j -> j < i + Z.of_nat fuel.
Proof.
  revert i. induction fuel as [|fuel IH]; intros i; cbn [first_free];
    [discriminate|].
  destruct (path_exists fs (fstr [path; "_"; Py.str i])).
  - intros H. apply IH in H. lia.
  - intros [= <-]. lia.
Qed.

Lemma free_suffix_least fs path :
  let i := free_suffix fs path in
  1 <= i <= Z.of_nat (List.length (files fs) + List.length (dirs fs)) + 1
  /\ path_exists fs (numbered path i) = false
  /\ forall k, 1 <= k < i -> path_exists fs (numbered path k) = true.
Proof.
  cbv zeta. pose proof (free_suffix_free fs path) as [H1 Hfree].
  unfold free_suffix in *.
  destruct (first_free fs path 1 _) as [j|] eqn:E; [|lia].
  pose proof (first_free_bound _ _ _ _ _ E) as Hb.
  repeat split; [lia | lia | exact Hfree |].
  now apply first_free_least with (fuel := S (List.length (files fs)
                                              + List.length (dirs fs))).
Qed.

Section WithCollaborators.
Context (X : collaborators).



(** X16. When the requested directory exists, the directory created is the
    requested one with the least suffix [_i], [i >= 1], that is free: every
    smaller suffix is taken, and [i] is at most one more than the number of
    paths of the file system. *)
Theorem directory_suffix_least (fs : filesystem) (path : string)
        (include_test : bool) :
  path_isdir fs (normpath X path) = true ->
  exists i,
    1 <= i <= Z.of_nat (List.length (files fs) + List.length (dirs fs)) + 1
    /\ snd (create_yolo_data_dir X fs path include_test)
       = Ok (numbered (normpath X path) i,
             (Py.join2 (numbered (normpath X path) i)
                       (basename (normpath X path)) ++ ".yaml")%string)
    /\ path_exists fs (numbered (normpath X path) i) = false
    /\ forall k, 1 <= k < i ->
                 path_exists fs (numbered (normpath X path) k) = true.
Proof.
  intros Hdir. exists (free_suffix fs (normpath X path)).
  destruct (free_suffix_least fs (normpath X path)) as [Hb [Hfree Hleast]].
  split; [exact Hb|]. split; [|split; assumption].
  unfold create_yolo_data_dir.
  assert (Hex : path_exists fs (normpath X path) = true)
    by (unfold path_exists; rewrite Hdir; apply orb_true_r).
  rewrite Hex, Hdir. cbn [andb negb].
  now destruct include_test.
Qed.

End WithCollaborators.

(** [out] and [out_1] are taken: the directory created is [out_2], and its
    manifest is [out_2/out.yaml]. *)
Lemma directory_suffix_least_witness :
  exists i,
    1 <= i <= 3
    /\ snd (create_yolo_data_dir Sample.collaborators taken "out" false)
       = Ok (numbered "out" i,
             (Py.join2 (numbered "out" i) "out" ++ ".yaml")%string)
    /\ path_exists taken (numbered "out" i) = false
    /\ forall k, 1 <= k < i -> path_exists taken (numbered "out" k) = true.
Proof.
  apply (directory_suffix_least Sample.collaborators taken "out" false).
  reflexivity.
Defined.


End ScaffoldProofs.

(* ================================================================== *)
(** * The export as a whole *)

Module ExportProofs.
Import Convert ConvertSpec EmissionSpec ExportSpec IOFacts ConvertProofs
       EmissionProofs.

Section WithCollaborators.
Context (X : collaborators) {Raw : Type}.

Local Abbreviation header cfg u yaml :=
  (WriteFile yaml
     (yaml_header X yaml u (include_keypoints cfg) (n_keypoints cfg)
                  (flip_idx cfg) (include_test cfg))).

(** X17. When the split generator returns more tags than there are valid
    captures, the conversion fails: the iteration after the last valid
    capture raises [IndexError] before it writes anything, and that is the
    error of the conversion when every valid capture was converted. *)
Theorem split_overrun (fs : filesystem) (u : UnityData.t Raw)
        (output_path : string) (cfg : config) :
  let valid := valid_captures cfg u in
  (List.length valid < List.length (split_tags X cfg u))%nat ->
  (exists e, snd (unity_to_yolo X fs u output_path cfg) = Raise e)
  /\ (forall path s,
        emit_capture X cfg u path valid (List.length valid) s
        = ([], Raise IndexError))
  /\ (forall tr path yaml,
        include_keypoints cfg && is_none (n_keypoints cfg) = false ->
        DataDirectory.create_yolo_data_dir X fs output_path
                                           (include_test cfg)
        = (tr, Ok (path, yaml)) ->
        (forall j s, (j < List.length valid)%nat ->
           nth_error (split_tags X cfg u) j = Some s ->
           snd (emit_capture X cfg u path valid j s) = Ok tt) ->
        snd (unity_to_yolo X fs u output_path cfg) = Raise IndexError).
Proof.
  cbv zeta. intros Hlen.
  set (valid := valid_captures cfg u) in *.
  assert (Hout : forall path s,
             emit_capture X cfg u path valid (List.length valid) s
             = ([], Raise IndexError)).
  { intros path s. apply emit_capture_out_of_range.
    apply nth_error_None. lia. }
  destruct (nth_error (split_tags X cfg u) (List.length valid)) as [s|] eqn:Hs;
    [|apply nth_error_None in Hs; lia].
  split; [|split].
  - apply unity_to_yolo_failure. intros path.
    apply (emit_all_failure X cfg u path valid 0 (split_tags X cfg u)
             (List.length valid) s IndexError Hs).
    cbn [Nat.add]. now rewrite Hout.
  - exact Hout.
  - intros tr path yaml Hcfg Hdir Hok.
    destruct (unity_to_yolo_trace X fs u output_path cfg tr path yaml Hcfg Hdir)
      as [_ ->].
    fold valid.
    destruct (emit_all_reached X cfg u path valid 0 (split_tags X cfg u)
                (List.length valid) s Hs) as [_ Herr].
    { intros j' s' Hlt Hs'. cbn [Nat.add]. now apply Hok. }
    cbn [Nat.add] in Herr. rewrite (Herr IndexError); [reflexivity|].
    now rewrite Hout.
Qed.

Lemma is_valid_with_bboxes b cfg (c : Capture.t Raw) :
  include_keypoints cfg = true ->
  is_valid (with_bboxes b cfg) c = is_valid cfg c.
Proof.
  intros Hk. unfold is_valid.
  cbn [with_bboxes include_bboxes include_keypoints include_segmentation
       include_semantic_mask].
  now rewrite Hk, !orb_true_r.
Qed.

Lemma emit_capture_with_bboxes b cfg (u : UnityData.t Raw) path valid i s :
  include_keypoints cfg = true ->
  emit_capture X (with_bboxes b cfg) u path valid i s
  = emit_capture X cfg u path valid i s.
Proof.
  intros Hk. unfold emit_capture.
  cbn [with_bboxes include_bboxes include_keypoints include_segmentation
       include_semantic_mask include_occlusion precision].
  rewrite Hk. cbn [negb]. now rewrite !andb_false_r.
Qed.

Lemma emit_all_with_bboxes b cfg (u : UnityData.t Raw) path valid i split :
  include_keypoints cfg = true ->
  emit_all X (with_bboxes b cfg) u path valid i split
  = emit_all X cfg u path valid i split.
Proof.
  intros Hk. revert i. induction split as [|s rest IH]; intros i;
    cbn [emit_all]; [reflexivity|].
  now rewrite emit_capture_with_bboxes, IH.
Qed.

(** X18. When keypoints are requested, [include_bboxes] changes nothing:
    the same captures are valid, the same files are written with the same
    content, and the result is the same. *)
Theorem bboxes_flag_ignored (fs : filesystem) (u : UnityData.t Raw)
        (output_path : string) (cfg : config) (b : bool) :
  include_keypoints cfg = true ->
  unity_to_yolo X fs u output_path (with_bboxes b cfg)
  = unity_to_yolo X fs u output_path cfg.
Proof.
  intros Hk.
  assert (Hvalid : valid_captures (with_bboxes b cfg) u
                   = valid_captures cfg u).
  { unfold valid_captures. apply filter_ext. intros c.
    now apply is_valid_with_bboxes. }
  unfold unity_to_yolo. rewrite Hvalid.
  cbn [with_bboxes include_keypoints n_keypoints flip_idx include_test].
  destruct (include_keypoints cfg && is_none (n_keypoints cfg));
    [reflexivity|].
  destruct (DataDirectory.create_yolo_data_dir X fs output_path
              (include_test cfg)) as [tr [[path yaml]|e]];
    cbn [io_bind]; [|reflexivity].
  now rewrite emit_all_with_bboxes.
Qed.

(** X19. Nothing is rolled back.  Once the directory is created, take an
    iteration all of whose predecessors complete.  When the conversion
    ends with an exception of its own, or returns, the directories, the
    manifest and every file of that iteration are written, the image of its
    capture among them, and if the iteration raises, the conversion ends
    with its exception.  When the conversion ends because an operation
    fails, every operation before that one is done. *)
Theorem no_rollback (fs : filesystem) (u : UnityData.t Raw)
        (output_path : string) (cfg : config) (tr : list event)
        (path yaml : string) (j : nat) (s : string)
        (fails : Environment.oracle) (done : list event)
        (out : Environment.outcome string) :
  include_keypoints cfg && is_none (n_keypoints cfg) = false ->
  DataDirectory.create_yolo_data_dir X fs output_path (include_test cfg)
  = (tr, Ok (path, yaml)) ->
  nth_error (split_tags X cfg u) j = Some s ->
  (forall j' s', (j' < j)%nat ->
     nth_error (split_tags X cfg u) j' = Some s' ->
     snd (emit_capture X cfg u path (valid_captures cfg u) j' s') = Ok tt) ->
  Environment.run fails [] (unity_to_yolo X fs u output_path cfg)
  = (done, out) ->
  let step := emit_capture X cfg u path (valid_captures cfg u) j s in
  match out with
  | Environment.Failed ev =>
      exists after,
        fst (unity_to_yolo X fs u output_path cfg) = done ++ ev :: after
        /\ fails done ev = true
  | Environment.Raised e =>
      incl (tr ++ header cfg u yaml :: fst step) done
      /\ (forall e', snd step = Raise e' -> e' = e)
      /\ (forall c, nth_error (valid_captures cfg u) j = Some c ->
                    In (image_file path s j c) done)
  | Environment.Returned _ =>
      incl (tr ++ header cfg u yaml :: fst step) done
      /\ snd step = Ok tt
  end.
Proof.
  intros Hcfg Hdir Hs Hbefore Hrun step. subst step.
  pose proof (EnvironmentProofs.run_spec fails []
                (unity_to_yolo X fs u output_path cfg)) as H.
  rewrite Hrun in H. clear Hrun. cbn [app] in H.
  destruct (unity_to_yolo_trace X fs u output_path cfg tr path yaml Hcfg Hdir)
    as [Htr Hres].
  destruct (emit_all_reached X cfg u path (valid_captures cfg u) 0
              (split_tags X cfg u) j s Hs Hbefore) as [Hincl Herr].
  cbn [Nat.add] in Hincl, Herr.
  assert (Hall : incl (tr ++ header cfg u yaml
                          :: fst (emit_capture X cfg u path
                                    (valid_captures cfg u) j s))
                      (fst (unity_to_yolo X fs u output_path cfg))).
  { rewrite Htr. intros ev Hev.
    apply in_app_or in Hev as [Hev|Hev]; apply in_or_app;
      [now left | right].
    destruct Hev as [<-|Hev]; [now left | right; now apply Hincl]. }
  destruct out as [y|e|ev].
  - destruct H as [-> Hy]. split; [exact Hall|].
    destruct (snd (emit_capture X cfg u path (valid_captures cfg u) j s))
      as [[]|e'] eqn:E; [reflexivity|].
    rewrite Hres, (Herr e' eq_refl) in Hy. discriminate Hy.
  - destruct H as [-> He]. split; [exact Hall|]. split.
    + intros e' He'. rewrite Hres, (Herr e' He') in He. congruence.
    + intros c Hc. apply Hall. apply in_or_app. right. right.
      rewrite (emit_capture_unfold X cfg u path _ j s c Hc).
      destruct (annotation_steps X cfg c); [|now left].
      destruct (find_occlusion_metric u c); now left.
  - destruct H as [before [after [Hm [-> Hf]]]]. now exists after.
Qed.

End WithCollaborators.

(** One tag too many for the single capture of the sample dataset. *)
Lemma split_overrun_witness :
  exists e,
    snd (unity_to_yolo overrunning Sample.fs Sample.unity_data "out"
                       Sample.config) = Raise e.
Proof.
  apply (split_overrun overrunning Sample.fs Sample.unity_data "out"
                       Sample.config).
  vm_compute. lia.
Defined.

Lemma bboxes_flag_ignored_witness :
  let cfg := mk_config true true false false false (Some 2) None false 6 in
  unity_to_yolo Sample.collaborators Sample.fs Sample.unity_data "out"
                (with_bboxes false cfg)
  = unity_to_yolo Sample.collaborators Sample.fs Sample.unity_data "out" cfg.
Proof.
  exact (bboxes_flag_ignored Sample.collaborators Sample.fs Sample.unity_data
           "out" (mk_config true true false false false (Some 2) None false 6)
           false eq_refl).
Defined.

(** An image without extension under [solo/sequence.12] is copied to
    [out/train/0.12/image], a directory that does not exist: the copy
    fails, with the directories and the manifest written.  And the sample
    dataset without metrics in an environment where nothing fails: the
    conversion raises [KeyError] on the occlusion lookup of its only
    capture, whose image stays copied. *)
Lemma no_rollback_witness :
  (exists done after,
      Environment.run EnvironmentSample.missing_directory []
        (unity_to_yolo Sample.collaborators Sample.fs
                       EnvironmentSample.unity_data "out" Sample.bbox_config)
      = (done,
         Environment.Failed
           (CopyFile "solo/sequence.12/image" "out/train/0.12/image"))
      /\ fst (unity_to_yolo Sample.collaborators Sample.fs
                            EnvironmentSample.unity_data "out"
                            Sample.bbox_config)
         = done ++ CopyFile "solo/sequence.12/image" "out/train/0.12/image"
                :: after)
  /\ (exists done,
         Environment.run Environment.reliable []
           (unity_to_yolo Sample.collaborators Sample.fs (Sample.dataset [])
                          "out" Sample.bbox_config)
         = (done, Environment.Raised KeyError)
         /\ In (CopyFile "solo/sequence.12/step0.camera.png"
                         "out/train/0.png") done).
Proof.
  split.
  - eexists.
    assert (Hrun : forall done,
               done = fst (Environment.run
                             EnvironmentSample.missing_directory []
                             (unity_to_yolo Sample.collaborators Sample.fs
                                EnvironmentSample.unity_data "out"
                                Sample.bbox_config)) ->
               Environment.run EnvironmentSample.missing_directory []
                 (unity_to_yolo Sample.collaborators Sample.fs
                    EnvironmentSample.unity_data "out" Sample.bbox_config)
               = (done,
                  Environment.Failed
                    (CopyFile "solo/sequence.12/image"
                              "out/train/0.12/image"))).
    { intros done ->. vm_compute. reflexivity. }
    specialize (Hrun _ eq_refl).
    destruct (no_rollback Sample.collaborators Sample.fs
                EnvironmentSample.unity_data "out" Sample.bbox_config
                [MkdirParents "out"; Mkdir "out/train"; Mkdir "out/val"]
                "out" "out/out.yaml" 0 "train"
                EnvironmentSample.missing_directory _ _
                eq_refl eq_refl eq_refl
                (fun j' s' (Hlt : (j' < 0)%nat) _ =>
                   match Nat.nlt_0_r j' Hlt with end)
                Hrun) as [after [Hafter _]].
    exists after. split; [exact Hrun | exact Hafter].
  - eexists.
    assert (Hrun : forall done,
               done = fst (Environment.run Environment.reliable []
                             (unity_to_yolo Sample.collaborators Sample.fs
                                (Sample.dataset []) "out"
                                Sample.bbox_config)) ->
               Environment.run Environment.reliable []
                 (unity_to_yolo Sample.collaborators Sample.fs
                    (Sample.dataset []) "out" Sample.bbox_config)
               = (done, Environment.Raised KeyError)).
    { intros done ->. vm_compute. reflexivity. }
    specialize (Hrun _ eq_refl). split; [exact Hrun|].
    destruct (no_rollback Sample.collaborators Sample.fs (Sample.dataset [])
                "out" Sample.bbox_config
                [MkdirParents "out"; Mkdir "out/train"; Mkdir "out/val"]
                "out" "out/out.yaml" 0 "train" Environment.reliable _ _
                eq_refl eq_refl eq_refl
                (fun j' s' (Hlt : (j' < 0)%nat) _ =>
                   match Nat.nlt_0_r j' Hlt with end)
                Hrun) as [_ [_ Himg]].
    exact (Himg Sample.capture eq_refl).
Defined.

End ExportProofs.

(* ================================================================== *)
(** * The failures and the files of an iteration *)

Module IterationProofs.
Import Convert ConvertSpec EmissionSpec IOFacts ConvertProofs EmissionProofs
       PySpec PyProofs.





Section WithCollaborators.
Context (X : collaborators) {Raw : Type}.








(** ** The annotation files of an iteration *)

Lemma str_starts n suffix :
  0 <= n -> Py.starts_with_slash (Py.str n ++ suffix) = false.
Proof.
  intros Hn. destruct (str_nonneg n Hn) as [u [Hu [-> _]]].
  destruct u; [contradiction|reflexivity..].
Qed.

Lemma join2_injective a x y :
  Py.starts_with_slash x = false -> Py.starts_with_slash y = false ->
  Py.join2 a x = Py.join2 a y -> x = y.
Proof.
  unfold Py.join2. intros -> ->.
  destruct (String.eqb a "" || Py.ends_with_slash a)%bool; intros H.
  - now apply DataDirectoryProofs.append_injective in H.
  - apply DataDirectoryProofs.append_injective in H.
    now apply (DataDirectoryProofs.append_injective "/") in H.
Qed.

Lemma output_file_injective path s i a b :
  output_file path s i a = output_file path s i b -> a = b.
Proof.
  unfold output_file, Py.path_join. cbn [fold_left]. intros H.
  apply join2_injective in H; try (apply str_starts; lia).
  now apply DataDirectoryProofs.append_injective in H.
Qed.

Lemma annotation_steps_flags cfg (c : Capture.t Raw) b k g :
  annotation_steps X cfg c = Ok (b, k, g) ->
  (b <> [] -> include_bboxes cfg = true /\ include_keypoints cfg = false)
  /\ (k <> [] -> include_keypoints cfg = true)
  /\ (g <> [] -> include_segmentation cfg = true).
Proof.
  unfold annotation_steps.
  destruct (include_bboxes cfg), (include_keypoints cfg);
    cbn [andb negb bind];
    try (destruct (get_bbox_annotations X c (precision cfg));
         cbn [bind]; [|discriminate]);
    try (destruct (get_keypoint_annotations X c (precision cfg));
         cbn [bind]; [|discriminate]);
    (destruct (include_segmentation cfg);
     [destruct (get_segmentation_annotations X c (precision cfg));
      cbn [bind]; [|discriminate]|]; cbn [bind];
     intros [= <- <- <-]; repeat split; congruence).
Qed.

Lemma annotation_files_In path s i b k g p l :
  In (WriteFile p l) (annotation_files path s i (b, k, g)) ->
  (p = output_file path s i "_bbox.txt" /\ b <> [])
  \/ (p = output_file path s i "_keypoints.txt" /\ k <> [])
  \/ (p = output_file path s i "_segmentation.txt" /\ g <> []).
Proof.
  unfold annotation_files. rewrite !in_app_iff.
  destruct b, k, g; cbn [is_empty In];
    intuition (try discriminate;
               match goal with
               | H : WriteFile _ _ = WriteFile _ _ |- _ =>
                   injection H as <- _
               end; auto).
Qed.

(** The file written at [p] by an iteration is an annotation file of a
    requested kind, or the occlusion file. *)
Lemma written_file cfg (u : UnityData.t Raw) path valid i s p l :
  In (WriteFile p l) (fst (emit_capture X cfg u path valid i s)) ->
  (p = output_file path s i "_bbox.txt"
   /\ include_bboxes cfg = true /\ include_keypoints cfg = false)
  \/ (p = output_file path s i "_keypoints.txt"
      /\ include_keypoints cfg = true)
  \/ (p = output_file path s i "_segmentation.txt"
      /\ include_segmentation cfg = true)
  \/ (p = output_file path s i "_occlusion.txt"
      /\ include_occlusion cfg = true).
Proof.
  destruct (nth_error valid i) as [c|] eqn:Hc.
  2:{ unfold emit_capture, index. rewrite Hc. intros []. }
  rewrite (emit_capture_unfold X cfg u path valid i s c Hc).
  assert (Hfiles : forall r,
             annotation_steps X cfg c = Ok r ->
             In (WriteFile p l) (annotation_files path s i r) ->
             (p = output_file path s i "_bbox.txt"
              /\ include_bboxes cfg = true /\ include_keypoints cfg = false)
             \/ (p = output_file path s i "_keypoints.txt"
                 /\ include_keypoints cfg = true)
             \/ (p = output_file path s i "_segmentation.txt"
                 /\ include_segmentation cfg = true)
             \/ (p = output_file path s i "_occlusion.txt"
                 /\ include_occlusion cfg = true)).
  { intros [[b k] g] Hr Hin.
    destruct (annotation_steps_flags cfg c b k g Hr) as [Hb [Hk Hg]].
    apply annotation_files_In in Hin as [[-> H]|[[-> H]|[-> H]]].
    - left. split; [reflexivity | now apply Hb].
    - right. left. split; [reflexivity | now apply Hk].
    - right. right. left. split; [reflexivity | now apply Hg]. }
  destruct (annotation_steps X cfg c) as [r|e] eqn:Ea; cbn [fst].
  - destruct (find_occlusion_metric u c) as [o|e]; cbn [fst].
    + intros [H|H]; [discriminate H|].
      apply in_app_or in H as [H|H]; [now apply (Hfiles r)|].
      apply in_app_or in H as [H|H].
      * right. right. right. unfold occlusion_files in H.
        destruct (include_occlusion cfg); [|destruct H].
        destruct o as [om|]; [|destruct H].
        destruct (OcclusionMetric.values om); [|destruct H].
        destruct H as [H|[]]. injection H as <- _. now split.
      * exfalso. unfold mask_files in H.
        destruct (include_semantic_mask cfg); [|destruct H].
        destruct (Capture.semantic_segmentation c); [|destruct H].
        destruct H as [H|[]]. discriminate H.
    + intros [H|H]; [discriminate H | now apply (Hfiles r)].
  - intros [H|[]]. discriminate H.
Qed.

(** X21. An iteration writes a file only for a kind that was requested:
    the box file only when boxes are requested and keypoints are not, the
    keypoint file only when keypoints are requested, the segmentation file
    and the occlusion file only on request; so no iteration writes both a
    box file and a keypoint file. *)
Theorem files_on_request (cfg : config) (u : UnityData.t Raw)
        (path : string) (valid : list (Capture.t Raw)) (i : nat)
        (s : string) :
  let written suffix :=
    exists l, In (WriteFile (output_file path s i suffix) l)
                 (fst (emit_capture X cfg u path valid i s)) in
  (written "_bbox.txt" ->
   include_bboxes cfg = true /\ include_keypoints cfg = false)
  /\ (written "_keypoints.txt" -> include_keypoints cfg = true)
  /\ (written "_segmentation.txt" -> include_segmentation cfg = true)
  /\ (written "_occlusion.txt" -> include_occlusion cfg = true)
  /\ ~ (written "_bbox.txt" /\ written "_keypoints.txt").
Proof.
  cbv zeta.
  assert (Hb : (exists l, In (WriteFile (output_file path s i "_bbox.txt") l)
                            (fst (emit_capture X cfg u path valid i s))) ->
               include_bboxes cfg = true /\ include_keypoints cfg = false).
  { intros [l H].
    apply written_file in H as [[_ H]|[[E _]|[[E _]|[E _]]]];
      [exact H|..]; apply output_file_injective in E; discriminate E. }
  assert (Hk : (exists l,
                   In (WriteFile (output_file path s i "_keypoints.txt") l)
                      (fst (emit_capture X cfg u path valid i s))) ->
               include_keypoints cfg = true).
  { intros [l H].
    apply written_file in H as [[E _]|[[_ H]|[[E _]|[E _]]]];
      [|exact H|..]; apply output_file_injective in E; discriminate E. }
  split; [exact Hb|]. split; [exact Hk|]. split; [|split].
  - intros [l H].
    apply written_file in H as [[E _]|[[E _]|[[_ H]|[E _]]]];
      [| |exact H|]; apply output_file_injective in E; discriminate E.
  - intros [l H].
    apply written_file in H as [[E _]|[[E _]|[[E _]|[_ H]]]];
      [| | |exact H]; apply output_file_injective in E; discriminate E.
  - intros [H1 H2]. apply Hb in H1 as [_ H1]. apply Hk in H2. congruence.
Qed.

End WithCollaborators.


End IterationProofs.

(* ================================================================== *)
(** * The order of the frame data files *)

Module DiscoveryProofs.
Import UnityData Discovery DiscoverySpec AggregateSpec PySpec PyProofs.

Section Sorting.
Context {Raw : Type}.

Local Abbreviation keyed_file := (Z * frame_data_file Raw)%type.
Local Abbreviation by_key :=
  (fun a b : keyed_file => fst a <= fst b).

Lemma insert_perm k x (l : list keyed_file) :
  Permutation.Permutation ((k, x) :: l) (insert k x l).
Proof.
  induction l as [|[k' y] l IH]; cbn [insert]; [reflexivity|].
  destruct (k <=? k'); [reflexivity|].
  etransitivity; [apply Permutation.perm_swap|].
  now apply Permutation.perm_skip.
Qed.

Lemma sort_perm (l : list keyed_file) :
  Permutation.Permutation l (sort_by_key l).
Proof.
  induction l as [|[k x] l IH]; cbn [sort_by_key fold_right fst snd];
    [constructor|].
  etransitivity; [|apply insert_perm]. now apply Permutation.perm_skip.
Qed.

Lemma insert_sorted k x (l : list keyed_file) :
  StronglySorted by_key l -> StronglySorted by_key (insert k x l).
Proof.
  induction 1 as [|[k' y] l Hs IH Hall]; cbn [insert].
  - repeat constructor.
  - destruct (Z.leb_spec k k') as [Hle|Hgt].
    + constructor; [now constructor|]. constructor; [exact Hle|].
      eapply Forall_impl; [|exact Hall]. cbn. intros a Ha. lia.
    + constructor; [exact IH|].
      eapply Permutation.Permutation_Forall; [apply insert_perm|].
      constructor; [cbn; lia | exact Hall].
Qed.

Lemma sort_sorted (l : list keyed_file) : StronglySorted by_key (sort_by_key l).
Proof.
  induction l as [|[k x] l IH]; cbn [sort_by_key fold_right fst snd];
    [constructor|].
  now apply insert_sorted.
Qed.

(** The sort is stable: the elements of one key keep their order. *)
Lemma insert_stable (p : keyed_file -> bool) k x (l : list keyed_file) :
  (forall a b, p a = true -> p b = true -> fst a = fst b) ->
  filter p (insert k x l) = filter p ((k, x) :: l).
Proof.
  intros Hp. induction l as [|[k' y] l IH]; cbn [insert]; [reflexivity|].
  destruct (Z.leb_spec k k') as [Hle|Hgt]; [reflexivity|].
  cbn [filter] in *. rewrite IH.
  destruct (p (k, x)) eqn:Ex, (p (k', y)) eqn:Ey; try reflexivity.
  specialize (Hp _ _ Ex Ey). cbn in Hp. lia.
Qed.

Lemma sort_stable (p : keyed_file -> bool) (l : list keyed_file) :
  (forall a b, p a = true -> p b = true -> fst a = fst b) ->
  filter p (sort_by_key l) = filter p l.
Proof.
  intros Hp. induction l as [|[k x] l IH];
    cbn [sort_by_key fold_right fst snd]; [reflexivity|].
  rewrite insert_stable by exact Hp. cbn [filter].
  fold (sort_by_key l). now rewrite IH.
Qed.







(** The keyed list of [get_sorted_data_files]. *)
Lemma keys_computed (found : list (frame_data_file Raw)) keyed :
  for_each (fun x => k <- sort_key x ;; Ok [(k, x)])%py found = Ok keyed ->
  map snd keyed = found
  /\ Forall (fun kx => sort_key (snd kx) = Ok (fst kx)) keyed.
Proof.
  revert keyed. induction found as [|x found IH]; intros keyed;
    cbn [for_each].
  - intros [= <-]. split; constructor.
  - destruct (sort_key x) as [k|] eqn:Ek; cbn [bind]; [|discriminate].
    destruct (for_each _ found) as [rest|]; cbn [bind]; [|discriminate].
    intros [= <-]. destruct (IH rest eq_refl) as [Hm Hall].
    cbn [app map snd]. split; [now rewrite Hm|].
    constructor; [exact Ek | exact Hall].
Qed.

Lemma keys_fail (found : list (frame_data_file Raw)) e :
  for_each (fun x => k <- sort_key x ;; Ok [(k, x)])%py found = Raise e ->
  e = ValueError /\ Exists unnumbered found.
Proof.
  induction found as [|x found IH]; cbn [for_each]; [discriminate|].
  destruct (sort_key x) as [k|e'] eqn:Ek; cbn [bind].
  - destruct (for_each _ found) as [rest|e'']; cbn [bind]; [discriminate|].
    intros [= <-]. destruct (IH eq_refl) as [-> H]. split; [reflexivity|].
    now apply Exists_cons_tl.
  - intros [= <-]. unfold sort_key in Ek. split; [now apply int_error in Ek|].
    apply Exists_cons_hd. intros [n Hn]. congruence.
Qed.

Lemma keys_unnumbered (found : list (frame_data_file Raw)) :
  Exists unnumbered found ->
  exists e,
    for_each (fun x => k <- sort_key x ;; Ok [(k, x)])%py found = Raise e.
Proof.
  induction 1 as [x found Hx|x found _ [e IH]]; cbn [for_each].
  - unfold sort_key. rewrite (not_numeric_raises _ Hx). now eexists.
  - destruct (sort_key x); cbn [bind]; [|now eexists].
    rewrite IH. now eexists.
Qed.

Lemma get_sorted_data_files_ok (found files : list (frame_data_file Raw)) :
  get_sorted_data_files found = Ok files ->
  exists keyed,
    map snd keyed = found
    /\ Forall (fun kx => sort_key (snd kx) = Ok (fst kx)) keyed
    /\ files = map snd (sort_by_key keyed).
Proof.
  unfold get_sorted_data_files.
  destruct (for_each _ found) as [keyed|] eqn:E; cbn [bind]; [|discriminate].
  intros [= <-]. exists keyed.
  destruct (keys_computed found keyed E) as [Hm Hall]. now repeat split.
Qed.

(** X22. The frame data files are read in ascending order of the number
    their directory name ends in, files of the same number in the order in
    which they were found; none is lost or repeated.  Loading stops with
    [ValueError], and with no other error, exactly when some file found
    lies in a directory whose name does not end in a number. *)
Theorem sorted_files (found : list (frame_data_file Raw)) :
  (forall files,
      get_sorted_data_files found = Ok files ->
      Permutation.Permutation found files
      /\ (exists keys,
             Forall2 (fun x k => sort_key x = Ok k) files keys
             /\ StronglySorted Z.le keys)
      /\ forall k, filter (has_key k) files = filter (has_key k) found)
  /\ (forall e, get_sorted_data_files found = Raise e ->
                e = ValueError /\ Exists unnumbered found)
  /\ (Exists unnumbered found ->
      get_sorted_data_files found = Raise ValueError).
Proof.
  split; [|split].
  - intros files H.
    apply get_sorted_data_files_ok in H as [keyed [Hm [Hall ->]]].
    subst found. split; [|split].
    + apply Permutation.Permutation_map. apply sort_perm.
    + exists (map fst (sort_by_key keyed)). split.
      * assert (Hs : Forall (fun kx => sort_key (snd kx) = Ok (fst kx))
                            (sort_by_key keyed)).
        { eapply Permutation.Permutation_Forall; [apply sort_perm|].
          exact Hall. }
        induction Hs as [|kx l Hkx _ IH]; cbn [map]; constructor; assumption.
      * pose proof (sort_sorted keyed) as Hs.
        induction Hs as [|kx l _ IH Hhd]; cbn [map]; constructor;
          [exact IH|].
        apply Forall_map. exact Hhd.
    + intros k.
      assert (Hfilter : forall l : list keyed_file,
                 Forall (fun kx => sort_key (snd kx) = Ok (fst kx)) l ->
                 filter (has_key k) (map snd l)
                 = map snd (filter (fun kx => Z.eqb (fst kx) k) l)).
      { induction 1 as [|kx l Hkx _ IH]; cbn [map filter]; [reflexivity|].
        unfold has_key at 1. rewrite Hkx.
        destruct (Z.eqb (fst kx) k); cbn [map]; now rewrite IH. }
      rewrite !Hfilter; [| exact Hall |].
      * f_equal. apply sort_stable. intros a b Ha Hb.
        apply Z.eqb_eq in Ha, Hb. congruence.
      * eapply Permutation.Permutation_Forall; [apply sort_perm|].
        exact Hall.
  - unfold get_sorted_data_files. intros e.
    destruct (for_each _ found) as [keyed|e'] eqn:E; cbn [bind];
      [discriminate|].
    intros [= <-]. now apply keys_fail.
  - intros H. destruct (keys_unnumbered found H) as [e He].
    unfold get_sorted_data_files. rewrite He. cbn [bind].
    now destruct (keys_fail found e He) as [-> _].
Qed.

End Sorting.

(** ** The key of a file and the sequence of its records *)

Local Abbreviation no_char ch s :=
  (all_chars (fun c => negb (Ascii.eqb c ch)) s).

Lemma rfind_none ch s : Py.rfind ch s = None <-> no_char ch s = true.
Proof.
  induction s as [|c s IH]; cbn [Py.rfind all_chars]; [easy|].
  destruct (Py.rfind ch s) as [i|].
  - split; [discriminate|]. intros H. apply andb_prop in H as [_ H].
    apply IH in H. discriminate H.
  - destruct (Ascii.eqb c ch); cbn [negb andb]; [easy|].
    split; [intros _; now apply IH | reflexivity].
Qed.

Lemma substring_all s : substring 0 (String.length s) s = s.
Proof. induction s as [|c s IH]; cbn; [reflexivity | now rewrite IH]. Qed.

Lemma basename_cons c s :
  DataDirectory.basename (String c s)
  = match Py.rfind "/" s with
    | Some _ => DataDirectory.basename s
    | None => if Ascii.eqb c "/" then s else String c s
    end.
Proof.
  unfold DataDirectory.basename. cbn [Py.rfind].
  destruct (Py.rfind "/" s) as [i|]; [reflexivity|].
  destruct (Ascii.eqb c "/"); [|reflexivity].
  cbn [String.length Nat.sub substring]. rewrite Nat.sub_0_r.
  apply substring_all.
Qed.

Lemma split_several sep s :
  no_char sep s = false -> exists h t0 t, Py.split sep s = h :: t0 :: t.
Proof.
  induction s as [|c s IH]; cbn [all_chars Py.split]; [discriminate|].
  destruct (Ascii.eqb c sep); cbn [negb andb].
  - intros _. pose proof (split_nonempty sep s) as H.
    destruct (Py.split sep s) as [|t0 t]; [easy|]. now do 3 eexists.
  - intros H. destruct (IH H) as [h [t0 [t ->]]]. now do 3 eexists.
Qed.

Lemma last_component_cons c s :
  Py.last_component (String c s)
  = if (Ascii.eqb c "." || negb (no_char "." s))%bool
    then Py.last_component s else String c s.
Proof.
  unfold Py.last_component. cbn [Py.split].
  destruct (Ascii.eqb c ".") eqn:Ec; cbn [orb].
  - pose proof (split_nonempty "." s) as H.
    now destruct (Py.split "." s).
  - destruct (no_char "." s) eqn:Ed; cbn [negb].
    + now rewrite (split_none _ _ Ed).
    + destruct (split_several _ _ Ed) as [h [t0 [t ->]]]. reflexivity.
Qed.

(** The part after the last dot lies in the base name, unless it holds a
    slash. *)
Lemma last_component_basename d :
  no_char "/" (Py.last_component d) = true ->
  Py.last_component (DataDirectory.basename d) = Py.last_component d.
Proof.
  induction d as [|c s IH]; [reflexivity|].
  rewrite basename_cons, last_component_cons.
  destruct (Py.rfind "/" s) as [i|] eqn:Er.
  - destruct (Ascii.eqb c "." || negb (no_char "." s))%bool; [exact IH|].
    cbn [all_chars]. intros H. apply andb_prop in H as [_ H].
    apply rfind_none in H. congruence.
  - destruct (Ascii.eqb c "/") eqn:Ec; [|now rewrite last_component_cons].
    apply Ascii.eqb_eq in Ec. subst c. cbn [Ascii.eqb orb].
    change (Ascii.eqb "/" ".") with false. cbn [orb].
    destruct (negb (no_char "." s)); [reflexivity|].
    cbn [all_chars]. change (Ascii.eqb "/" "/") with true. discriminate.
Qed.

Lemma accepted_no_slash s n : Py.int s = Ok n -> no_char "/" s = true.
Proof.
  intros H. destruct (no_char "/" s) eqn:E; [reflexivity|].
  rewrite int_foreign in H; [discriminate|].
  clear H. induction s as [|c s IH]; cbn [all_chars some_char] in *;
    [discriminate|].
  destruct (Ascii.eqb_spec c "/") as [->|Hne]; cbn [negb andb] in E.
  - reflexivity.
  - rewrite (IH E). apply orb_true_r.
Qed.

Lemma key_agrees d n k :
  Py.int (Py.last_component d) = Ok n ->
  Py.int (Py.last_component (DataDirectory.basename d)) = Ok k ->
  n = k.
Proof.
  intros Hn Hk.
  rewrite last_component_basename in Hk
    by exact (accepted_no_slash _ _ Hn).
  congruence.
Qed.

(** ** Sorted lists of numbers *)

Lemma sorted_app (l1 l2 : list Z) :
  StronglySorted Z.le l1 -> StronglySorted Z.le l2 ->
  (forall a b, In a l1 -> In b l2 -> a <= b) ->
  StronglySorted Z.le (l1 ++ l2).
Proof.
  intros H1 H2 H. induction H1 as [|a l1 _ IH Ha]; cbn [app]; [exact H2|].
  constructor.
  - apply IH. intros x y Hx Hy. apply H; [now right | exact Hy].
  - apply Forall_app. split; [exact Ha|].
    apply Forall_forall. intros y Hy. apply H; [now left | exact Hy].
Qed.

Lemma constant_sorted (k : Z) (l : list Z) :
  Forall (eq k) l -> StronglySorted Z.le l.
Proof.
  induction 1 as [|a l <- Hl IH]; constructor; [exact IH|].
  eapply Forall_impl; [|exact Hl]. intros b <-. lia.
Qed.

Lemma filter_sorted (R : Z -> Z -> Prop) (p : Z -> bool) (l : list Z) :
  StronglySorted R l -> StronglySorted R (filter p l).
Proof.
  induction 1 as [|a l _ IH Ha]; cbn [filter]; [constructor|].
  destruct (p a); [|exact IH]. constructor; [exact IH|].
  apply Forall_forall. intros b Hb. apply filter_In in Hb as [Hb _].
  rewrite Forall_forall in Ha. now apply Ha.
Qed.

(** The distinct numbers of an ascending list are strictly ascending. *)
Lemma distinct_sorted (l : list Z) :
  StronglySorted Z.le l -> StronglySorted Z.lt (distinct l).
Proof.
  induction 1 as [|a l _ IH Ha]; cbn [distinct]; [constructor|].
  constructor; [now apply filter_sorted|].
  apply Forall_forall. intros b Hb. apply filter_In in Hb as [Hb Hne].
  rewrite AggregateProofs.distinct_In in Hb.
  rewrite Forall_forall in Ha. specialize (Ha b Hb).
  apply negb_true_iff, Z.eqb_neq in Hne. lia.
Qed.

Lemma group_keys {V : Type} (key : V -> Z) (l : list V) :
  map fst (group key l) = distinct (map key l).
Proof.
  unfold group. rewrite map_map. cbn [fst]. apply map_id.
Qed.

(** ** Records read from sorted files *)

Section Records.
Context {Raw R V : Type} (block : frame_data_file Raw -> list R)
        (parse : R -> result V) (seq : V -> Z).
Hypothesis keyed :
  forall x r v k, In r (block x) -> parse r = Ok v -> sort_key x = Ok k ->
                  seq v = k.

Lemma records_sorted (files : list (frame_data_file Raw)) (keys : list Z)
      (records : list V) :
  Forall2 (fun x k => sort_key x = Ok k) files keys ->
  StronglySorted Z.le keys ->
  parsed parse (flat_map block files) records ->
  StronglySorted Z.le (map seq records)
  /\ forall v, In v records -> In (seq v) keys.
Proof.
  intros Hk. revert records.
  induction Hk as [|x k files keys Hx _ IH]; intros records Hs Hp.
  - cbn in Hp. inversion Hp. subst. split; [constructor | intros v []].
  - cbn [flat_map] in Hp. unfold parsed in Hp.
    apply Forall2_app_inv_l in Hp as [r1 [r2 [H1 [H2 ->]]]].
    apply StronglySorted_inv in Hs as [Hs Hle].
    destruct (IH r2 Hs H2) as [Hsorted Hin].
    assert (Hhere : forall v, In v r1 -> seq v = k).
    { intros v Hv.
      destruct (AggregateProofs.parsed_In parse (block x) r1 v H1 Hv)
        as [r [Hr Hpr]].
      exact (keyed x r v k Hr Hpr Hx). }
    split.
    + rewrite map_app. apply sorted_app; [|exact Hsorted|].
      * apply (constant_sorted k). apply Forall_forall. intros a Ha.
        apply in_map_iff in Ha as [v [<- Hv]]. symmetry. now apply Hhere.
      * intros a b Ha Hb.
        apply in_map_iff in Ha as [v [<- Hv]].
        apply in_map_iff in Hb as [w [<- Hw]].
        rewrite (Hhere v Hv). apply Hin in Hw.
        rewrite Forall_forall in Hle. now apply Hle.
    + intros v Hv. apply in_app_or in Hv as [Hv|Hv].
      * left. symmetry. now apply Hhere.
      * right. now apply Hin.
Qed.

End Records.

Section Loading.
Context {Raw : Type} (P : Capture.parsers Raw).

Lemma sorted_keys (found files : list (frame_data_file Raw)) :
  get_sorted_data_files found = Ok files ->
  exists keys,
    Forall2 (fun x k => sort_key x = Ok k) files keys
    /\ StronglySorted Z.le keys.
Proof.
  intros H. apply get_sorted_data_files_ok in H as [keyed [_ [Hall ->]]].
  exists (map fst (sort_by_key keyed)). split.
  - assert (Hs : Forall (fun kx => sort_key (snd kx) = Ok (fst kx))
                        (sort_by_key keyed)).
    { eapply Permutation.Permutation_Forall; [apply sort_perm | exact Hall]. }
    induction Hs as [|kx l Hkx _ IH]; cbn [map]; constructor; assumption.
  - pose proof (sort_sorted keyed) as Hs.
    induction Hs as [|kx l _ IH Hhd]; cbn [map]; constructor; [exact IH|].
    apply Forall_map. exact Hhd.
Qed.

Lemma capture_keyed labels (x : frame_data_file Raw) r c k :
  In r (match file_captures x with
        | Some (Some (c0 :: cs)) =>
            map (set_capture_path (dirname x)) (c0 :: cs)
        | _ => []
        end) ->
  Capture.from_dict P r labels = Ok c -> sort_key x = Ok k ->
  Capture.sequence c = k.
Proof.
  intros Hr Hc Hk.
  destruct (AggregateProofs.capture_path_sequence P r labels c Hc)
    as [path [Hp [Hn _]]].
  assert (path = dirname x).
  { destruct (file_captures x) as [[[|c0 cs]|]|]; try (destruct Hr; fail).
    apply in_map_iff in Hr as [r0 [<- _]]. cbn in Hp. congruence. }
  subst path. exact (key_agrees _ _ _ Hn Hk).
Qed.

Lemma metric_keyed (x : frame_data_file Raw) r m k :
  In r (match file_metrics x with
        | Some (Some (m0 :: ms)) =>
            map (set_metric_path (dirname x)) (m0 :: ms)
        | _ => []
        end) ->
  Metric.from_dict r = Ok m -> sort_key x = Ok k ->
  Metric.sequence m = k.
Proof.
  intros Hr Hm Hk.
  destruct (AggregateProofs.metric_path_sequence r m Hm) as [path [Hp Hn]].
  assert (path = dirname x).
  { destruct (file_metrics x) as [[[|m0 ms]|]|]; try (destruct Hr; fail).
    apply in_map_iff in Hr as [r0 [<- _]]. cbn in Hp. congruence. }
  subst path. exact (key_agrees _ _ _ Hn Hk).
Qed.

(** X23. In a dataset loaded from the files found, the sequences are in
    ascending order without repetition, for captures ([sequence_ids]) and
    for metrics alike, whatever the order in which the files were found,
    and the sequence of every capture is the sort key of a file. *)
Theorem ascending_sequences (defs : list annotation_definition)
        (found : list (frame_data_file Raw)) (u : UnityData.t Raw) :
  load P defs found = Ok u ->
  StronglySorted Z.lt (sequence_ids u)
  /\ StronglySorted Z.lt (map fst (metrics_by_sequence u))
  /\ forall k, In k (sequence_ids u) ->
               exists x, In x found /\ sort_key x = Ok k.
Proof.
  unfold load.
  destruct (get_sorted_data_files found) as [files|] eqn:Hsort; cbn [bind];
    [|discriminate].
  intros Hu. apply AggregateProofs.init_ok in Hu as [cs [ms [Hc [Hm ->]]]].
  destruct (sorted_keys found files Hsort) as [keys [Hkeys Hsorted]].
  destruct (records_sorted _ _ Capture.sequence
              (capture_keyed (read_labels defs)) files keys cs Hkeys Hsorted
              Hc) as [Hcs Hcin].
  destruct (records_sorted _ _ Metric.sequence metric_keyed files keys ms
              Hkeys Hsorted Hm) as [Hms _].
  unfold sequence_ids. cbn [captures_by_sequence metrics_by_sequence].
  rewrite !group_keys. split; [|split].
  - now apply distinct_sorted.
  - now apply distinct_sorted.
  - intros k Hk. rewrite AggregateProofs.distinct_In in Hk.
    apply in_map_iff in Hk as [c [<- Hin]]. apply Hcin in Hin.
    apply get_sorted_data_files_ok in Hsort as [keyed [Hf [Hall ->]]].
    clear - Hin Hkeys Hall Hf.
    assert (Hx : exists x, In x (map snd (sort_by_key keyed))
                           /\ sort_key x = Ok (Capture.sequence c)).
    { revert Hin. generalize (Capture.sequence c). intros k.
      induction Hkeys as [|x k' l l' Hx _ IH]; intros Hin; [destruct Hin|].
      destruct Hin as [<-|Hin].
      - exists x. split; [now left | exact Hx].
      - destruct (IH Hin) as [y [Hy Hky]]. exists y. split; [now right|].
        exact Hky. }
    destruct Hx as [x [Hx Hkx]]. exists x. split; [|exact Hkx].
    rewrite <- Hf. apply in_map_iff in Hx as [kx [<- Hkx']].
    apply in_map. eapply Permutation.Permutation_in; [|exact Hkx'].
    symmetry. apply sort_perm.
Qed.




End Loading.

(** The files of the sequences 10, 2 and 10: the files are read in the
    order 2, 10, 10 and the sequences of the dataset are 2 and 10. *)
Lemma sorted_files_witness :
  exists files,
    get_sorted_data_files unordered = Ok files
    /\ Permutation.Permutation unordered files
    /\ map dirname files
       = ["solo/sequence.2"; "solo/sequence.10"; "solo/sequence.10"].
Proof.
  destruct (get_sorted_data_files unordered) as [files|] eqn:E;
    [|vm_compute in E; discriminate E].
  exists files. split; [reflexivity|].
  destruct (sorted_files unordered) as [H _].
  destruct (H files E) as [Hperm _]. split; [exact Hperm|].
  vm_compute in E. injection E as <-. reflexivity.
Defined.

Lemma ascending_sequences_witness :
  exists u,
    load Sample.parsers [] unordered = Ok u
    /\ StronglySorted Z.lt (sequence_ids u).
Proof.
  destruct (load Sample.parsers [] unordered) as [u|] eqn:E;
    [|vm_compute in E; discriminate E].
  exists u. split; [reflexivity|].
  destruct (ascending_sequences Sample.parsers [] unordered u E) as [H _].
  exact H.
Defined.





End DiscoveryProofs.

(* ================================================================== *)
(** * The manifest *)

Module ManifestProofs.
Import Convert ConvertSpec EmissionSpec ManifestSpec IOFacts.

Section WithCollaborators.
Context (X : collaborators) {Raw : Type}.

Lemma label_lines_start (p : string) (c : ascii) (rest : string)
      (labels : list Label.t) :
  p = String c rest -> Ascii.eqb c " " = false ->
  starts p (map label_line labels) = false.
Proof.
  intros -> Hc. unfold starts.
  induction labels as [|label labels IH]; cbn [map existsb]; [reflexivity|].
  rewrite IH, orb_false_r. unfold label_line, fstr.
  cbn [String.concat String.append String.prefix].
  destruct (ascii_dec c " ") as [->|]; [discriminate Hc | reflexivity].
Qed.

Lemma label_lines_In (line : string) (c : ascii) (rest : string)
      (labels : list Label.t) :
  line = String c rest -> Ascii.eqb c " " = false ->
  ~ In line (map label_line labels).
Proof.
  intros -> Hc H. apply in_map_iff in H as [label [H _]].
  unfold label_line, fstr in H. cbn [String.concat String.append] in H.
  injection H as <- _. discriminate Hc.
Qed.

Lemma directories_test fs output_path include_test tr created yaml :
  DataDirectory.create_yolo_data_dir X fs output_path include_test
  = (tr, Ok (created, yaml)) ->
  In (Mkdir (Py.join2 created "test")) tr <-> include_test = true.
Proof.
  unfold DataDirectory.create_yolo_data_dir.
  destruct (_ && _)%bool; [discriminate|].
  assert (Hne : forall a, Py.join2 a "train" <> Py.join2 a "test"
                          /\ Py.join2 a "val" <> Py.join2 a "test").
  { intros a. split; intros E;
      apply IterationProofs.join2_injective in E; discriminate E
      || reflexivity. }
  set (p := if path_exists fs (normpath X output_path) then _ else _).
  destruct include_test; cbn [io_bind emit when io_ret app];
    intros [= <- <- <-].
  - split; [reflexivity|]. intros _. now do 3 right; left.
  - split; [|discriminate].
    intros [H|[H|[H|[]]]]; try discriminate H; injection H as H;
      now apply Hne in H.
Qed.

(** X24. Once the output directory is created, the conversion writes the
    manifest at the path it returns on success.  The manifest announces
    the test split exactly when the test directory was created, has a
    [kpt_shape] entry exactly when keypoints are requested, a [flip_idx]
    entry exactly when keypoints are requested and flip indices given (so
    flip indices without keypoints are dropped), and ends with the [names]
    block: one line per label of the registry, in order. *)
Theorem manifest_content (fs : filesystem) (u : UnityData.t Raw)
        (output_path : string) (cfg : config) (tr : list event)
        (created yaml : string) :
  include_keypoints cfg && is_none (n_keypoints cfg) = false ->
  DataDirectory.create_yolo_data_dir X fs output_path (include_test cfg)
  = (tr, Ok (created, yaml)) ->
  let chunks :=
    yaml_header X yaml u (include_keypoints cfg) (n_keypoints cfg)
                (flip_idx cfg) (include_test cfg) in
  In (WriteFile yaml chunks) (fst (unity_to_yolo X fs u output_path cfg))
  /\ (forall r, snd (unity_to_yolo X fs u output_path cfg) = Ok r ->
                r = yaml)
  /\ (In (fstr ["test: test"; nl]) chunks
      <-> In (Mkdir (Py.join2 created "test")) tr)
  /\ starts "kpt_shape: " chunks = include_keypoints cfg
  /\ starts "flip_idx: " chunks
     = include_keypoints cfg && negb (is_none (flip_idx cfg))
  /\ exists before,
      chunks = before ++ fstr ["names:"; nl]
                         :: map label_line (UnityData.labels u).
Proof.
  intros Hcfg Hdir chunks.
  destruct (EmissionProofs.unity_to_yolo_trace X fs u output_path cfg tr
              created yaml Hcfg Hdir) as [Htr Hres].
  split; [|split; [|split; [|split; [|split]]]].
  - rewrite Htr. apply in_or_app. right. now left.
  - intros r. rewrite Hres.
    destruct (snd (emit_all X cfg u created (valid_captures cfg u) 0
                            (split_tags X cfg u)));
      [now intros [= <-] | discriminate].
  - rewrite (directories_test fs output_path (include_test cfg) tr created
               yaml Hdir).
    subst chunks. unfold yaml_header.
    fold (map label_line (UnityData.labels u)).
    destruct (include_test cfg); [split; [reflexivity|]; intros _;
                                  now do 3 right; left|].
    split; [|discriminate]. cbn [app]. intros [H|[H|[H|[H|H]]]];
      try discriminate H.
    apply in_app_or in H as [H|H].
    + destruct (include_keypoints cfg), (n_keypoints cfg);
        try (destruct H; fail).
      destruct H as [H|H]; [discriminate H|].
      destruct (flip_idx cfg); [destruct H as [H|[]]; discriminate H|].
      destruct H.
    + destruct H as [H|H]; [discriminate H|].
      now apply (label_lines_In _ "t" _ _ eq_refl eq_refl) in H.
  - subst chunks. unfold yaml_header, starts.
    pose proof (label_lines_start "kpt_shape: " "k" "pt_shape: "
                  (UnityData.labels u) eq_refl eq_refl) as Hl.
    unfold starts, label_line in Hl.
    rewrite !existsb_app, Hl. cbn [existsb].
    destruct (include_keypoints cfg), (n_keypoints cfg), (flip_idx cfg),
      (include_test cfg); try discriminate Hcfg; reflexivity.
  - subst chunks. unfold yaml_header, starts.
    pose proof (label_lines_start "flip_idx: " "f" "lip_idx: "
                  (UnityData.labels u) eq_refl eq_refl) as Hl.
    unfold starts, label_line in Hl.
    rewrite !existsb_app, Hl. cbn [existsb].
    destruct (include_keypoints cfg), (n_keypoints cfg), (flip_idx cfg),
      (include_test cfg); try discriminate Hcfg; reflexivity.
  - subst chunks. unfold yaml_header.
    match goal with
    | |- exists _, ?a ++ ?b ++ ?c ++ ?d ++ _ ++ _ = _ =>
        exists (a ++ b ++ c ++ d)
    end.
    rewrite <- !List.app_assoc. reflexivity.
Qed.

End WithCollaborators.

(** The manifest of the sample conversion names the label of the sample
    dataset. *)
Lemma manifest_content_witness :
  exists before,
    In (WriteFile "out/out.yaml"
                  (before ++ [fstr ["names:"; nl];
                              label_line Sample.label]))
       (fst (unity_to_yolo Sample.collaborators Sample.fs Sample.unity_data
                           "out" Sample.config)).
Proof.
  destruct (manifest_content Sample.collaborators Sample.fs Sample.unity_data
              "out" Sample.config
              [MkdirParents "out"; Mkdir "out/train"; Mkdir "out/val"]
              "out" "out/out.yaml" eq_refl eq_refl)
    as [Hin [_ [_ [_ [_ [before Hb]]]]]].
  exists before. cbv zeta in Hin. now rewrite Hb in Hin.
Defined.

End ManifestProofs.

(* ================================================================== *)
(** * Object count metrics *)

Module CountProofs.
Import RecordSpec RecordProofs.

(** X25. The object count record of a parsed metric repeats the id and the
    sequence of the metric; it has no list of values exactly when the raw
    metric has no [values] key, and otherwise one value per raw entry, in
    order, each copying label id, label name and count. *)
Theorem count_values_copied (d : Metric.raw) (m : Metric.t)
        (ocm : ObjectCountMetric.t) :
  Metric.from_dict d = Ok m ->
  Metric.object_count_metric m = Some ocm ->
  ObjectCountMetric.id ocm = Metric.id m
  /\ ObjectCountMetric.sequence ocm = Metric.sequence m
  /\ match ObjectCountMetric.values ocm with
     | None => Metric.raw_values d = None
     | Some vs =>
         exists rvs, Metric.raw_values d = Some rvs
                     /\ Forall2 count_copied rvs vs
     end.
Proof.
  intros H Hocm.
  destruct (AggregateProofs.metric_path_sequence d m H) as [path [Hp Hseq]].
  apply metric_outer in H as [ty [_ [Hid [_ [_ [Hoc _]]]]]].
  destruct (String.eqb ty Metric.TYPE_OBJECT_COUNT); [|congruence].
  destruct Hoc as [ocm' [Hocm' Hparse]].
  assert (ocm' = ocm) by congruence. subst ocm'.
  apply object_count_metric_parsed in Hparse
    as [Hid' [_ [_ [_ [[path' [Hp' Hseq']] Hv]]]]].
  split; [congruence|]. split; [|exact Hv].
  assert (path' = path) by congruence. subst path'. congruence.
Qed.

Lemma count_values_copied_witness :
  exists m ocm vs,
    Metric.from_dict CountSample.raw_metric = Ok m
    /\ Metric.object_count_metric m = Some ocm
    /\ ObjectCountMetric.values ocm = Some vs
    /\ Forall2 count_copied
               (match Metric.raw_values CountSample.raw_metric with
                | Some rvs => rvs
                | None => []
                end) vs.
Proof.
  destruct (Metric.from_dict CountSample.raw_metric) as [m|] eqn:Hm;
    [|vm_compute in Hm; discriminate Hm].
  destruct (Metric.object_count_metric m) as [ocm|] eqn:Hocm;
    [|vm_compute in Hm; injection Hm as <-; discriminate Hocm].
  destruct (count_values_copied CountSample.raw_metric m ocm Hm Hocm)
    as [_ [_ Hv]].
  destruct (ObjectCountMetric.values ocm) as [vs|] eqn:Hvs;
    [|discriminate Hv].
  exists m, ocm, vs. repeat split; try assumption.
  destruct Hv as [rvs [Hr Hall]]. now rewrite Hr.
Defined.

End CountProofs.
